(** * d2q9-bgk: a distributed D2Q9 lattice Boltzmann scheme (BGK collision)

    Shallow embedding of [d2q9-bgk.c] and proofs about its domain
    decomposition, its halo exchange, its per-cell kernels, its
    initialisation, its time-step loop, the gather at the master and the
    output.

    Conventions of the embedding.
    - A C [int] is a [Z].  The code applies [%] to a non-negative left
      operand and a positive right operand only; C's truncating remainder is
      [Z.rem], and the theorems restate it with [mod] where the operands allow
      it.  Signed overflow is undefined in C; the model computes in [Z] and so
      describes the runs in which no intermediate value leaves the range of
      [int], which is the case of every expression modelled here when the
      grid has fewer than [2^30] rows and fewer than [2^31] cells.
    - A [for (int i = lo; i < hi; ++i)] loop is [for_loop lo hi body], which
      threads the loop state through the body.
    - A C [float] is abstracted by the class [FloatOps]; the kernels are
      written once over it.  Two instances are given: [binary32_ops], IEEE 754
      single precision (the Standard Library's [SpecFloat] at precision 24),
      every operation rounded to nearest-even on its own, without fused
      multiply-add or excess precision; and [real_ops], exact arithmetic
      over the reals.
    - [t_speed] (a struct holding [float speeds[9]]) is a record of nine
      floats, read and written by index with [speeds] and [set_speeds].
    - A heap array ([cells], [tmp_cells], [obstacles], the message buffers)
      is a list indexed by a [Z]; the generic reads and writes are [load] and
      [store].  An access outside the array is undefined behaviour in C; in
      the model such a read returns a default and such a write does nothing,
      and the theorems state the bounds under which every access is inside
      the array.
    - Message passing is modelled from the side of one worker: what it
      sends, and what it does with the buffers it receives.
    - The obstacle file is seen through the successive calls of
      [fscanf ("%d %d %d\n")] that read it: each call is the triple it
      converted, or nothing when it converted fewer than three values.  The
      calls skip white space, so they need not coincide with the lines of
      the file.  A call of [die] ends the reading with an error value
      named after its message.
    - In exact arithmetic division is the total division of the reals: the
      conservation theorems hold for it as they stand, and the theorems
      about velocities assume a density other than zero. *)

From Stdlib Require Import ZArith Lia Lra Bool List Reals.
From Stdlib Require Import Floats.SpecFloat.
From stdpp Require Import base list.

Local Open Scope Z_scope.

(** * Part I: the program *)

(** ** Counted loops *)

Section Loops.
Context {St : Type}.

Fixpoint for_iter (n : nat) (i : Z) (body : Z -> St -> St) (s : St) : St :=
  match n with
  | O => s
  | S n' => for_iter n' (i + 1) body (body i s)
  end.

(** [for (int i = lo; i < hi; ++i) s = body i s;] *)
Definition for_loop (lo hi : Z) (body : Z -> St -> St) (s : St) : St :=
  for_iter (Z.to_nat (hi - lo)) lo body s.
End Loops.

(** ** Heap arrays *)

Definition load {A : Type} (d : A) (a : list A) (i : Z) : A :=
  if i <? 0 then d else default d (a !! Z.to_nat i).

Definition store {A : Type} (a : list A) (i : Z) (v : A) : list A :=
  if i <? 0 then a else <[Z.to_nat i := v]> a.

(** ** Floating-point operations *)

Class FloatOps (F : Type) : Type := {
  of_int : Z -> F;          (* an integer literal [9.f], or the cast [(float)n] *)
  fadd : F -> F -> F;
  fsub : F -> F -> F;
  fmul : F -> F -> F;
  fdiv : F -> F -> F;
  fneg : F -> F;
  fsqrt : F -> F;           (* [sqrtf] *)
  fgt : F -> F -> bool      (* [x > y] *)
}.

Declare Scope fl_scope.
Delimit Scope fl_scope with fl.
Infix "+" := fadd : fl_scope.
Infix "-" := fsub : fl_scope.
Infix "*" := fmul : fl_scope.
Infix "/" := fdiv : fl_scope.
Notation "- x" := (fneg x) : fl_scope.

(** IEEE 754 binary32: 24 bits of precision, exponent bound 128. *)
Definition binary32 : Type := spec_float.

#[export] Instance binary32_ops : FloatOps binary32 := {|
  of_int := fun z => binary_normalize 24 128 z 0 false;
  fadd := SFadd 24 128;
  fsub := SFsub 24 128;
  fmul := SFmul 24 128;
  fdiv := SFdiv 24 128;
  fneg := SFopp;
  fsqrt := SFsqrt 24 128;
  fgt := fun x y => SFltb y x
|}.

(** Exact arithmetic. *)
#[export] Instance real_ops : FloatOps R := {|
  of_int := IZR;
  fadd := Rplus;
  fsub := Rminus;
  fmul := Rmult;
  fdiv := Rdiv;
  fneg := Ropp;
  fsqrt := sqrt;
  fgt := fun x y => if Rgt_dec x y then true else false
|}.

(** ** The grid and the kernels *)

Section Kernels.
Context {F : Type} `{FloatOps F}.

Local Open Scope fl_scope.

Record t_param : Type := {
  nx : Z;
  ny : Z;
  maxIters : Z;
  reynolds_dim : Z;
  density : F;
  accel : F;
  omega : F
}.

(** [typedef struct { float speeds[NSPEEDS]; } t_speed;] with [NSPEEDS = 9] *)
Record t_speed : Type := mk_speed {
  sp0 : F; sp1 : F; sp2 : F; sp3 : F; sp4 : F;
  sp5 : F; sp6 : F; sp7 : F; sp8 : F
}.

Definition NSPEEDS : Z := 9.

(** [c.speeds[k]] *)
Definition speeds (c : t_speed) (k : Z) : F :=
  match k with
  | 0%Z => sp0 c | 1%Z => sp1 c | 2%Z => sp2 c | 3%Z => sp3 c | 4%Z => sp4 c
  | 5%Z => sp5 c | 6%Z => sp6 c | 7%Z => sp7 c | 8%Z => sp8 c
  | _ => of_int 0
  end.

(** [c.speeds[k] = v] *)
Definition set_speeds (c : t_speed) (k : Z) (v : F) : t_speed :=
  let '(mk_speed a0 a1 a2 a3 a4 a5 a6 a7 a8) := c in
  match k with
  | 0%Z => mk_speed v a1 a2 a3 a4 a5 a6 a7 a8
  | 1%Z => mk_speed a0 v a2 a3 a4 a5 a6 a7 a8
  | 2%Z => mk_speed a0 a1 v a3 a4 a5 a6 a7 a8
  | 3%Z => mk_speed a0 a1 a2 v a4 a5 a6 a7 a8
  | 4%Z => mk_speed a0 a1 a2 a3 v a5 a6 a7 a8
  | 5%Z => mk_speed a0 a1 a2 a3 a4 v a6 a7 a8
  | 6%Z => mk_speed a0 a1 a2 a3 a4 a5 v a7 a8
  | 7%Z => mk_speed a0 a1 a2 a3 a4 a5 a6 v a8
  | 8%Z => mk_speed a0 a1 a2 a3 a4 a5 a6 a7 v
  | _ => c
  end.

Definition zero_speed : t_speed :=
  let z := of_int 0 in mk_speed z z z z z z z z z.

(** [cells[idx]] *)
Definition cell (cells : list t_speed) (idx : Z) : t_speed :=
  load zero_speed cells idx.

(** [cells[idx].speeds[k] = v] *)
Definition write_speed (cells : list t_speed) (idx k : Z) (v : F)
  : list t_speed :=
  store cells idx (set_speeds (cell cells idx) k v).

(** [obstacles[idx]] used as a truth value *)
Definition blocked (obstacles : list Z) (idx : Z) : bool :=
  negb (load 0%Z obstacles idx =? 0)%Z.

(** *** [accelerate_flow] *)

Definition accelerate_flow (params : t_param) (cells : list t_speed)
    (obstacles : list Z) : list t_speed :=
  (* compute weighting factors *)
  let w1 := density params * accel params / of_int 9 in
  let w2 := density params * accel params / of_int 36 in
  (* modify the 2nd row of the grid *)
  let jj := (ny params - 2)%Z in
  for_loop 0 (nx params) (fun ii cells =>
    let idx := (ii + jj * nx params)%Z in
    if negb (blocked obstacles idx)
       && fgt (speeds (cell cells idx) 3 - w1) (of_int 0)
       && fgt (speeds (cell cells idx) 6 - w2) (of_int 0)
       && fgt (speeds (cell cells idx) 7 - w2) (of_int 0)
    then
      (* increase 'east-side' densities *)
      let cells := write_speed cells idx 1 (speeds (cell cells idx) 1 + w1) in
      let cells := write_speed cells idx 5 (speeds (cell cells idx) 5 + w2) in
      let cells := write_speed cells idx 8 (speeds (cell cells idx) 8 + w2) in
      (* decrease 'west-side' densities *)
      let cells := write_speed cells idx 3 (speeds (cell cells idx) 3 - w1) in
      let cells := write_speed cells idx 6 (speeds (cell cells idx) 6 - w2) in
      let cells := write_speed cells idx 7 (speeds (cell cells idx) 7 - w2) in
      cells
    else cells) cells.

(** *** [propagate]: writes cell [(ii, jj)] of the scratch grid *)

Definition propagate (ii jj : Z) (params : t_param)
    (cells tmp_cells : list t_speed) : list t_speed :=
  let nx := nx params in
  let ny := ny params in
  let y_n := Z.rem (jj + 1) ny in
  let x_e := Z.rem (ii + 1) nx in
  let y_s := (if jj =? 0 then jj + ny - 1 else jj - 1)%Z in
  let x_w := (if ii =? 0 then ii + nx - 1 else ii - 1)%Z in
  let here := (ii + jj * nx)%Z in
  let tmp_cells :=
    write_speed tmp_cells here 0 (speeds (cell cells (ii + jj * nx)) 0) in
  let tmp_cells :=
    write_speed tmp_cells here 1 (speeds (cell cells (x_w + jj * nx)) 1) in
  let tmp_cells :=
    write_speed tmp_cells here 2 (speeds (cell cells (ii + y_s * nx)) 2) in
  let tmp_cells :=
    write_speed tmp_cells here 3 (speeds (cell cells (x_e + jj * nx)) 3) in
  let tmp_cells :=
    write_speed tmp_cells here 4 (speeds (cell cells (ii + y_n * nx)) 4) in
  let tmp_cells :=
    write_speed tmp_cells here 5 (speeds (cell cells (x_w + y_s * nx)) 5) in
  let tmp_cells :=
    write_speed tmp_cells here 6 (speeds (cell cells (x_e + y_s * nx)) 6) in
  let tmp_cells :=
    write_speed tmp_cells here 7 (speeds (cell cells (x_e + y_n * nx)) 7) in
  let tmp_cells :=
    write_speed tmp_cells here 8 (speeds (cell cells (x_w + y_n * nx)) 8) in
  tmp_cells.

(** *** [rebound]: writes cell [(ii, jj)] of the main grid *)

Definition rebound (ii jj : Z) (params : t_param)
    (cells tmp_cells : list t_speed) (obstacles : list Z) : list t_speed :=
  let nx := nx params in
  let here := (ii + jj * nx)%Z in
  if blocked obstacles (jj * nx + ii) then
    let cells := write_speed cells here 1 (speeds (cell tmp_cells here) 3) in
    let cells := write_speed cells here 2 (speeds (cell tmp_cells here) 4) in
    let cells := write_speed cells here 3 (speeds (cell tmp_cells here) 1) in
    let cells := write_speed cells here 4 (speeds (cell tmp_cells here) 2) in
    let cells := write_speed cells here 5 (speeds (cell tmp_cells here) 7) in
    let cells := write_speed cells here 6 (speeds (cell tmp_cells here) 8) in
    let cells := write_speed cells here 7 (speeds (cell tmp_cells here) 5) in
    let cells := write_speed cells here 8 (speeds (cell tmp_cells here) 6) in
    cells
  else cells.

(** *** [collision]: writes cell [(ii, jj)] of the main grid *)

(** [local_density = 0.f; for (kk < NSPEEDS) local_density += c.speeds[kk];] *)
Definition local_density (c : t_speed) : F :=
  for_loop 0 NSPEEDS (fun kk acc => acc + speeds c kk) (of_int 0).

Definition velocity_x (c : t_speed) (local_density : F) : F :=
  (speeds c 1 + speeds c 5 + speeds c 8
   - (speeds c 3 + speeds c 6 + speeds c 7)) / local_density.

Definition velocity_y (c : t_speed) (local_density : F) : F :=
  (speeds c 2 + speeds c 5 + speeds c 6
   - (speeds c 4 + speeds c 7 + speeds c 8)) / local_density.

(** The local array [u[NSPEEDS]]; [u[0]] is never written nor read. *)
Definition directional (u_x u_y : F) (k : Z) : F :=
  match k with
  | 1%Z => u_x
  | 2%Z => u_y
  | 3%Z => - u_x
  | 4%Z => - u_y
  | 5%Z => u_x + u_y
  | 6%Z => - u_x + u_y
  | 7%Z => - u_x - u_y
  | 8%Z => u_x - u_y
  | _ => of_int 0
  end.

(** The local array [d_equ[NSPEEDS]]. *)
Definition d_equ (c : t_speed) (k : Z) : F :=
  let c_sq := of_int 1 / of_int 3 in
  let w0 := of_int 4 / of_int 9 in
  let w1 := of_int 1 / of_int 9 in
  let w2 := of_int 1 / of_int 36 in
  let local_density := local_density c in
  let u_x := velocity_x c local_density in
  let u_y := velocity_y c local_density in
  let u_sq := u_x * u_x + u_y * u_y in
  let u := directional u_x u_y in
  let axis k :=
    w1 * local_density *
    (of_int 1 + u k / c_sq + (u k * u k) / (of_int 2 * c_sq * c_sq)
     - u_sq / (of_int 2 * c_sq)) in
  let diagonal k :=
    w2 * local_density *
    (of_int 1 + u k / c_sq + (u k * u k) / (of_int 2 * c_sq * c_sq)
     - u_sq / (of_int 2 * c_sq)) in
  match k with
  | 0%Z => w0 * local_density * (of_int 1 - u_sq / (of_int 2 * c_sq))
  | 1%Z => axis 1%Z | 2%Z => axis 2%Z | 3%Z => axis 3%Z | 4%Z => axis 4%Z
  | 5%Z => diagonal 5%Z | 6%Z => diagonal 6%Z
  | 7%Z => diagonal 7%Z | 8%Z => diagonal 8%Z
  | _ => of_int 0
  end.

Definition collision (ii jj : Z) (params : t_param)
    (cells tmp_cells : list t_speed) (obstacles : list Z) : list t_speed :=
  let nx := nx params in
  let here := (ii + jj * nx)%Z in
  (* don't consider occupied cells *)
  if negb (blocked obstacles here) then
    let d_equ := d_equ (cell tmp_cells here) in
    (* relaxation step *)
    for_loop 0 NSPEEDS (fun kk cells =>
      write_speed cells here kk
        (speeds (cell tmp_cells here) kk
         + omega params * (d_equ kk - speeds (cell tmp_cells here) kk)))
      cells
  else cells.

(** *** [total_density] *)

Definition total_density (params : t_param) (cells : list t_speed) : F :=
  for_loop 0 (ny params) (fun jj total =>
    for_loop 0 (nx params) (fun ii total =>
      for_loop 0 NSPEEDS (fun kk total =>
        total + speeds (cell cells (ii + jj * nx params)) kk) total) total)
    (of_int 0).

(** *** [av_velocity] *)

(** The two accumulators of the loop nest, [(tot_cells, tot_u)]. *)
Definition av_velocity_local (params : t_param) (cells : list t_speed)
    (obstacles : list Z) (domain_start domain_size : Z) : Z * F :=
  for_loop domain_start (domain_start + domain_size) (fun jj acc =>
    for_loop 0 (nx params) (fun ii acc =>
      let idx := (ii + jj * nx params)%Z in
      (* ignore occupied cells *)
      if negb (blocked obstacles idx) then
        let local_density := local_density (cell cells idx) in
        let u_x := velocity_x (cell cells idx) local_density in
        let u_y := velocity_y (cell cells idx) local_density in
        ((fst acc + 1)%Z, snd acc + fsqrt ((u_x * u_x) + (u_y * u_y)))
      else acc) acc)
    (0%Z, of_int 0).

(** [MPI_Reduce(sendbuf, recvbuf, 2, MPI_FLOAT, MPI_SUM, 0, MPI_COMM_WORLD)]
    as seen by the root: the element-wise sum of the root's [sendbuf] and
    of the buffers contributed by the other ranks, here taken in rank
    order. *)
Definition MPI_Reduce_sum (sendbuf : F * F) (others : list (F * F)) : F * F :=
  fold_left (fun acc b => (fst acc + fst b, snd acc + snd b)) others sendbuf.

Definition av_velocity (params : t_param) (cells : list t_speed)
    (obstacles : list Z) (rank domain_start domain_size sync : Z)
    (others : list (F * F)) : F :=
  let '(tot_cells, tot_u) :=
    av_velocity_local params cells obstacles domain_start domain_size in
  if (sync =? 1)%Z then
    let sendbuf := (tot_u, of_int tot_cells) in
    let recvbuf := MPI_Reduce_sum sendbuf others in
    if (rank =? 0)%Z then fst recvbuf / snd recvbuf
    else tot_u / of_int tot_cells
  else tot_u / of_int tot_cells.

End Kernels.

Arguments t_param F : clear implicits.
Arguments t_speed F : clear implicits.

(** ** Domain decomposition ([main], the loop that sets [domain_start] and
    [domain_size]; [sync_grid] repeats it for every other rank) *)

(** One iteration of
    [if (i % size == rank) domain_size++; if (i % size < rank) domain_start++;]
    on the pair [(domain_start, domain_size)]. *)
Definition domain_step (size rank : Z) (i : Z) (d : Z * Z) : Z * Z :=
  let '(domain_start, domain_size) := d in
  let domain_size :=
    if Z.rem i size =? rank then domain_size + 1 else domain_size in
  let domain_start :=
    if Z.rem i size <? rank then domain_start + 1 else domain_start in
  (domain_start, domain_size).

Definition domain (ny size rank : Z) : Z * Z :=
  for_loop 0 ny (domain_step size rank) (0, 0).

Definition domain_start (ny size rank : Z) : Z := fst (domain ny size rank).
Definition domain_size (ny size rank : Z) : Z := snd (domain ny size rank).

(** Row [r] lies in the half-open range the driver iterates over,
    [for (jj = domain_start; jj < domain_start + domain_size; ++jj)]. *)
Definition owns (ny size rank r : Z) : Prop :=
  domain_start ny size rank <= r
  < domain_start ny size rank + domain_size ny size rank.

(** The round-robin set of the specification. *)
Definition round_robin (ny size rank r : Z) : Prop :=
  0 <= r < ny /\ Z.rem r size = rank.

(** The rank that runs [accelerate_flow]: [if (rank == size - 1)]. *)
Definition accelerating_rank (size : Z) : Z := size - 1.

(** ** Halo exchange ([halo_exchange], [SendRecv]) *)

(** Arguments of one call of [SendRecv]. *)
Record SendRecv_args : Type := {
  sr_to : Z;
  sr_from : Z;
  sr_sendRow : Z;
  sr_receiveRow : Z;
  sr_id : Z
}.

(** The calls of [SendRecv] that [halo_exchange] makes, in order. *)
Definition halo_exchange
    (height domain_start domain_size rank size : Z) : list SendRecv_args :=
  if negb (size =? 1) then
    [ {| sr_to := Z.rem (size + rank - 1) size;
         sr_from := Z.rem (size + rank + 1) size;
         sr_sendRow := domain_start;
         sr_receiveRow := Z.rem (domain_start + domain_size) height;
         sr_id := 0 |};
      {| sr_to := Z.rem (size + rank + 1) size;
         sr_from := Z.rem (rank + size - 1) size;
         sr_sendRow := domain_start + domain_size - 1;
         sr_receiveRow := Z.rem (domain_start + height - 1) height;
         sr_id := 1 |} ]
  else [].

Section HaloData.
Context {F : Type} `{FloatOps F}.

(** [SendRecv] before the call of [MPI_Sendrecv]: row [sendRow] of the grid
    is copied into [sendbuf], nine floats per cell. *)
Definition SendRecv_pack (cells : list (t_speed F)) (sendbuf : list F)
    (sendRow width : Z) : list F :=
  for_loop 0 width (fun ii sendbuf =>
    for_loop 0 NSPEEDS (fun jj sendbuf =>
      store sendbuf (ii * NSPEEDS + jj)
        (speeds (cell cells (ii + sendRow * width)) jj)) sendbuf) sendbuf.

(** [SendRecv] after the call: [recvbuf] is copied into row [receiveRow]. *)
Definition SendRecv_unpack (cells : list (t_speed F)) (recvbuf : list F)
    (receiveRow width : Z) : list (t_speed F) :=
  for_loop 0 width (fun ii cells =>
    for_loop 0 NSPEEDS (fun jj cells =>
      write_speed cells (ii + receiveRow * width) jj
        (load (of_int 0) recvbuf (ii * NSPEEDS + jj))) cells) cells.

(** One call of [SendRecv].  [MPI_Sendrecv] hands [sendbuf] to rank [to]
    and fills [recvbuf] with the message of rank [from], here [incoming];
    the result is the grid and the message sent. *)
Definition SendRecv (cells : list (t_speed F)) (sendbuf : list F)
    (args : SendRecv_args) (width : Z) (incoming : list F)
  : list (t_speed F) * list F :=
  let sendbuf := SendRecv_pack cells sendbuf (sr_sendRow args) width in
  (SendRecv_unpack cells incoming (sr_receiveRow args) width, sendbuf).

(** The grid after [halo_exchange], given the messages that arrive in its
    calls of [SendRecv], in order. *)
Definition halo_exchange_cells (cells : list (t_speed F)) (sendbuf : list F)
    (width height domain_start domain_size rank size : Z)
    (incoming : list (list F)) : list (t_speed F) :=
  fold_left (fun cells call =>
               fst (SendRecv cells sendbuf (fst call) width (snd call)))
    (zip (halo_exchange height domain_start domain_size rank size) incoming)
    cells.

(** *** One iteration of the time-step loop of [main]

    The value of [av_velocity] that the iteration records does not touch the
    grids and is left out. *)

Definition propagate_rebound_rows (params : t_param F) (obstacles : list Z)
    (domain_start domain_size : Z) (st : list (t_speed F) * list (t_speed F))
  : list (t_speed F) * list (t_speed F) :=
  for_loop domain_start (domain_start + domain_size) (fun jj st =>
    for_loop 0 (nx params) (fun ii st =>
      let '(cells, tmp_cells) := st in
      let tmp_cells := propagate ii jj params cells tmp_cells in
      let cells := rebound ii jj params cells tmp_cells obstacles in
      (cells, tmp_cells)) st) st.

Definition collision_rows (params : t_param F) (obstacles : list Z)
    (domain_start domain_size : Z) (st : list (t_speed F) * list (t_speed F))
  : list (t_speed F) * list (t_speed F) :=
  for_loop domain_start (domain_start + domain_size) (fun jj st =>
    for_loop 0 (nx params) (fun ii st =>
      let '(cells, tmp_cells) := st in
      (collision ii jj params cells tmp_cells obstacles, tmp_cells)) st) st.

Definition timestep (params : t_param F) (obstacles : list Z)
    (rank size domain_start domain_size : Z) (sendbuf : list F)
    (incoming : list (list F))
    (st : list (t_speed F) * list (t_speed F))
  : list (t_speed F) * list (t_speed F) :=
  let '(cells, tmp_cells) := st in
  let cells :=
    if (rank =? size - 1)%Z then accelerate_flow params cells obstacles
    else cells in
  let cells :=
    halo_exchange_cells cells sendbuf (nx params) (ny params)
      domain_start domain_size rank size incoming in
  let st := propagate_rebound_rows params obstacles domain_start domain_size
              (cells, tmp_cells) in
  collision_rows params obstacles domain_start domain_size st.

End HaloData.

(** ** Reference formulations

    Cell-level descriptions that the kernels are compared with.  They follow
    the wording of the specification: what forcing does to a cell, what
    bounce-back and streaming leave in it, the equilibrium distribution and
    the relaxation. *)

Section Reference.
Context {F : Type} `{FloatOps F}.

Local Open Scope fl_scope.

(** The forcing weights, [w1 = density * accel / 9] and
    [w2 = density * accel / 36]. *)
Definition forcing_w1 (params : t_param F) : F :=
  density params * accel params / of_int 9.

Definition forcing_w2 (params : t_param F) : F :=
  density params * accel params / of_int 36.

(** Forcing applied to a cell: [w1] moves from direction 3 to direction 1,
    [w2] from 6 and 7 to 5 and 8. *)
Definition forced (w1 w2 : F) (c : t_speed F) : t_speed F :=
  mk_speed (sp0 c) (sp1 c + w1) (sp2 c) (sp3 c - w1) (sp4 c)
           (sp5 c + w2) (sp6 c - w2) (sp7 c - w2) (sp8 c + w2).

(** Each of the three reduced components stays strictly positive. *)
Definition stays_positive (w1 w2 : F) (c : t_speed F) : bool :=
  fgt (sp3 c - w1) (of_int 0) && fgt (sp6 c - w2) (of_int 0)
  && fgt (sp7 c - w2) (of_int 0).

(** Forcing of a cell under that guard: applied when the cell is not an
    obstacle and the reduced components stay positive, skipped otherwise. *)
Definition accelerated (params : t_param F) (obstacle : bool) (c : t_speed F)
  : t_speed F :=
  if negb obstacle && stays_positive (forcing_w1 params) (forcing_w2 params) c
  then forced (forcing_w1 params) (forcing_w2 params) c
  else c.

(** Some reduced component would be strictly below zero. *)
Definition goes_negative (w1 w2 : F) (c : t_speed F) : bool :=
  fgt (of_int 0) (sp3 c - w1) || fgt (of_int 0) (sp6 c - w2)
  || fgt (of_int 0) (sp7 c - w2).

(** The lattice weights: 4/9 at rest, 1/9 along the axes, 1/36 along the
    diagonals. *)
Definition lattice_weight (k : Z) : F :=
  if (k =? 0)%Z then of_int 4 / of_int 9
  else if (k <=? 4)%Z then of_int 1 / of_int 9
  else of_int 1 / of_int 36.

(** The lattice velocities [(e_x, e_y)] of the nine directions. *)
Definition lattice_ex (k : Z) : Z :=
  match k with
  | 1 | 5 | 8 => 1
  | 3 | 6 | 7 => -1
  | _ => 0
  end%Z.

Definition lattice_ey (k : Z) : Z :=
  match k with
  | 2 | 5 | 6 => 1
  | 4 | 7 | 8 => -1
  | _ => 0
  end%Z.

(** The local density of a cell: the sum of its nine values, added up from
    zero in the order of the directions. *)
Definition density_sum (c : t_speed F) : F :=
  of_int 0 + sp0 c + sp1 c + sp2 c + sp3 c + sp4 c + sp5 c + sp6 c + sp7 c
  + sp8 c.

(** The bulk velocity of a cell: along each axis, the values of the three
    directions that point forwards less those of the three that point
    backwards, over the local density. *)
Definition bulk_velocity_x (c : t_speed F) : F :=
  (sp1 c + sp5 c + sp8 c - (sp3 c + sp6 c + sp7 c)) / density_sum c.

Definition bulk_velocity_y (c : t_speed F) : F :=
  (sp2 c + sp5 c + sp6 c - (sp4 c + sp7 c + sp8 c)) / density_sum c.

(** The component [e_k . u] of a velocity [(u_x, u_y)] along direction [k],
    read off the lattice velocity [e_k = (lattice_ex k, lattice_ey k)]. *)
Definition projection (u_x u_y : F) (k : Z) : F :=
  match lattice_ex k, lattice_ey k with
  | 1%Z, 0%Z => u_x
  | 0%Z, 1%Z => u_y
  | (-1)%Z, 0%Z => - u_x
  | 0%Z, (-1)%Z => - u_y
  | 1%Z, 1%Z => u_x + u_y
  | (-1)%Z, 1%Z => - u_x + u_y
  | (-1)%Z, (-1)%Z => - u_x - u_y
  | 1%Z, (-1)%Z => u_x - u_y
  | _, _ => of_int 0
  end.

(** Second-order equilibrium of direction [k] of a cell, from its local
    density [rho] and its bulk velocity [u]:
    [w_k rho (1 + e_k.u / c_sq + (e_k.u)^2 / (2 c_sq^2) - u.u / (2 c_sq))],
    with speed of sound squared [c_sq = 1/3]; for the rest direction,
    where [e_k.u] is zero, [w_0 rho (1 - u.u / (2 c_sq))]. *)
Definition equilibrium (c : t_speed F) (k : Z) : F :=
  let c_sq := of_int 1 / of_int 3 in
  let rho := density_sum c in
  let u_x := bulk_velocity_x c in
  let u_y := bulk_velocity_y c in
  let u_sq := u_x * u_x + u_y * u_y in
  let u_k := projection u_x u_y k in
  if (k =? 0)%Z then
    lattice_weight k * rho * (of_int 1 - u_sq / (of_int 2 * c_sq))
  else
    lattice_weight k * rho *
    (of_int 1 + u_k / c_sq + (u_k * u_k) / (of_int 2 * c_sq * c_sq)
     - u_sq / (of_int 2 * c_sq)).

(** BGK relaxation of one component, and of a whole cell towards its own
    equilibrium. *)
Definition relax (omega f f_eq : F) : F := f + omega * (f_eq - f).

Definition relaxed (omega : F) (t : t_speed F) : t_speed F :=
  mk_speed (relax omega (sp0 t) (equilibrium t 0))
           (relax omega (sp1 t) (equilibrium t 1))
           (relax omega (sp2 t) (equilibrium t 2))
           (relax omega (sp3 t) (equilibrium t 3))
           (relax omega (sp4 t) (equilibrium t 4))
           (relax omega (sp5 t) (equilibrium t 5))
           (relax omega (sp6 t) (equilibrium t 6))
           (relax omega (sp7 t) (equilibrium t 7))
           (relax omega (sp8 t) (equilibrium t 8)).

(** Bounce-back: cell [c] of the main grid takes, in every paired
    direction, the scratch cell's value of the opposite direction. *)
Definition bounced (c t : t_speed F) : t_speed F :=
  mk_speed (sp0 c) (sp3 t) (sp4 t) (sp1 t) (sp2 t)
           (sp7 t) (sp8 t) (sp5 t) (sp6 t).

(** The cell that streaming brings to [(ii, jj)]: component [k] comes from
    the neighbour that lies against direction [k], with periodic wrap. *)
Definition streamed (params : t_param F) (cells : list (t_speed F))
    (ii jj : Z) : t_speed F :=
  let nx := nx params in
  let ny := ny params in
  let y_n := Z.rem (jj + 1) ny in
  let x_e := Z.rem (ii + 1) nx in
  let y_s := (if jj =? 0 then jj + ny - 1 else jj - 1)%Z in
  let x_w := (if ii =? 0 then ii + nx - 1 else ii - 1)%Z in
  mk_speed (speeds (cell cells (ii + jj * nx)) 0)
           (speeds (cell cells (x_w + jj * nx)) 1)
           (speeds (cell cells (ii + y_s * nx)) 2)
           (speeds (cell cells (x_e + jj * nx)) 3)
           (speeds (cell cells (ii + y_n * nx)) 4)
           (speeds (cell cells (x_w + y_s * nx)) 5)
           (speeds (cell cells (x_e + y_s * nx)) 6)
           (speeds (cell cells (x_e + y_n * nx)) 7)
           (speeds (cell cells (x_w + y_n * nx)) 8).

(** Sum of the nine components of a cell, in index order. *)
Definition cell_sum (c : t_speed F) : F :=
  sp0 c + sp1 c + sp2 c + sp3 c + sp4 c + sp5 c + sp6 c + sp7 c + sp8 c.

(** Velocity magnitude of a cell, [sqrt (u_x^2 + u_y^2)] for its bulk
    velocity. *)
Definition speed_magnitude (c : t_speed F) : F :=
  let u_x := bulk_velocity_x c in
  let u_y := bulk_velocity_y c in
  fsqrt ((u_x * u_x) + (u_y * u_y)).

(** The cells of the rows [[start, start + size)] in row-major order, and
    those of them that are not obstacles. *)
Definition range_cells (nx start size : Z) : list Z :=
  jj ← seqZ start size; ii ← seqZ 0 nx; [(ii + jj * nx)%Z].

Definition fluid_cells (obstacles : list Z) (nx start size : Z) : list Z :=
  filter (fun idx => blocked obstacles idx = false) (range_cells nx start size).

End Reference.

(** Exact sums: [rsum n f = f 0 + ... + f (n - 1)], accumulated the way
    the loops of [total_density] do. *)
Definition rsum (n : Z) (f : Z -> R) : R :=
  for_loop 0 n (fun i acc => (acc + f i)%R) 0%R.

(** The equilibrium in exact arithmetic, from the moments of the cell over
    the lattice velocities [e_j = (lattice_ex j, lattice_ey j)]: the density
    [rho = sum_j f_j], the bulk velocity [u = (sum_j e_j f_j) / rho], and
    [w_k rho (1 + e_k.u / c_sq + (e_k.u)^2 / (2 c_sq^2) - u.u / (2 c_sq))]
    with the speed of sound squared [c_sq = 1/3]. *)
Definition second_order_equilibrium (c : t_speed R) (k : Z) : R :=
  let c_sq := (1 / 3)%R in
  let rho := rsum 9 (fun j => speeds c j) in
  let u_x := (rsum 9 (fun j => IZR (lattice_ex j) * speeds c j) / rho)%R in
  let u_y := (rsum 9 (fun j => IZR (lattice_ey j) * speeds c j) / rho)%R in
  let eu := (IZR (lattice_ex k) * u_x + IZR (lattice_ey k) * u_y)%R in
  (lattice_weight k * rho
   * (1 + eu / c_sq + eu * eu / (2 * c_sq * c_sq)
      - (u_x * u_x + u_y * u_y) / (2 * c_sq)))%R.

(** The periodic neighbours of [propagate]: [(i + 1) % n] towards growing
    indices, [(i == 0) ? (i + n - 1) : (i - 1)] towards decreasing ones. *)
Definition wrap_up (n i : Z) : Z := Z.rem (i + 1) n.
Definition wrap_down (n i : Z) : Z := if i =? 0 then i + n - 1 else i - 1.

(** No cell of the rows [[start, start + size)] is an obstacle. *)
Definition no_obstacles {F : Type} (params : t_param F) (obstacles : list Z)
    (start size : Z) : Prop :=
  forall ii jj, start <= jj < start + size -> 0 <= ii < nx params ->
    blocked obstacles (ii + jj * nx params) = false.

(** A well-formed grid for [params]: [ny * nx] cells, as [initialise]
    allocates them. *)
Definition grid_size {F A : Type} (params : t_param F) (a : list A) : Prop :=
  Z.of_nat (length a) = ny params * nx params.

(** ** Initial state ([initialise]) and sample runs

    [initialise] sets every cell to the same nine values, computed from the
    density of the parameter file. *)

Section Samples.
Context {F : Type} `{FloatOps F}.

Local Open Scope fl_scope.

Definition initial_cell (params : t_param F) : t_speed F :=
  let w0 := density params * of_int 4 / of_int 9 in
  let w1 := density params / of_int 9 in
  let w2 := density params / of_int 36 in
  mk_speed w0 w1 w1 w1 w1 w2 w2 w2 w2.

Definition initialise_cells (params : t_param F) : list (t_speed F) :=
  repeat (initial_cell params) (Z.to_nat (ny params * nx params)).

End Samples.

(** A 1 x 2 grid without obstacles, density 0.1, acceleration 1.0. *)
Definition sample_unit_accel : t_param binary32 :=
  {| nx := 1; ny := 2; maxIters := 1; reynolds_dim := 1;
     density := fdiv (of_int 1) (of_int 10);
     accel := of_int 1;
     omega := of_int 1 |}.

(** A 1 x 2 grid with density 9 and acceleration 1, so that [w1 = 1] and
    [w2 = 0.25], and a cell whose east component is [2^24]. *)
Definition sample_large : t_param binary32 :=
  {| nx := 1; ny := 2; maxIters := 1; reynolds_dim := 1;
     density := of_int 9;
     accel := of_int 1;
     omega := of_int 1 |}.

Definition sample_large_cell : t_speed binary32 :=
  mk_speed (of_int 0) (of_int 16777216) (of_int 0) (of_int 2) (of_int 0)
           (of_int 0) (of_int 1) (of_int 1) (of_int 0).

(** A 2 x 3 grid, density 0.1, acceleration 0.005, relaxation 1.7. *)
Definition sample_params : t_param binary32 :=
  {| nx := 2; ny := 3; maxIters := 1; reynolds_dim := 1;
     density := fdiv (of_int 1) (of_int 10);
     accel := fdiv (of_int 5) (of_int 1000);
     omega := fdiv (of_int 17) (of_int 10) |}.

(** A 1 x 2 grid shared by two workers; row 0 is an obstacle. *)
Definition sample_two_rows : t_param binary32 :=
  {| nx := 1; ny := 2; maxIters := 1; reynolds_dim := 1;
     density := fdiv (of_int 1) (of_int 10);
     accel := fdiv (of_int 5) (of_int 1000);
     omega := fdiv (of_int 17) (of_int 10) |}.

Definition sample_two_rows_obstacles : list Z := [1; 0].

(** What rank 1 of that run contributes to the reduction:
    [sendbuf = { tot_u, (float)tot_cells }]. *)
Definition sample_two_rows_rank1 : binary32 * binary32 :=
  let '(tot_cells, tot_u) :=
    av_velocity_local sample_two_rows (initialise_cells sample_two_rows)
      sample_two_rows_obstacles (domain_start 2 2 1) (domain_size 2 2 1) in
  (tot_u, of_int tot_cells).

(** A cell of density 16 that moves towards the north-east, in single
    precision and in exact arithmetic. *)
Definition sample_moving_cell : t_speed binary32 :=
  mk_speed (of_int 4) (of_int 3) (of_int 2) (of_int 1) (of_int 1)
           (of_int 2) (of_int 1) (of_int 1) (of_int 1).

Definition sample_moving_cell_R : t_speed R :=
  (mk_speed 4 3 2 1 1 2 1 1 1)%R.

(** What rank 1 of two workers contributes to the reduction on the 2 x 3
    grid of such cells without obstacles; it owns row 2. *)
Definition sample_moving_rank1 : binary32 * binary32 :=
  let '(tot_cells, tot_u) :=
    av_velocity_local sample_params (repeat sample_moving_cell 6)
      (repeat 0 6) (domain_start 3 2 1) (domain_size 3 2 1) in
  (tot_u, of_int tot_cells).

(** The same grid in exact arithmetic. *)
Definition sample_params_R : t_param R :=
  {| nx := 2; ny := 3; maxIters := 1; reynolds_dim := 1;
     density := 1 / 10; accel := 5 / 1000; omega := 17 / 10 |}%R.

(** The 2 x 3 grid with relaxation parameter 2. *)
Definition sample_omega_two : t_param binary32 :=
  {| nx := 2; ny := 3; maxIters := 1; reynolds_dim := 1;
     density := fdiv (of_int 1) (of_int 10);
     accel := fdiv (of_int 5) (of_int 1000);
     omega := of_int 2 |}.

(** A 1 x 4 grid. *)
Definition sample_four_rows : t_param binary32 :=
  {| nx := 1; ny := 4; maxIters := 1; reynolds_dim := 1;
     density := fdiv (of_int 1) (of_int 10);
     accel := fdiv (of_int 5) (of_int 1000);
     omega := fdiv (of_int 17) (of_int 10) |}.

(** The 2 x 3 grid in exact arithmetic, without acceleration, run for two
    iterations. *)
Definition sample_rest_R : t_param R :=
  {| nx := 2; ny := 3; maxIters := 2; reynolds_dim := 1;
     density := 1 / 10; accel := 0; omega := 17 / 10 |}%R.

(** ** The rest of the program: gather, initialisation, output, driver *)

Definition MASTER : Z := 0.

Section Program.
Context {F : Type} `{FloatOps F}.

Local Open Scope fl_scope.

(** *** [sync_grid] *)

(** The buffer a worker other than the master fills and sends: its owned
    rows, nine floats per cell.  The buffer is freshly allocated; every
    entry is written before the buffer is sent. *)
Definition sync_grid_send (cells : list (t_speed F))
    (domain_start domain_size columns : Z) : list F :=
  let send :=
    repeat (of_int 0) (Z.to_nat (columns * domain_size * NSPEEDS)) in
  for_loop 0 domain_size (fun jj send =>
    for_loop 0 columns (fun ii send =>
      for_loop 0 NSPEEDS (fun kk send =>
        store send (kk + NSPEEDS * (ii + columns * jj))
          (speeds (cell cells (ii + columns * (jj + domain_start))) kk))
        send) send) send.

(** The master copies the block received from one rank into the rows of
    that rank. *)
Definition sync_grid_copy (cells : list (t_speed F)) (recv : list F)
    (rank_start rank_size columns : Z) : list (t_speed F) :=
  for_loop 0 rank_size (fun jj cells =>
    for_loop 0 columns (fun ii cells =>
      for_loop 0 NSPEEDS (fun kk cells =>
        write_speed cells (ii + columns * (jj + rank_start)) kk
          (load (of_int 0) recv (kk + NSPEEDS * (ii + columns * jj))))
        cells) cells) cells.

(** [sync_grid]: the grid afterwards and, for a worker other than the
    master, the message it sends to the master.  [incoming i] is the message
    the master receives from rank [i]. *)
Definition sync_grid (cells : list (t_speed F))
    (rank domain_start domain_size rows columns ranks : Z)
    (incoming : Z -> list F) : list (t_speed F) * option (list F) :=
  if negb (rank =? MASTER)%Z then
    (cells, Some (sync_grid_send cells domain_start domain_size columns))
  else
    (for_loop 0 ranks (fun i cells =>
       if (i =? MASTER)%Z then cells
       else
         let '(rank_start, rank_size) :=
           for_loop 0 rows (domain_step ranks i) (0%Z, 0%Z) in
         sync_grid_copy cells (incoming i) rank_start rank_size columns)
       cells,
     None).

(** *** [initialise]: the grids *)

(** The loop nest that sets the densities, on the array [malloc] returned. *)
Definition initialise_densities (params : t_param F)
    (cells : list (t_speed F)) : list (t_speed F) :=
  let w0 := density params * of_int 4 / of_int 9 in
  let w1 := density params / of_int 9 in
  let w2 := density params / of_int 36 in
  for_loop 0 (ny params) (fun jj cells =>
    for_loop 0 (nx params) (fun ii cells =>
      let idx := (ii + jj * nx params)%Z in
      (* centre *)
      let cells := write_speed cells idx 0 w0 in
      (* axis directions *)
      let cells := write_speed cells idx 1 w1 in
      let cells := write_speed cells idx 2 w1 in
      let cells := write_speed cells idx 3 w1 in
      let cells := write_speed cells idx 4 w1 in
      (* diagonals *)
      let cells := write_speed cells idx 5 w2 in
      let cells := write_speed cells idx 6 w2 in
      let cells := write_speed cells idx 7 w2 in
      let cells := write_speed cells idx 8 w2 in
      cells) cells) cells.

(** *** [calc_reynolds] *)

Definition calc_reynolds (params : t_param F) (cells : list (t_speed F))
    (obstacles : list Z) (height : Z) : F :=
  let viscosity :=
    of_int 1 / of_int 6 * (of_int 2 / omega params - of_int 1) in
  av_velocity params cells obstacles 0 0 height 0 []
  * of_int (reynolds_dim params) / viscosity.

(** *** [write_values] *)

(** One line of [final_state.dat]:
    [ii jj u_x u_y u pressure obstacles[ii * nx + jj]]. *)
Record state_line : Type := {
  sl_ii : Z;
  sl_jj : Z;
  sl_u_x : F;
  sl_u_y : F;
  sl_u : F;
  sl_pressure : F;
  sl_obstacle : Z
}.

(** The index [write_values] reads the last column of a line from. *)
Definition flag_index (params : t_param F) (ii jj : Z) : Z :=
  (ii * nx params + jj)%Z.

Definition write_values_line (params : t_param F) (cells : list (t_speed F))
    (obstacles : list Z) (ii jj : Z) : state_line :=
  let c_sq := of_int 1 / of_int 3 in
  let idx := (ii + jj * nx params)%Z in
  if blocked obstacles idx then
    (* an occupied cell *)
    {| sl_ii := ii; sl_jj := jj;
       sl_u_x := of_int 0; sl_u_y := of_int 0; sl_u := of_int 0;
       sl_pressure := density params * c_sq;
       sl_obstacle := load 0%Z obstacles (flag_index params ii jj) |}
  else
    let local_density := local_density (cell cells idx) in
    let u_x := velocity_x (cell cells idx) local_density in
    let u_y := velocity_y (cell cells idx) local_density in
    {| sl_ii := ii; sl_jj := jj;
       sl_u_x := u_x; sl_u_y := u_y;
       sl_u := fsqrt ((u_x * u_x) + (u_y * u_y));
       sl_pressure := local_density * c_sq;
       sl_obstacle := load 0%Z obstacles (flag_index params ii jj) |}.

(** The lines written to [final_state.dat], in order. *)
Definition write_values_state (params : t_param F) (cells : list (t_speed F))
    (obstacles : list Z) : list state_line :=
  for_loop 0 (ny params) (fun jj lines =>
    for_loop 0 (nx params) (fun ii lines =>
      lines ++ [write_values_line params cells obstacles ii jj]) lines) [].

(** The lines written to [av_vels.dat], in order. *)
Definition write_values_av_vels (params : t_param F) (av_vels : list F)
  : list (Z * F) :=
  for_loop 0 (maxIters params) (fun ii lines =>
    lines ++ [(ii, load (of_int 0) av_vels ii)]) [].

(** *** The time-step loop of [main] *)

(** The state of the loop: the two grids and [av_vels].  [incoming tt] are
    the halo messages that arrive in iteration [tt], [others tt] what the
    other ranks contribute to its reduction. *)
Definition main_loop (params : t_param F) (obstacles : list Z)
    (rank size domain_start domain_size : Z) (sendbuf : list F)
    (incoming : Z -> list (list F)) (others : Z -> list (F * F))
    (st : list (t_speed F) * list (t_speed F)) (av_vels : list F)
  : (list (t_speed F) * list (t_speed F)) * list F :=
  for_loop 0 (maxIters params) (fun tt state =>
    let '(st, av_vels) := state in
    let st := timestep params obstacles rank size domain_start domain_size
                sendbuf (incoming tt) st in
    (st,
     store av_vels tt
       (av_velocity params (fst st) obstacles rank domain_start domain_size 1
          (others tt)))) (st, av_vels).

End Program.

(** *** [initialise]: the obstacle file *)

(** The ways [initialise] ends the program while it reads the obstacle
    file, named after the messages passed to [die]. *)
Inductive obstacle_error : Type :=
  | expected_3_values_per_line
  | x_coord_out_of_range
  | y_coord_out_of_range
  | blocked_value_should_be_1.

(** The array of obstacles set to zero, on the array [malloc] returned. *)
Definition clear_obstacles (nx ny : Z) (obstacles : list Z) : list Z :=
  for_loop 0 ny (fun jj obstacles =>
    for_loop 0 nx (fun ii obstacles =>
      store obstacles (ii + jj * nx) 0) obstacles) obstacles.

(** The loop that reads the blocked cells,
    [while ((retval = fscanf (fp, "%d %d %d\n", &xx, &yy, &blocked)) != EOF)].
    [scans] holds the calls of [fscanf] up to the end of the file, in order:
    [Some (xx, yy, blocked)] for a call that converted three integers
    ([retval == 3]), [None] for a call that converted fewer ([retval != 3]).
    [fscanf] skips white space, newlines included, before each integer, so a
    call takes the next three integers of the file wherever its lines
    break. *)
Fixpoint read_obstacles (nx ny : Z) (scans : list (option (Z * Z * Z)))
    (obstacles : list Z) : obstacle_error + list Z :=
  match scans with
  | [] => inr obstacles
  | None :: _ => inl expected_3_values_per_line
  | Some (xx, yy, is_blocked) :: rest =>
      if (xx <? 0) || (xx >? nx - 1) then inl x_coord_out_of_range
      else if (yy <? 0) || (yy >? ny - 1) then inl y_coord_out_of_range
      else if negb (is_blocked =? 1) then inl blocked_value_should_be_1
      else read_obstacles nx ny rest (store obstacles (xx + yy * nx) is_blocked)
  end.

(** The obstacle map [initialise] builds from the calls of [fscanf] on the
    obstacle file, on the array [malloc] returned. *)
Definition initialise_obstacles (nx ny : Z) (scans : list (option (Z * Z * Z)))
    (obstacles : list Z) : obstacle_error + list Z :=
  read_obstacles nx ny scans (clear_obstacles nx ny obstacles).

(** * Part II: properties *)

(** ** Counted loops *)

Section LoopFacts.
Context {St : Type}.
Implicit Types (body : Z -> St -> St) (s : St).

Lemma for_iter_snoc n i body s :
  for_iter (S n) i body s = body (i + Z.of_nat n) (for_iter n i body s).
Proof.
  revert i s. induction n as [|n IH]; intros i s.
  - simpl. f_equal. lia.
  - change (for_iter (S (S n)) i body s)
      with (for_iter (S n) (i + 1) body (body i s)).
    rewrite IH. simpl. f_equal. lia.
Qed.

Lemma for_loop_empty lo hi body s : hi <= lo -> for_loop lo hi body s = s.
Proof.
  intros Hle. unfold for_loop.
  replace (Z.to_nat (hi - lo)) with O by lia. reflexivity.
Qed.

Lemma for_loop_snoc lo hi body s :
  lo <= hi ->
  for_loop lo (hi + 1) body s = body hi (for_loop lo hi body s).
Proof.
  intros Hle. unfold for_loop.
  replace (Z.to_nat (hi + 1 - lo)) with (S (Z.to_nat (hi - lo))) by lia.
  rewrite for_iter_snoc. f_equal. lia.
Qed.

(** Loop invariant rule: [Inv i s] holds on entry to iteration [i]. *)
Lemma for_loop_inv (Inv : Z -> St -> Prop) lo hi body s :
  lo <= hi ->
  Inv lo s ->
  (forall i t, lo <= i < hi -> Inv i t -> Inv (i + 1) (body i t)) ->
  Inv hi (for_loop lo hi body s).
Proof.
  intros Hle H0 Hstep.
  assert (G : forall n, (Z.of_nat n <= hi - lo) ->
              Inv (lo + Z.of_nat n) (for_loop lo (lo + Z.of_nat n) body s)).
  { induction n as [|n IH]; intros Hn.
    - rewrite for_loop_empty by lia. replace (lo + Z.of_nat 0) with lo by lia.
      exact H0.
    - replace (lo + Z.of_nat (S n)) with (lo + Z.of_nat n + 1) by lia.
      rewrite for_loop_snoc by lia. apply Hstep; [lia|]. apply IH. lia. }
  specialize (G (Z.to_nat (hi - lo))).
  replace (lo + Z.of_nat (Z.to_nat (hi - lo))) with hi in G by lia.
  apply G. lia.
Qed.
End LoopFacts.

(** ** Domain decomposition *)

Section PartitionFacts.
Variable size : Z.
Hypothesis size_pos : 0 < size.

Lemma div_mod_succ n :
  0 <= n ->
  (n mod size = size - 1 /\ (n + 1) / size = n / size + 1
     /\ (n + 1) mod size = 0)
  \/ (n mod size < size - 1 /\ (n + 1) / size = n / size
     /\ (n + 1) mod size = n mod size + 1).
Proof.
  intros Hn.
  pose proof (Z.div_mod n size ltac:(lia)) as Hdm.
  pose proof (Z.mod_pos_bound n size size_pos) as Hb.
  destruct (Z.eq_dec (n mod size) (size - 1)) as [E|E]; [left|right].
  - split; [exact E|].
    assert (Hq : (n + 1) / size = n / size + 1).
    { symmetry. apply (Z.div_unique (n + 1) size (n / size + 1) 0); lia. }
    split; [exact Hq|].
    symmetry. apply (Z.mod_unique (n + 1) size (n / size + 1) 0); lia.
  - split; [lia|].
    assert (Hq : (n + 1) / size = n / size).
    { symmetry.
      apply (Z.div_unique (n + 1) size (n / size) (n mod size + 1)); lia. }
    split; [exact Hq|].
    symmetry.
    apply (Z.mod_unique (n + 1) size (n / size) (n mod size + 1)); lia.
Qed.

Lemma domain_snoc ny rank :
  0 <= ny ->
  domain (ny + 1) size rank = domain_step size rank ny (domain ny size rank).
Proof. intros Hny. unfold domain. apply for_loop_snoc. exact Hny. Qed.

Lemma domain_0 rank : domain 0 size rank = (0, 0).
Proof. reflexivity. Qed.

  (** The loop computes the balanced block decomposition: with
    [q = ny / size] and [m = ny mod size], rank [r] gets [q] rows, one more
    when [r < m], and starts after the rows of the ranks below it. *)
Lemma domain_closed_form ny rank :
  0 <= ny -> 0 <= rank <= size ->
  domain_start ny size rank = rank * (ny / size) + Z.min rank (ny mod size)
  /\ (rank < size ->
    domain_size ny size rank
    = ny / size + (if rank <? ny mod size then 1 else 0)).
Proof.
  intros Hny Hr. revert ny Hny.
  apply (natlike_ind (fun ny =>
    domain_start ny size rank = rank * (ny / size) + Z.min rank (ny mod size)
    /\ (rank < size ->
        domain_size ny size rank
        = ny / size + (if rank <? ny mod size then 1 else 0)))).
  - unfold domain_start, domain_size. rewrite domain_0. cbn [fst snd].
    rewrite Z.div_0_l, Z.mod_0_l by lia. split; [lia|]. intros _.
    destruct (Z.ltb_spec rank 0); lia.
  - intros n Hn [IHs IHz]. unfold domain_start, domain_size in *.
    replace (Z.succ n) with (n + 1) by lia. rewrite domain_snoc by lia.
    destruct (domain n size rank) as [st sz]. cbn [fst snd] in IHs, IHz.
    unfold domain_step. rewrite Z.rem_mod_nonneg by lia. cbn [fst snd].
    pose proof (Z.mod_pos_bound n size size_pos) as Hb.
    destruct (div_mod_succ n Hn) as [(E & Hq & Hm)|(E & Hq & Hm)];
      rewrite Hq, Hm; split.
    + destruct (Z.ltb_spec (n mod size) rank); lia.
    + intros Hlt. specialize (IHz Hlt).
      destruct (Z.eqb_spec (n mod size) rank);
        destruct (Z.ltb_spec rank (n mod size));
        destruct (Z.ltb_spec rank 0); lia.
    + destruct (Z.ltb_spec (n mod size) rank); lia.
    + intros Hlt. specialize (IHz Hlt).
      destruct (Z.eqb_spec (n mod size) rank);
        destruct (Z.ltb_spec rank (n mod size));
        destruct (Z.ltb_spec rank (n mod size + 1)); lia.
Qed.

Lemma domain_start_0 ny : 0 <= ny -> domain_start ny size 0 = 0.
Proof.
  intros Hny. destruct (domain_closed_form ny 0 Hny ltac:(lia)) as [-> _].
  pose proof (Z.mod_pos_bound ny size size_pos). lia.
Qed.

Lemma domain_start_top ny : 0 <= ny -> domain_start ny size size = ny.
Proof.
  intros Hny. destruct (domain_closed_form ny size Hny ltac:(lia)) as [-> _].
  pose proof (Z.mod_pos_bound ny size size_pos).
  pose proof (Z.div_mod ny size ltac:(lia)). lia.
Qed.

Lemma domain_start_succ ny rank :
  0 <= ny -> 0 <= rank < size ->
  domain_start ny size (rank + 1)
  = domain_start ny size rank + domain_size ny size rank.
Proof.
  intros Hny Hr.
  destruct (domain_closed_form ny rank Hny ltac:(lia)) as [-> Hz].
  destruct (domain_closed_form ny (rank + 1) Hny ltac:(lia)) as [-> _].
  rewrite Hz by lia.
  destruct (Z.ltb_spec rank (ny mod size)); lia.
Qed.

Lemma domain_size_nonneg ny rank :
  0 <= ny -> 0 <= rank < size -> 0 <= domain_size ny size rank.
Proof.
  intros Hny Hr.
  destruct (domain_closed_form ny rank Hny ltac:(lia)) as [_ ->]; [|lia].
  pose proof (Z.div_pos ny size Hny size_pos).
  destruct (Z.ltb_spec rank (ny mod size)); lia.
Qed.

Lemma domain_start_mono ny r1 r2 :
  0 <= ny -> 0 <= r1 -> r1 <= r2 <= size ->
  domain_start ny size r1 <= domain_start ny size r2.
Proof.
  intros Hny H1 H2.
  destruct (domain_closed_form ny r1 Hny ltac:(lia)) as [-> _].
  destruct (domain_closed_form ny r2 Hny ltac:(lia)) as [-> _].
  pose proof (Z.div_pos ny size Hny size_pos).
  assert (r1 * (ny / size) <= r2 * (ny / size)) by nia. lia.
Qed.

Lemma domain_start_nonneg ny rank :
  0 <= ny -> 0 <= rank <= size -> 0 <= domain_start ny size rank.
Proof.
  intros Hny Hr. rewrite <- (domain_start_0 ny Hny).
  apply domain_start_mono; lia.
Qed.

Lemma domain_range_in_grid ny rank :
  0 <= ny -> 0 <= rank < size ->
  0 <= domain_start ny size rank
  /\ domain_start ny size rank + domain_size ny size rank <= ny.
Proof.
  intros Hny Hr. split; [apply domain_start_nonneg; lia|].
  rewrite <- domain_start_succ by lia.
  rewrite <- (domain_start_top ny Hny) at 2.
  apply domain_start_mono; lia.
Qed.

(** Every row has an owner. *)
Lemma owner_exists ny r :
  0 <= r < ny -> exists k, 0 <= k < size /\ owns ny size k r.
Proof.
  intros Hr.
  assert (G : forall n, 0 <= n -> n <= size ->
            r < domain_start ny size n ->
            exists k, 0 <= k < n /\ owns ny size k r).
  { apply (natlike_ind (fun n => n <= size -> r < domain_start ny size n ->
             exists k, 0 <= k < n /\ owns ny size k r)).
    - intros _ Hlt. rewrite domain_start_0 in Hlt by lia. lia.
    - intros n Hn IH Hle Hlt.
      destruct (Z_lt_le_dec r (domain_start ny size n)) as [Hl|Hg].
      + destruct (IH ltac:(lia) Hl) as (k & Hk & Ho). exists k. split; [lia|exact Ho].
      + exists n. split; [lia|]. unfold owns.
        rewrite <- domain_start_succ by lia.
        replace (n + 1) with (Z.succ n) by lia. lia. }
  apply (G size); [lia|lia|]. rewrite domain_start_top by lia. lia.
Qed.

(** No row has two owners. *)
Lemma owner_unique ny r k1 k2 :
  0 <= ny -> 0 <= k1 < size -> 0 <= k2 < size ->
  owns ny size k1 r -> owns ny size k2 r -> k1 = k2.
Proof.
  intros Hny H1 H2 O1 O2. unfold owns in *.
  rewrite <- domain_start_succ in O1, O2 by lia.
  destruct (Z.lt_trichotomy k1 k2) as [Hlt|[Heq|Hgt]]; [|exact Heq|].
  - pose proof (domain_start_mono ny (k1 + 1) k2 Hny ltac:(lia) ltac:(lia)). lia.
  - pose proof (domain_start_mono ny (k2 + 1) k1 Hny ltac:(lia) ltac:(lia)). lia.
Qed.

Lemma domain_size_balanced ny r1 r2 :
  0 <= ny -> 0 <= r1 < size -> 0 <= r2 < size ->
  Z.abs (domain_size ny size r1 - domain_size ny size r2) <= 1.
Proof.
  intros Hny H1 H2.
  destruct (domain_closed_form ny r1 Hny ltac:(lia)) as [_ ->]; [|lia].
  destruct (domain_closed_form ny r2 Hny ltac:(lia)) as [_ ->]; [|lia].
  destruct (Z.ltb_spec r1 (ny mod size));
    destruct (Z.ltb_spec r2 (ny mod size)); lia.
Qed.
End PartitionFacts.

Lemma seqZ_snoc n : 0 <= n -> seqZ 0 (n + 1) = seqZ 0 n ++ [n].
Proof.
  intros Hn. rewrite seqZ_app by lia. f_equal.
Qed.

Lemma domain_counts ny size rank :
  domain ny size rank
  = (Z.of_nat (length (filter (fun r => Z.rem r size < rank) (seqZ 0 ny))),
     Z.of_nat (length (filter (fun r => Z.rem r size = rank) (seqZ 0 ny)))).
Proof.
  destruct (Z_lt_le_dec ny 0) as [Hneg|Hny].
  - unfold domain. rewrite for_loop_empty by lia.
    unfold seqZ. replace (Z.to_nat ny) with O by lia. reflexivity.
  - revert ny Hny. apply natlike_ind.
    + reflexivity.
    + intros n Hn IH. replace (Z.succ n) with (n + 1) by lia.
      unfold domain in *. rewrite for_loop_snoc by lia. rewrite IH.
      rewrite seqZ_snoc by lia. rewrite !filter_app, !length_app.
      unfold domain_step. rewrite !filter_cons, !filter_nil.
      destruct (Z.ltb_spec (Z.rem n size) rank);
        destruct (Z.eqb_spec (Z.rem n size) rank);
        repeat case_decide; try lia; cbn [length]; f_equal; lia.
Qed.

(** C2, as the code has it: the range of rows a worker iterates over has
    as many rows as the round-robin set [{ r in [0, ny) | r mod workerCount
    == rank }], and starts at the number of rows of [[0, ny)] whose remainder
    is below the rank; the range and the round-robin set are the same set of
    rows when there is a single worker. *)
Theorem domain_counts_round_robin ny size rank :
  domain_size ny size rank
  = Z.of_nat (length (filter (fun r => Z.rem r size = rank) (seqZ 0 ny)))
  /\ domain_start ny size rank
     = Z.of_nat (length (filter (fun r => Z.rem r size < rank) (seqZ 0 ny)))
  /\ (forall r, owns ny 1 0 r <-> round_robin ny 1 0 r).
Proof.
  unfold domain_size, domain_start. rewrite domain_counts. cbn [fst snd].
  split; [reflexivity|]. split; [reflexivity|].
  intros r. unfold owns, round_robin.
  destruct (Z_lt_le_dec ny 0) as [Hneg|Hny].
  - unfold domain_start, domain_size, domain.
    rewrite for_loop_empty by lia. cbn [fst snd]. lia.
  - pose proof (domain_start_0 1 ltac:(lia) ny Hny) as H0.
    pose proof (domain_start_succ 1 ltac:(lia) ny 0 Hny ltac:(lia)) as H1.
    change (0 + 1) with 1 in H1.
    rewrite (domain_start_top 1 ltac:(lia) ny Hny) in H1.
    rewrite Z.rem_1_r. lia.
Qed.

(** C2, as stated, fails: with 4 rows and 2 workers, rank 0 iterates over
    rows 0 and 1, while the round-robin set of rank 0 is rows 0 and 2. *)
Lemma round_robin_counterexample :
  ~ (forall r, owns 4 2 0 r <-> round_robin 4 2 0 r).
Proof.
  intros Hall. destruct (Hall 2) as [_ Hback].
  assert (Ho : owns 4 2 0 2) by (apply Hback; split; [lia|reflexivity]).
  assert (E : domain 4 2 0 = (0, 2)) by reflexivity.
  unfold owns, domain_start, domain_size in Ho. rewrite E in Ho.
  cbn [fst snd] in Ho. lia.
Qed.

(** C3: for at least one row and at least one worker, the ranges of the
    ranks [0 .. workerCount-1] lie inside [[0, ny)], every row of [[0, ny)]
    is in the range of exactly one rank, and the sizes of any two ranks
    differ by at most one. *)
Theorem partition_complete ny size :
  1 <= ny -> 1 <= size ->
  (forall k r, 0 <= k < size -> owns ny size k r -> 0 <= r < ny)
  /\ (forall r, 0 <= r < ny ->
        exists k, (0 <= k < size /\ owns ny size k r)
                  /\ forall k', 0 <= k' < size -> owns ny size k' r -> k' = k)
  /\ (forall k1 k2, 0 <= k1 < size -> 0 <= k2 < size ->
        Z.abs (domain_size ny size k1 - domain_size ny size k2) <= 1).
Proof.
  intros Hny Hsize.
  assert (Hpos : 0 < size) by lia. assert (Hny0 : 0 <= ny) by lia.
  split; [|split].
  - intros k r Hk Ho. unfold owns in Ho.
    pose proof (domain_range_in_grid size Hpos ny k Hny0 Hk). lia.
  - intros r Hr. destruct (owner_exists size Hpos ny r Hr) as (k & Hk & Ho).
    exists k. split; [split; assumption|].
    intros k' Hk' Ho'. apply (owner_unique size Hpos ny r k' k); assumption.
  - intros k1 k2 H1 H2. apply domain_size_balanced; assumption.
Qed.

(** The partition of 5 rows among 3 workers. *)
Lemma partition_complete_witness :
  (1 <= 5 /\ 1 <= 3)
  /\ ((forall k r, 0 <= k < 3 -> owns 5 3 k r -> 0 <= r < 5)
      /\ (forall r, 0 <= r < 5 ->
            exists k, (0 <= k < 3 /\ owns 5 3 k r)
                      /\ forall k', 0 <= k' < 3 -> owns 5 3 k' r -> k' = k)
      /\ (forall k1 k2, 0 <= k1 < 3 -> 0 <= k2 < 3 ->
            Z.abs (domain_size 5 3 k1 - domain_size 5 3 k2) <= 1)).
Proof. split; [lia|]. apply (partition_complete 5 3); lia. Defined.

(** The last rank owns row [ny - 2] when there are two rows per worker. *)
Lemma last_rank_owns_forced_row ny size :
  1 <= size -> 2 * size <= ny -> owns ny size (size - 1) (ny - 2).
Proof.
  intros Hsize Hny. unfold owns.
  assert (Hpos : 0 < size) by lia. assert (Hny0 : 0 <= ny) by lia.
  pose proof (domain_start_succ size Hpos ny (size - 1) Hny0 ltac:(lia)) as Hs.
  replace (size - 1 + 1) with size in Hs by lia.
  rewrite (domain_start_top size Hpos ny Hny0) in Hs.
  destruct (domain_closed_form size Hpos ny (size - 1) Hny0 ltac:(lia))
    as [_ Hz].
  specialize (Hz ltac:(lia)).
  pose proof (Z.mod_pos_bound ny size Hpos).
  assert (2 <= ny / size) by (apply Z.div_le_lower_bound; lia).
  destruct (Z.ltb_spec (size - 1) (ny mod size)); lia.
Qed.

(** X2: the rank that runs [accelerate_flow], [size - 1], owns the forced
    row [ny - 2] as soon as there are at least two rows per worker. *)
Lemma accelerating_rank_owns_forced_row ny size :
  1 <= size -> 2 * size <= ny ->
  owns ny size (accelerating_rank size) (ny - 2).
Proof. apply last_rank_owns_forced_row. Qed.

(** C4 fails on the code: with 4 rows and 4 workers every rank owns one
    row, and the rank that runs [accelerate_flow] (rank 3) owns row 3, not
    the forced row 2, which belongs to rank 2; the halo exchange that
    follows then receives into rows 0 and 2 of rank 3, so the forcing
    it applied to its copy of row 2 is overwritten. *)
Theorem accelerating_rank_misses_forced_row :
  domain 4 4 (accelerating_rank 4) = (3, 1)
  /\ ~ owns 4 4 (accelerating_rank 4) (4 - 2)
  /\ owns 4 4 2 (4 - 2)
  /\ map sr_receiveRow (halo_exchange 4 3 1 (accelerating_rank 4) 4) = [0; 2].
Proof.
  assert (E3 : domain 4 4 (accelerating_rank 4) = (3, 1)) by reflexivity.
  assert (E2 : domain 4 4 2 = (2, 1)) by reflexivity.
  unfold owns, domain_start, domain_size. rewrite E3, E2. cbn [fst snd].
  split; [reflexivity|]. split; [lia|]. split; [lia|reflexivity].
Qed.

(** ** Halo exchange *)

(** C1, as the code has it: with more than one worker, the first exchange
    (tag 0) sends the first owned row to the predecessor and receives from
    the successor into the row that follows the owned range,
    [(start + size) mod ny]; the second exchange (tag 1) sends the last owned
    row to the successor and receives from the predecessor into the row that
    precedes the owned range, [(start - 1 + ny) mod ny]. *)
Theorem halo_exchange_rows ny size rank :
  1 <= ny -> 1 < size -> 0 <= rank < size ->
  let start := domain_start ny size rank in
  let len := domain_size ny size rank in
  halo_exchange ny start len rank size
  = [ {| sr_to := (rank - 1) mod size;
         sr_from := (rank + 1) mod size;
         sr_sendRow := start;
         sr_receiveRow := (start + len) mod ny;
         sr_id := 0 |};
      {| sr_to := (rank + 1) mod size;
         sr_from := (rank - 1) mod size;
         sr_sendRow := start + len - 1;
         sr_receiveRow := (start - 1 + ny) mod ny;
         sr_id := 1 |} ].
Proof.
  intros Hny Hsize Hrank start len.
  assert (Hpos : 0 < size) by lia. assert (Hny0 : 0 <= ny) by lia.
  pose proof (domain_range_in_grid size Hpos ny rank Hny0 Hrank) as [Hs Hl].
  pose proof (domain_size_nonneg size Hpos ny rank Hny0 Hrank) as Hz.
  fold start in Hs, Hl. fold len in Hl, Hz.
  unfold halo_exchange.
  destruct (Z.eqb_spec size 1) as [E|_]; [lia|]. cbn [negb].
  rewrite !Z.rem_mod_nonneg by lia.
  replace (size + rank - 1) with (rank - 1 + 1 * size) by lia.
  replace (size + rank + 1) with (rank + 1 + 1 * size) by lia.
  replace (rank + size - 1) with (rank - 1 + 1 * size) by lia.
  rewrite !Z.mod_add by lia.
  replace (start + ny - 1) with (start - 1 + ny) by lia.
  reflexivity.
Qed.

(** The two exchanges of rank 0 of 2 workers on 4 rows. *)
Lemma halo_exchange_rows_witness :
  (1 <= 4 /\ 1 < 2 /\ 0 <= 0 < 2)
  /\ halo_exchange 4 (domain_start 4 2 0) (domain_size 4 2 0) 0 2
     = [ {| sr_to := (0 - 1) mod 2;
            sr_from := (0 + 1) mod 2;
            sr_sendRow := domain_start 4 2 0;
            sr_receiveRow := (domain_start 4 2 0 + domain_size 4 2 0) mod 4;
            sr_id := 0 |};
         {| sr_to := (0 + 1) mod 2;
            sr_from := (0 - 1) mod 2;
            sr_sendRow := domain_start 4 2 0 + domain_size 4 2 0 - 1;
            sr_receiveRow := (domain_start 4 2 0 - 1 + 4) mod 4;
            sr_id := 1 |} ].
Proof. split; [lia|]. apply (halo_exchange_rows 4 2 0); lia. Defined.

Lemma neighbour_rows_match ny size rank :
  1 < size -> size <= ny -> 0 <= rank < size ->
  let start := domain_start ny size in
  let len := domain_size ny size in
  (start rank + len rank) mod ny = start ((rank + 1) mod size)
  /\ (start rank - 1 + ny) mod ny
     = start ((rank - 1) mod size) + len ((rank - 1) mod size) - 1.
Proof.
  intros Hsize Hny Hrank. cbv zeta.
  assert (Hpos : 0 < size) by lia. assert (Hny0 : 0 <= ny) by lia.
  assert (Hrows : forall r, 0 <= r < size -> 1 <= domain_size ny size r).
  { intros r Hr.
    destruct (domain_closed_form size Hpos ny r Hny0 ltac:(lia)) as [_ ->];
      [|lia].
    assert (1 <= ny / size) by (apply Z.div_le_lower_bound; lia).
    destruct (Z.ltb_spec r (ny mod size)); lia. }
  pose proof (domain_start_0 size Hpos ny Hny0) as H0.
  pose proof (domain_start_top size Hpos ny Hny0) as Htop.
  split.
  - rewrite <- domain_start_succ by lia.
    destruct (Z.eq_dec rank (size - 1)) as [->|Hne].
    + replace (size - 1 + 1) with size by lia.
      rewrite Htop, Z.mod_same, Z.mod_same by lia. symmetry. exact H0.
    + rewrite (Z.mod_small (rank + 1) size) by lia.
      apply Z.mod_small.
      pose proof (domain_range_in_grid size Hpos ny (rank + 1) Hny0
                    ltac:(lia)).
      pose proof (Hrows (rank + 1) ltac:(lia)). lia.
  - destruct (Z.eq_dec rank 0) as [->|Hne].
    + rewrite H0.
      replace ((0 - 1) mod size) with (size - 1)
        by (apply (Z.mod_unique (0 - 1) size (-1) (size - 1)); lia).
      rewrite <- domain_start_succ by lia.
      replace (size - 1 + 1) with size by lia. rewrite Htop.
      replace (0 - 1 + ny) with (ny - 1) by lia.
      rewrite Z.mod_small by lia. reflexivity.
    + rewrite (Z.mod_small (rank - 1) size) by lia.
      rewrite <- domain_start_succ by lia.
      replace (rank - 1 + 1) with rank by lia.
      replace (domain_start ny size rank - 1 + ny)
        with (domain_start ny size rank - 1 + 1 * ny) by lia.
      rewrite Z.mod_add by lia. apply Z.mod_small.
      pose proof (domain_range_in_grid size Hpos ny rank Hny0 ltac:(lia)).
      pose proof (Hrows rank ltac:(lia)).
      pose proof (domain_start_succ size Hpos ny (rank - 1) Hny0 ltac:(lia))
        as Hs.
      replace (rank - 1 + 1) with rank in Hs by lia.
      pose proof (Hrows (rank - 1) ltac:(lia)).
      pose proof (domain_start_nonneg size Hpos ny (rank - 1) Hny0 ltac:(lia)).
      lia.
Qed.

(** X3: the rows of neighbouring workers fit together: when every worker
    has a row, the row a worker receives into in the first exchange is the
    row its successor sends (the successor's first row), and the row it
    receives into in the second exchange is the row its predecessor sends
    (the predecessor's last row). *)
Lemma halo_exchange_rows_match ny size rank :
  1 < size -> size <= ny -> 0 <= rank < size ->
  let start := domain_start ny size in
  let len := domain_size ny size in
  (start rank + len rank) mod ny = start ((rank + 1) mod size)
  /\ (start rank - 1 + ny) mod ny
     = start ((rank - 1) mod size) + len ((rank - 1) mod size) - 1.
Proof. apply neighbour_rows_match. Qed.

(** C1, as stated, fails: with 4 rows and 2 workers, rank 0 owns rows 0 and
    1; its first exchange receives into row 2 (the claim says row 3) and its
    second into row 3 (the claim says row 2). *)
Lemma halo_receive_rows_counterexample :
  let start := domain_start 4 2 0 in
  let len := domain_size 4 2 0 in
  map sr_receiveRow (halo_exchange 4 start len 0 2) = [2; 3]
  /\ map sr_receiveRow (halo_exchange 4 start len 0 2)
     <> [(start - 1 + 4) mod 4; (start + len) mod 4].
Proof.
  cbv zeta. split; [reflexivity|]. vm_compute. discriminate.
Qed.

(** ** Heap arrays and cells *)

Section ArrayFacts.
Context {A : Type}.
Implicit Types (a : list A) (d v : A) (i j : Z).

Lemma length_store a i v : length (store a i v) = length a.
Proof.
  unfold store. destruct (i <? 0); [reflexivity|]. apply length_insert.
Qed.

Lemma load_store_same d a i v :
  0 <= i < Z.of_nat (length a) -> load d (store a i v) i = v.
Proof.
  intros Hi. unfold load, store.
  destruct (Z.ltb_spec i 0); [lia|].
  rewrite list_lookup_insert_eq by lia. reflexivity.
Qed.

Lemma load_store_other d a i j v :
  i <> j -> load d (store a i v) j = load d a j.
Proof.
  intros Hij. unfold load, store.
  destruct (Z.ltb_spec j 0); [reflexivity|].
  destruct (Z.ltb_spec i 0); [reflexivity|].
  rewrite list_lookup_insert_ne by lia. reflexivity.
Qed.

Lemma store_store a i v w : store (store a i v) i w = store a i w.
Proof.
  unfold store. destruct (i <? 0); [reflexivity|].
  apply list_insert_insert_eq.
Qed.

Lemma store_load d a i :
  0 <= i < Z.of_nat (length a) -> store a i (load d a i) = a.
Proof.
  intros Hi. unfold load, store.
  destruct (Z.ltb_spec i 0); [lia|].
  destruct (lookup_lt_is_Some_2 a (Z.to_nat i) ltac:(lia)) as [x Hx].
  rewrite Hx. cbn [default]. apply list_insert_id. exact Hx.
Qed.
End ArrayFacts.

Section CellFacts.
Context {F : Type} `{FloatOps F}.
Implicit Types (c : t_speed F) (cells : list (t_speed F)) (k idx : Z).

Lemma index_cases k :
  k = 0 \/ k = 1 \/ k = 2 \/ k = 3 \/ k = 4 \/ k = 5 \/ k = 6 \/ k = 7
  \/ k = 8 \/ (k < 0 \/ 8 < k).
Proof. lia. Qed.

Lemma set_speeds_out c k v : k < 0 \/ 8 < k -> set_speeds c k v = c.
Proof.
  intros Hk. destruct c. destruct k as [|p|p]; [lia| |reflexivity].
  do 4 (try destruct p as [p|p|]); first [reflexivity | lia].
Qed.

Lemma speeds_out c k : k < 0 \/ 8 < k -> speeds c k = of_int 0.
Proof.
  intros Hk. destruct k as [|p|p]; [lia| |reflexivity].
  do 4 (try destruct p as [p|p|]); first [reflexivity | lia].
Qed.

Lemma speeds_set_same c k v : 0 <= k < 9 -> speeds (set_speeds c k v) k = v.
Proof.
  intros Hk. destruct c.
  destruct (index_cases k) as [E|[E|[E|[E|[E|[E|[E|[E|[E|E]]]]]]]]];
    try lia; subst k; reflexivity.
Qed.

Lemma speeds_set_other c k j v :
  k <> j -> speeds (set_speeds c k v) j = speeds c j.
Proof.
  intros Hkj.
  destruct (index_cases k) as [E|[E|[E|[E|[E|[E|[E|[E|[E|E]]]]]]]]];
    [..|rewrite set_speeds_out by exact E; reflexivity];
    subst k; destruct c;
    (destruct (index_cases j) as [E|[E|[E|[E|[E|[E|[E|[E|[E|E]]]]]]]]];
     [..|rewrite !speeds_out by exact E; reflexivity];
     subst j; first [reflexivity | lia]).
Qed.

(** A cell is determined by its nine speeds. *)
Lemma t_speed_ext c1 c2 :
  (forall k, 0 <= k < 9 -> speeds c1 k = speeds c2 k) -> c1 = c2.
Proof.
  intros E. destruct c1, c2.
  pose proof (E 0 ltac:(lia)). pose proof (E 1 ltac:(lia)).
  pose proof (E 2 ltac:(lia)). pose proof (E 3 ltac:(lia)).
  pose proof (E 4 ltac:(lia)). pose proof (E 5 ltac:(lia)).
  pose proof (E 6 ltac:(lia)). pose proof (E 7 ltac:(lia)).
  pose proof (E 8 ltac:(lia)). cbn in *. congruence.
Qed.

Lemma length_write_speed cells idx k v :
  length (write_speed cells idx k v) = length cells.
Proof. apply length_store. Qed.

Lemma cell_store_same cells idx c :
  0 <= idx < Z.of_nat (length cells) -> cell (store cells idx c) idx = c.
Proof. apply load_store_same. Qed.

Lemma cell_store_other cells idx j c :
  idx <> j -> cell (store cells idx c) j = cell cells j.
Proof. apply load_store_other. Qed.

Lemma write_speed_store cells idx c k v :
  0 <= idx < Z.of_nat (length cells) ->
  write_speed (store cells idx c) idx k v = store cells idx (set_speeds c k v).
Proof.
  intros Hi. unfold write_speed.
  rewrite cell_store_same by exact Hi. apply store_store.
Qed.

Lemma write_speed_first cells idx k v :
  write_speed cells idx k v
  = store cells idx (set_speeds (cell cells idx) k v).
Proof. reflexivity. Qed.

End CellFacts.


(** ** The kernels, one call at a time *)

Section KernelFacts.
Context {F : Type} `{FloatOps F}.
Implicit Types (params : t_param F) (cells tmp_cells : list (t_speed F)).
Implicit Types (obstacles : list Z) (c t : t_speed F).

Local Open Scope fl_scope.

Lemma for_loop_9 {St : Type} (body : Z -> St -> St) (s : St) :
  for_loop 0 NSPEEDS body s
  = body 8%Z (body 7%Z (body 6%Z (body 5%Z (body 4%Z (body 3%Z (body 2%Z
    (body 1%Z (body 0%Z s)))))))).
Proof. reflexivity. Qed.

Lemma d_equ_equilibrium c k :
  (0 <= k < 9)%Z -> d_equ c k = equilibrium c k.
Proof.
  intros Hk.
  destruct (index_cases k) as [E|[E|[E|[E|[E|[E|[E|[E|[E|E]]]]]]]]];
    try lia; subst k; reflexivity.
Qed.

(** The reference equilibrium in terms of the helpers of the code. *)
Lemma equilibrium_code c k :
  (0 <= k < 9)%Z ->
  equilibrium c k
  = (let c_sq := of_int 1 / of_int 3 in
     let rho := local_density c in
     let u_x := velocity_x c rho in
     let u_y := velocity_y c rho in
     let u_sq := u_x * u_x + u_y * u_y in
     let u_k := directional u_x u_y k in
     if (k =? 0)%Z then
       lattice_weight k * rho * (of_int 1 - u_sq / (of_int 2 * c_sq))
     else
       lattice_weight k * rho *
       (of_int 1 + u_k / c_sq + (u_k * u_k) / (of_int 2 * c_sq * c_sq)
        - u_sq / (of_int 2 * c_sq))).
Proof.
  intros Hk.
  destruct (index_cases k) as [E|[E|[E|[E|[E|[E|[E|[E|[E|E]]]]]]]]];
    try lia; subst k; reflexivity.
Qed.

Lemma propagate_store params cells tmp_cells ii jj :
  (0 <= ii + jj * nx params < Z.of_nat (length tmp_cells))%Z ->
  propagate ii jj params cells tmp_cells
  = store tmp_cells (ii + jj * nx params) (streamed params cells ii jj).
Proof.
  intros Hin. unfold propagate. cbv zeta.
  rewrite (write_speed_first tmp_cells).
  rewrite !write_speed_store by exact Hin.
  f_equal. destruct (cell tmp_cells (ii + jj * nx params)). reflexivity.
Qed.

Lemma rebound_store params cells tmp_cells obstacles ii jj :
  (0 <= ii + jj * nx params < Z.of_nat (length cells))%Z ->
  rebound ii jj params cells tmp_cells obstacles
  = if blocked obstacles (ii + jj * nx params)
  then store cells (ii + jj * nx params)
           (bounced (cell cells (ii + jj * nx params))
                    (cell tmp_cells (ii + jj * nx params)))
  else cells.
Proof.
  intros Hin. unfold rebound. cbv zeta.
  replace (jj * nx params + ii)%Z with (ii + jj * nx params)%Z by lia.
  destruct (blocked obstacles (ii + jj * nx params)); [|reflexivity].
  rewrite (write_speed_first cells).
  rewrite !write_speed_store by exact Hin.
  f_equal. destruct (cell cells (ii + jj * nx params)).
  destruct (cell tmp_cells (ii + jj * nx params)). reflexivity.
Qed.

Lemma collision_store params cells tmp_cells obstacles ii jj :
  (0 <= ii + jj * nx params < Z.of_nat (length cells))%Z ->
  collision ii jj params cells tmp_cells obstacles
  = if blocked obstacles (ii + jj * nx params) then cells
  else store cells (ii + jj * nx params)
           (relaxed (omega params) (cell tmp_cells (ii + jj * nx params))).
Proof.
  intros Hin. unfold collision. cbv zeta.
  destruct (blocked obstacles (ii + jj * nx params)); [reflexivity|].
  cbn [negb]. rewrite for_loop_9.
  rewrite (write_speed_first cells).
  rewrite !write_speed_store by exact Hin.
  f_equal. rewrite !d_equ_equilibrium by lia.
  destruct (cell cells (ii + jj * nx params)).
  destruct (cell tmp_cells (ii + jj * nx params)). reflexivity.
Qed.

End KernelFacts.


(** ** Loops that visit every cell once *)

Section CellLoops.
Context {St : Type}.

(** A loop whose iteration [i] settles item [i]: [U i] holds of an item not
    yet visited, [P i] of a visited one, [Q] throughout. *)
Lemma for_loop_cells (U P : Z -> St -> Prop) (Q : St -> Prop)
  lo hi (body : Z -> St -> St) (s : St) :
  lo <= hi ->
  Q s ->
  (forall i, lo <= i < hi -> U i s) ->
  (forall i t, lo <= i < hi -> Q t -> U i t ->
     Q (body i t) /\ P i (body i t)) ->
  (forall i j t, lo <= i < hi -> lo <= j < hi -> i <> j -> Q t ->
     (U j t -> U j (body i t)) /\ (P j t -> P j (body i t))) ->
  Q (for_loop lo hi body s)
  /\ forall i, lo <= i < hi -> P i (for_loop lo hi body s).
Proof.
  intros Hle HQ HU Hstep Hstable.
  pose (Inv := fun i t =>
    Q t /\ (forall j, lo <= j < i -> P j t)
    /\ (forall j, i <= j < hi -> U j t)).
  assert (G : Inv hi (for_loop lo hi body s)).
  { apply for_loop_inv; [exact Hle| |].
    - split; [exact HQ|]. split; [intros j Hj; lia|].
      intros j Hj. apply HU. lia.
    - intros i t Hi (Hq & Hp & Hu).
      destruct (Hstep i t Hi Hq (Hu i ltac:(lia))) as [Hq' Hp'].
      split; [exact Hq'|]. split.
      + intros j Hj. destruct (Z.eq_dec j i) as [->|Hne]; [exact Hp'|].
        apply (Hstable i j t); [lia|lia|lia|exact Hq|]. apply Hp. lia.
      + intros j Hj. apply (Hstable i j t); [lia|lia|lia|exact Hq|].
        apply Hu. lia. }
  destruct G as (Hq & Hp & _). split; [exact Hq|exact Hp].
Qed.

(** The same for the loop nest over rows [jj] and columns [ii]. *)
Lemma rows_loop_cells (U P : Z -> Z -> St -> Prop) (Q : St -> Prop)
  lo hi nx (body : Z -> Z -> St -> St) (s : St) :
  lo <= hi -> 0 <= nx ->
  Q s ->
  (forall ii jj, lo <= jj < hi -> 0 <= ii < nx -> U ii jj s) ->
  (forall ii jj t, lo <= jj < hi -> 0 <= ii < nx -> Q t -> U ii jj t ->
     Q (body ii jj t) /\ P ii jj (body ii jj t)) ->
  (forall ii jj ii' jj' t,
     lo <= jj < hi -> 0 <= ii < nx -> lo <= jj' < hi -> 0 <= ii' < nx ->
     ii <> ii' \/ jj <> jj' -> Q t ->
     (U ii' jj' t -> U ii' jj' (body ii jj t))
     /\ (P ii' jj' t -> P ii' jj' (body ii jj t))) ->
  let s' := for_loop lo hi (fun jj t =>
              for_loop 0 nx (fun ii t => body ii jj t) t) s in
  Q s' /\ forall ii jj, lo <= jj < hi -> 0 <= ii < nx -> P ii jj s'.
Proof.
  intros Hle Hnx HQ HU Hstep Hstable s'.
  pose (before := fun ii' jj' ii jj => jj' < jj \/ (jj' = jj /\ ii' < ii)).
  pose (Inv := fun jj ii t =>
    Q t
    /\ (forall ii' jj', lo <= jj' < hi -> 0 <= ii' < nx ->
          before ii' jj' ii jj -> P ii' jj' t)
    /\ (forall ii' jj', lo <= jj' < hi -> 0 <= ii' < nx ->
          ~ before ii' jj' ii jj -> U ii' jj' t)).
  assert (G : Inv hi 0 s').
  { apply (for_loop_inv (fun jj t => Inv jj 0 t)); [exact Hle| |].
    - split; [exact HQ|]. split.
      + intros ii' jj' Hjj' Hii' Hb. unfold before in Hb. lia.
      + intros ii' jj' Hjj' Hii' _. apply HU; assumption.
    - intros jj t Hjj Hinv.
      assert (Hrow : Inv jj nx
                (for_loop 0 nx (fun ii t0 => body ii jj t0) t)).
      { apply (for_loop_inv (fun ii t0 => Inv jj ii t0));
          [exact Hnx|exact Hinv|].
        intros ii t0 Hii (Hq & Hp & Hu).
        assert (Hself : ~ before ii jj ii jj) by (unfold before; lia).
        destruct (Hstep ii jj t0 Hjj Hii Hq (Hu ii jj Hjj Hii Hself))
          as [Hq' Hp'].
        split; [exact Hq'|]. split.
        - intros ii' jj' Hjj' Hii' Hb.
          destruct (Z.eq_dec ii' ii) as [Ei|Ei];
            destruct (Z.eq_dec jj' jj) as [Ej|Ej];
            try (subst ii' jj'; exact Hp').
          all: apply (Hstable ii jj ii' jj' t0); try assumption; try lia.
          all: apply Hp; try assumption; unfold before in *; lia.
        - intros ii' jj' Hjj' Hii' Hb.
          assert (Hne : ii <> ii' \/ jj <> jj') by (unfold before in Hb; lia).
          apply (Hstable ii jj ii' jj' t0); try assumption.
          apply Hu; try assumption. unfold before in *. lia. }
      destruct Hrow as (Hq & Hp & Hu). split; [exact Hq|]. split.
      + intros ii' jj' Hjj' Hii' Hb. apply Hp; try assumption.
        unfold before in *. lia.
      + intros ii' jj' Hjj' Hii' Hb. apply Hu; try assumption.
        unfold before in *. lia. }
  destruct G as (Hq & Hp & _). split; [exact Hq|].
  intros ii jj Hjj Hii. apply Hp; try assumption. unfold before. lia.
Qed.
End CellLoops.

(** ** Row-major indexing *)

Lemma index_inj nx ii jj ii' jj' :
  0 <= ii < nx -> 0 <= ii' < nx -> ii <> ii' \/ jj <> jj' ->
  ii + jj * nx <> ii' + jj' * nx.
Proof.
  intros Hi Hi' Hne E.
  assert (jj = jj') by nia. subst jj'. lia.
Qed.

Lemma index_in_grid nx ny ii jj :
  0 <= ii < nx -> 0 <= jj < ny -> 0 <= ii + jj * nx < ny * nx.
Proof. intros Hi Hj. nia. Qed.

Lemma index_row nx ii jj idx :
  0 <= ii < nx -> idx = ii + jj * nx -> jj * nx <= idx < (jj + 1) * nx.
Proof. intros Hi ->. nia. Qed.

(** ** [accelerate_flow] *)

Section AccelerateFacts.
Context {F : Type} `{FloatOps F}.
Implicit Types (params : t_param F) (cells : list (t_speed F)).
Implicit Types (obstacles : list Z).

Local Open Scope fl_scope.

(** One iteration of the loop rewrites its cell and nothing else. *)
Lemma accelerate_flow_body params obstacles ii cells :
  let idx := (ii + (ny params - 2) * nx params)%Z in
  (0 <= idx < Z.of_nat (length cells))%Z ->
  (if negb (blocked obstacles idx)
      && fgt (speeds (cell cells idx) 3 - forcing_w1 params) (of_int 0)
      && fgt (speeds (cell cells idx) 6 - forcing_w2 params) (of_int 0)
      && fgt (speeds (cell cells idx) 7 - forcing_w2 params) (of_int 0)
   then
     let cells1 := write_speed cells idx 1
                     (speeds (cell cells idx) 1 + forcing_w1 params) in
     let cells2 := write_speed cells1 idx 5
                     (speeds (cell cells1 idx) 5 + forcing_w2 params) in
     let cells3 := write_speed cells2 idx 8
                     (speeds (cell cells2 idx) 8 + forcing_w2 params) in
     let cells4 := write_speed cells3 idx 3
                     (speeds (cell cells3 idx) 3 - forcing_w1 params) in
     let cells5 := write_speed cells4 idx 6
                     (speeds (cell cells4 idx) 6 - forcing_w2 params) in
     let cells6 := write_speed cells5 idx 7
                     (speeds (cell cells5 idx) 7 - forcing_w2 params) in
     cells6
   else cells)
  = store cells idx (accelerated params (blocked obstacles idx) (cell cells idx)).
Proof.
  intros idx Hin. unfold accelerated, stays_positive.
  change (sp3 (cell cells idx)) with (speeds (cell cells idx) 3).
  change (sp6 (cell cells idx)) with (speeds (cell cells idx) 6).
  change (sp7 (cell cells idx)) with (speeds (cell cells idx) 7).
  rewrite !andb_assoc.
  destruct (negb (blocked obstacles idx)
            && fgt (speeds (cell cells idx) 3 - forcing_w1 params) (of_int 0)
            && fgt (speeds (cell cells idx) 6 - forcing_w2 params) (of_int 0)
            && fgt (speeds (cell cells idx) 7 - forcing_w2 params) (of_int 0)).
  - cbv zeta. rewrite (write_speed_first cells).
    repeat first [ rewrite write_speed_store by (exact Hin)
                 | rewrite cell_store_same by (exact Hin) ].
    f_equal. destruct (cell cells idx). reflexivity.
  - symmetry. apply store_load. exact Hin.
Qed.

Lemma accelerate_flow_cells params cells obstacles :
  (2 <= ny params)%Z -> (0 <= nx params)%Z -> grid_size params cells ->
  let row := (ny params - 2)%Z in
  let cells' := accelerate_flow params cells obstacles in
  length cells' = length cells
  /\ (forall idx, ~ (row * nx params <= idx < (row + 1) * nx params)%Z ->
        cell cells' idx = cell cells idx)
  /\ (forall ii, (0 <= ii < nx params)%Z ->
        cell cells' (ii + row * nx params)
        = accelerated params (blocked obstacles (ii + row * nx params))
            (cell cells (ii + row * nx params))).
Proof.
  intros Hny Hnx Hsize. cbv zeta. unfold grid_size in Hsize.
  set (row := (ny params - 2)%Z).
  pose (Q := fun t : list (t_speed F) =>
    length t = length cells
    /\ forall idx, ~ (row * nx params <= idx < (row + 1) * nx params)%Z ->
         cell t idx = cell cells idx).
  pose (U := fun (ii : Z) (t : list (t_speed F)) =>
    cell t (ii + row * nx params) = cell cells (ii + row * nx params)).
  pose (P := fun (ii : Z) (t : list (t_speed F)) =>
    cell t (ii + row * nx params)
    = accelerated params (blocked obstacles (ii + row * nx params))
        (cell cells (ii + row * nx params))).
  assert (Hbody : forall ii (t : list (t_speed F)),
            (0 <= ii < nx params)%Z ->
            length t = length cells ->
            (0 <= ii + row * nx params < Z.of_nat (length t))%Z).
  { intros ii t Hii Hlen. rewrite Hlen, Hsize.
    pose proof (index_in_grid (nx params) (ny params) ii row Hii
                  ltac:(unfold row; lia)). lia. }
  assert (Hstep : forall ii (t : list (t_speed F)),
            (0 <= ii < nx params)%Z -> length t = length cells ->
            (let idx := (ii + row * nx params)%Z in
             if negb (blocked obstacles idx)
                && fgt (speeds (cell t idx) 3
                        - density params * accel params / of_int 9) (of_int 0)
                && fgt (speeds (cell t idx) 6
                        - density params * accel params / of_int 36) (of_int 0)
                && fgt (speeds (cell t idx) 7
                        - density params * accel params / of_int 36) (of_int 0)
             then
               let t := write_speed t idx 1
                 (speeds (cell t idx) 1
                  + density params * accel params / of_int 9) in
               let t := write_speed t idx 5
                 (speeds (cell t idx) 5
                  + density params * accel params / of_int 36) in
               let t := write_speed t idx 8
                 (speeds (cell t idx) 8
                  + density params * accel params / of_int 36) in
               let t := write_speed t idx 3
                 (speeds (cell t idx) 3
                  - density params * accel params / of_int 9) in
               let t := write_speed t idx 6
                 (speeds (cell t idx) 6
                  - density params * accel params / of_int 36) in
               let t := write_speed t idx 7
                 (speeds (cell t idx) 7
                  - density params * accel params / of_int 36) in
               t
             else t)
            = store t (ii + row * nx params)
                (accelerated params (blocked obstacles (ii + row * nx params))
                   (cell t (ii + row * nx params)))).
  { intros ii t Hii Hlen.
    exact (accelerate_flow_body params obstacles ii t (Hbody ii t Hii Hlen)). }
  assert (G : Q (accelerate_flow params cells obstacles)
              /\ forall ii, (0 <= ii < nx params)%Z ->
                   P ii (accelerate_flow params cells obstacles)).
  { unfold accelerate_flow. cbv zeta. fold row.
    apply (for_loop_cells U P Q); [exact Hnx| | | |].
    - split; [reflexivity|]. intros idx _. reflexivity.
    - intros ii Hii. reflexivity.
    - intros ii t Hii [Hlen Hout] Hu.
      pose proof (Hbody ii t Hii Hlen) as Hin.
      pose proof (Hstep ii t Hii Hlen) as E. cbv zeta in E.
      rewrite E. clear E. split; [split|].
      + rewrite length_store. exact Hlen.
      + intros idx Hidx. rewrite cell_store_other; [apply Hout; exact Hidx|].
        pose proof (index_row (nx params) ii row _ Hii eq_refl). lia.
      + unfold P. rewrite cell_store_same by exact Hin.
        unfold U in Hu. rewrite Hu. reflexivity.
    - intros ii ii' t Hii Hii' Hne [Hlen Hout].
      pose proof (Hstep ii t Hii Hlen) as E. cbv zeta in E.
      rewrite E. clear E.
      unfold U, P. rewrite cell_store_other by lia. tauto. }
  destruct G as [[Hlen Hout] Hp]. split; [exact Hlen|]. split; assumption.
Qed.

End AccelerateFacts.


(** ** Forcing, bounce-back and relaxation *)

Section KernelTheorems.
Context {F : Type} `{FloatOps F}.
Implicit Types (params : t_param F) (cells tmp_cells : list (t_speed F)).
Implicit Types (obstacles : list Z).

Local Open Scope fl_scope.

(** C5, as the code has it: [accelerate_flow] applies the forcing to a cell
    of row [ny - 2] exactly when the cell is not an obstacle and each of
    [speeds[3] - w1], [speeds[6] - w2], [speeds[7] - w2] is strictly greater
    than zero, with [w1 = density * accel / 9] and [w2 = density * accel / 36];
    when applied it adds [w1] to direction 1 and [w2] to directions 5 and 8,
    subtracts [w1] from direction 3 and [w2] from directions 6 and 7, and
    keeps directions 0, 2 and 4; otherwise the cell is left as it is. *)
Theorem accelerate_flow_forcing params cells obstacles ii :
  (2 <= ny params)%Z -> grid_size params cells ->
  (0 <= ii < nx params)%Z ->
  let idx := (ii + (ny params - 2) * nx params)%Z in
  let w1 := density params * accel params / of_int 9 in
  let w2 := density params * accel params / of_int 36 in
  let c := cell cells idx in
  let c' := cell (accelerate_flow params cells obstacles) idx in
  let applies :=
  negb (blocked obstacles idx)
  && fgt (speeds c 3 - w1) (of_int 0)
  && fgt (speeds c 6 - w2) (of_int 0)
  && fgt (speeds c 7 - w2) (of_int 0) in
  (applies = true ->
     speeds c' 1 = speeds c 1 + w1
     /\ speeds c' 5 = speeds c 5 + w2
     /\ speeds c' 8 = speeds c 8 + w2
     /\ speeds c' 3 = speeds c 3 - w1
     /\ speeds c' 6 = speeds c 6 - w2
     /\ speeds c' 7 = speeds c 7 - w2
     /\ speeds c' 0 = speeds c 0
     /\ speeds c' 2 = speeds c 2
     /\ speeds c' 4 = speeds c 4)
  /\ (applies = false -> c' = c).
Proof.
  intros Hny Hsize Hii. cbv zeta.
  destruct (accelerate_flow_cells params cells obstacles Hny ltac:(lia) Hsize)
    as (_ & _ & Hrow).
  rewrite (Hrow ii Hii). unfold accelerated, stays_positive.
  fold (forcing_w1 params). fold (forcing_w2 params).
  set (c := cell cells (ii + (ny params - 2) * nx params)).
  change (speeds c 3) with (sp3 c). change (speeds c 6) with (sp6 c).
  change (speeds c 7) with (sp7 c). rewrite <- !andb_assoc.
  split; intros ->.
  - repeat split; reflexivity.
  - reflexivity.
Qed.

(** C7: for a call of [propagate] followed by [rebound] on the same cell of
    a well-formed grid, an obstacle cell ends with the scratch values of the
    opposite directions in its eight paired directions and keeps its rest
    direction; a cell that is not an obstacle leaves the main grid as it
    was; and no other cell of the main grid changes in either case. *)
Theorem rebound_bounce_back params cells tmp_cells obstacles ii jj :
  (0 <= ii < nx params)%Z -> (0 <= jj < ny params)%Z ->
  grid_size params cells -> grid_size params tmp_cells ->
  let here := (ii + jj * nx params)%Z in
  let tmp_cells' := propagate ii jj params cells tmp_cells in
  let cells' := rebound ii jj params cells tmp_cells' obstacles in
  (blocked obstacles here = true ->
     speeds (cell cells' here) 1 = speeds (cell tmp_cells' here) 3
     /\ speeds (cell cells' here) 2 = speeds (cell tmp_cells' here) 4
     /\ speeds (cell cells' here) 3 = speeds (cell tmp_cells' here) 1
     /\ speeds (cell cells' here) 4 = speeds (cell tmp_cells' here) 2
     /\ speeds (cell cells' here) 5 = speeds (cell tmp_cells' here) 7
     /\ speeds (cell cells' here) 6 = speeds (cell tmp_cells' here) 8
     /\ speeds (cell cells' here) 7 = speeds (cell tmp_cells' here) 5
     /\ speeds (cell cells' here) 8 = speeds (cell tmp_cells' here) 6
     /\ speeds (cell cells' here) 0 = speeds (cell cells here) 0)
  /\ (blocked obstacles here = false -> cells' = cells)
  /\ (forall idx, idx <> here -> cell cells' idx = cell cells idx).
Proof.
  intros Hii Hjj Hc Ht. cbv zeta. unfold grid_size in Hc, Ht.
  pose proof (index_in_grid _ _ ii jj Hii Hjj) as Hin.
  rewrite rebound_store by lia.
  destruct (blocked obstacles (ii + jj * nx params)).
  - split; [intros _|split; [discriminate|]].
    + rewrite cell_store_same by lia. repeat split; reflexivity.
    + intros idx Hidx. apply cell_store_other. congruence.
  - split; [discriminate|]. split; reflexivity.
Qed.

(** Relaxation in any arithmetic: what [collision] leaves in the cell it
    is called on, and that it changes no other cell. *)
Lemma collision_relaxes params cells tmp_cells obstacles ii jj :
  (0 <= ii < nx params)%Z -> (0 <= jj < ny params)%Z ->
  grid_size params cells -> grid_size params tmp_cells ->
  let here := (ii + jj * nx params)%Z in
  let t := cell tmp_cells here in
  let cells' := collision ii jj params cells tmp_cells obstacles in
  (blocked obstacles here = false ->
     forall k, (0 <= k < 9)%Z ->
       speeds (cell cells' here) k
       = speeds t k + omega params * (equilibrium t k - speeds t k))
  /\ (blocked obstacles here = true -> cells' = cells)
  /\ (forall idx, idx <> here -> cell cells' idx = cell cells idx).
Proof.
  intros Hii Hjj Hc _. cbv zeta. unfold grid_size in Hc.
  pose proof (index_in_grid _ _ ii jj Hii Hjj) as Hin.
  rewrite collision_store by lia.
  destruct (blocked obstacles (ii + jj * nx params)).
  - split; [discriminate|]. split; reflexivity.
  - split; [intros _|split; [discriminate|]].
    + intros k Hk. rewrite cell_store_same by lia.
      destruct (index_cases k) as [E|[E|[E|[E|[E|[E|[E|[E|[E|E]]]]]]]]];
        try lia; subst k; reflexivity.
    + intros idx Hidx. apply cell_store_other. congruence.
Qed.

(** Frame of [accelerate_flow], in any arithmetic: the cells outside row
    [ny - 2] and the directions 0, 2 and 4 of every cell are unchanged. *)
Lemma accelerate_flow_frame params cells obstacles :
  (2 <= ny params)%Z -> (0 <= nx params)%Z -> grid_size params cells ->
  let cells' := accelerate_flow params cells obstacles in
  (forall ii jj, (0 <= ii < nx params)%Z -> jj <> (ny params - 2)%Z ->
     cell cells' (ii + jj * nx params) = cell cells (ii + jj * nx params))
  /\ (forall idx,
        speeds (cell cells' idx) 0 = speeds (cell cells idx) 0
        /\ speeds (cell cells' idx) 2 = speeds (cell cells idx) 2
        /\ speeds (cell cells' idx) 4 = speeds (cell cells idx) 4).
Proof.
  intros Hny Hnx Hsize. cbv zeta.
  destruct (accelerate_flow_cells params cells obstacles Hny Hnx Hsize)
    as (_ & Hout & Hrow).
  split.
  - intros ii jj Hii Hjj. apply Hout.
    pose proof (index_row (nx params) ii jj _ Hii eq_refl). nia.
  - intros idx.
    destruct (Z_lt_le_dec idx ((ny params - 2) * nx params)) as [Hl|Hl];
      [rewrite Hout by lia; tauto|].
    destruct (Z_lt_le_dec idx ((ny params - 2 + 1) * nx params)) as [Hu|Hu];
      [|rewrite Hout by lia; tauto].
    replace idx with (idx - (ny params - 2) * nx params
                      + (ny params - 2) * nx params)%Z by lia.
    rewrite Hrow by lia. unfold accelerated.
    destruct (negb _ && _); repeat split; reflexivity.
Qed.

End KernelTheorems.

(** Forcing of the first cell of row 1 of the 2 x 3 sample grid in its
    initial state. *)
Lemma accelerate_flow_forcing_witness :
  let params := sample_params in
  let cells := initialise_cells params in
  let obstacles := repeat 0 6 in
  let idx := (0 + (ny params - 2) * nx params) in
  let w1 := (density params * accel params / of_int 9)%fl in
  let w2 := (density params * accel params / of_int 36)%fl in
  let c := cell cells idx in
  let c' := cell (accelerate_flow params cells obstacles) idx in
  let applies :=
    negb (blocked obstacles idx)
    && fgt (speeds c 3 - w1)%fl (of_int 0)
    && fgt (speeds c 6 - w2)%fl (of_int 0)
    && fgt (speeds c 7 - w2)%fl (of_int 0) in
  (2 <= ny params /\ grid_size params cells /\ 0 <= 0 < nx params)
  /\ (applies = true ->
        speeds c' 1 = (speeds c 1 + w1)%fl
        /\ speeds c' 5 = (speeds c 5 + w2)%fl
        /\ speeds c' 8 = (speeds c 8 + w2)%fl
        /\ speeds c' 3 = (speeds c 3 - w1)%fl
        /\ speeds c' 6 = (speeds c 6 - w2)%fl
        /\ speeds c' 7 = (speeds c 7 - w2)%fl
        /\ speeds c' 0 = speeds c 0
        /\ speeds c' 2 = speeds c 2
        /\ speeds c' 4 = speeds c 4)
  /\ (applies = false -> c' = c).
Proof.
  cbv zeta. split.
  - split; [simpl; lia|]. split; [reflexivity|simpl; lia].
  - apply (accelerate_flow_forcing sample_params
             (initialise_cells sample_params) (repeat 0 6) 0).
    + simpl; lia.
    + reflexivity.
    + simpl; lia.
Defined.

(** C5, as stated, fails: with acceleration 1.0 the weights equal the
    initial west-facing components, so subtracting them gives exactly zero.
    No component would be strictly below zero and the cell is not an
    obstacle, yet [accelerate_flow] skips the cell. *)
Lemma accelerate_flow_skips_at_zero :
  let params := sample_unit_accel in
  let cells := initialise_cells params in
  let obstacles := [0; 0] in
  let w1 := forcing_w1 params in
  let w2 := forcing_w2 params in
  blocked obstacles 0 = false
  /\ goes_negative w1 w2 (cell cells 0) = false
  /\ cell (accelerate_flow params cells obstacles) 0 = cell cells 0
  /\ cell (accelerate_flow params cells obstacles) 0
     <> forced w1 w2 (cell cells 0).
Proof.
  cbv zeta. split; [reflexivity|]. split; [reflexivity|].
  split; [reflexivity|]. intros E. vm_compute in E. discriminate E.
Qed.

(** Bounce-back at cell (0, 1) of the 2 x 3 sample grid, an obstacle. *)
Lemma rebound_bounce_back_witness :
  let params := sample_params in
  let cells := initialise_cells params in
  let tmp_cells := initialise_cells params in
  let obstacles := [0; 0; 1; 0; 0; 0] in
  let here := (0 + 1 * nx params) in
  let tmp_cells' := propagate 0 1 params cells tmp_cells in
  let cells' := rebound 0 1 params cells tmp_cells' obstacles in
  (0 <= 0 < nx params /\ 0 <= 1 < ny params
   /\ grid_size params cells /\ grid_size params tmp_cells)
  /\ (blocked obstacles here = true ->
        speeds (cell cells' here) 1 = speeds (cell tmp_cells' here) 3
        /\ speeds (cell cells' here) 2 = speeds (cell tmp_cells' here) 4
        /\ speeds (cell cells' here) 3 = speeds (cell tmp_cells' here) 1
        /\ speeds (cell cells' here) 4 = speeds (cell tmp_cells' here) 2
        /\ speeds (cell cells' here) 5 = speeds (cell tmp_cells' here) 7
        /\ speeds (cell cells' here) 6 = speeds (cell tmp_cells' here) 8
        /\ speeds (cell cells' here) 7 = speeds (cell tmp_cells' here) 5
        /\ speeds (cell cells' here) 8 = speeds (cell tmp_cells' here) 6
        /\ speeds (cell cells' here) 0 = speeds (cell cells here) 0)
  /\ (blocked obstacles here = false -> cells' = cells)
  /\ (forall idx, idx <> here -> cell cells' idx = cell cells idx).
Proof.
  cbv zeta. split.
  - split; [simpl; lia|]. split; [simpl; lia|]. split; reflexivity.
  - apply (rebound_bounce_back sample_params (initialise_cells sample_params)
             (initialise_cells sample_params) [0; 0; 1; 0; 0; 0] 0 1).
    + simpl; lia.
    + simpl; lia.
    + reflexivity.
    + reflexivity.
Defined.

(** ** Exact arithmetic *)

Lemma cell_sum_forced (w1 w2 : R) (c : t_speed R) :
  cell_sum (forced w1 w2 c) = cell_sum c.
Proof. destruct c. unfold cell_sum, forced. simpl. ring. Qed.

Lemma cell_sum_accelerated (params : t_param R) b (c : t_speed R) :
  cell_sum (accelerated params b c) = cell_sum c.
Proof.
  unfold accelerated. destruct (negb b && _); [apply cell_sum_forced|reflexivity].
Qed.

Lemma accelerate_flow_cell_sum (params : t_param R) cells obstacles :
  2 <= ny params -> 0 <= nx params -> grid_size params cells ->
  forall idx,
    cell_sum (cell (accelerate_flow params cells obstacles) idx)
    = cell_sum (cell cells idx).
Proof.
  intros Hny Hnx Hsize idx.
  destruct (accelerate_flow_cells params cells obstacles Hny Hnx Hsize)
    as (_ & Hout & Hrow).
  destruct (Z_lt_le_dec idx ((ny params - 2) * nx params)) as [Hl|Hl];
    [rewrite Hout by lia; reflexivity|].
  destruct (Z_lt_le_dec idx ((ny params - 2 + 1) * nx params)) as [Hu|Hu];
    [|rewrite Hout by lia; reflexivity].
  replace idx with (idx - (ny params - 2) * nx params
                    + (ny params - 2) * nx params) by lia.
  rewrite Hrow by lia. apply cell_sum_accelerated.
Qed.

(** C10, as the code has it: in any arithmetic [accelerate_flow] leaves
    every cell outside row [ny - 2] unchanged and leaves directions 0, 2 and
    4 of every cell unchanged; in exact arithmetic the sum of the nine
    components of every cell is unchanged. *)
Theorem accelerate_flow_frame_density :
  (forall (F : Type) (ops : FloatOps F) (params : t_param F) cells obstacles,
     2 <= ny params -> 0 <= nx params -> grid_size params cells ->
     let cells' := accelerate_flow params cells obstacles in
     (forall ii jj, 0 <= ii < nx params -> jj <> ny params - 2 ->
        cell cells' (ii + jj * nx params) = cell cells (ii + jj * nx params))
     /\ (forall idx,
           speeds (cell cells' idx) 0 = speeds (cell cells idx) 0
           /\ speeds (cell cells' idx) 2 = speeds (cell cells idx) 2
           /\ speeds (cell cells' idx) 4 = speeds (cell cells idx) 4))
  /\ (forall (params : t_param R) cells obstacles,
        2 <= ny params -> 0 <= nx params -> grid_size params cells ->
        forall idx,
          cell_sum (cell (accelerate_flow params cells obstacles) idx)
          = cell_sum (cell cells idx)).
Proof.
  split.
  - intros F ops params cells obstacles. apply accelerate_flow_frame.
  - exact accelerate_flow_cell_sum.
Qed.

(** Frame and density on the 2 x 3 sample grid, in single precision and in
    exact arithmetic. *)
Lemma accelerate_flow_frame_density_witness :
  (2 <= ny sample_params /\ 0 <= nx sample_params
   /\ grid_size sample_params (initialise_cells sample_params)
   /\ 2 <= ny sample_params_R /\ 0 <= nx sample_params_R
   /\ grid_size sample_params_R (initialise_cells sample_params_R))
  /\ (let cells := initialise_cells sample_params in
      let cells' := accelerate_flow sample_params cells (repeat 0 6) in
      (forall ii jj, 0 <= ii < nx sample_params -> jj <> ny sample_params - 2 ->
         cell cells' (ii + jj * nx sample_params)
         = cell cells (ii + jj * nx sample_params))
      /\ (forall idx,
            speeds (cell cells' idx) 0 = speeds (cell cells idx) 0
            /\ speeds (cell cells' idx) 2 = speeds (cell cells idx) 2
            /\ speeds (cell cells' idx) 4 = speeds (cell cells idx) 4))
  /\ (forall idx,
        cell_sum (cell (accelerate_flow sample_params_R
                          (initialise_cells sample_params_R) (repeat 0 6)) idx)
        = cell_sum (cell (initialise_cells sample_params_R) idx)).
Proof.
  split.
  - split; [simpl; lia|]. split; [simpl; lia|]. split; [reflexivity|].
    split; [simpl; lia|]. split; [simpl; lia|reflexivity].
  - split.
    + apply (proj1 accelerate_flow_frame_density binary32 binary32_ops
               sample_params (initialise_cells sample_params) (repeat 0 6)).
      * simpl; lia.
      * simpl; lia.
      * reflexivity.
    + apply (proj2 accelerate_flow_frame_density sample_params_R
               (initialise_cells sample_params_R) (repeat 0 6)).
      * simpl; lia.
      * simpl; lia.
      * reflexivity.
Defined.

(** C10, as stated, fails in single precision: with [w1 = 1] a cell whose
    east component is [2^24] absorbs the addition ([2^24 + 1] rounds to
    [2^24]) while its west component loses [w1], so the cell is modified and
    the sum of its nine components, as [local_density] computes it, drops
    from 16777220 to 16777216. *)
Lemma accelerate_flow_density_counterexample :
  let cells := [sample_large_cell; sample_large_cell] in
  let cells' := accelerate_flow sample_large cells [0; 0] in
  speeds (cell cells' 0) 1 = speeds (cell cells 0) 1
  /\ speeds (cell cells 0) 3 = of_int 2
  /\ speeds (cell cells' 0) 3 = of_int 1
  /\ local_density (cell cells 0) = of_int 16777220
  /\ local_density (cell cells' 0) = of_int 16777216
  /\ local_density (cell cells' 0) <> local_density (cell cells 0).
Proof.
  cbv zeta. repeat (split; [reflexivity|]).
  intros E. vm_compute in E. discriminate E.
Qed.

(** ** [av_velocity] *)

Section LoopsAsFolds.
Context {St : Type}.

Lemma for_iter_fold n i (body : Z -> St -> St) s :
  for_iter n i body s
  = fold_left (fun s i => body i s) (seqZ i (Z.of_nat n)) s.
Proof.
  revert i s. induction n as [|n IH]; intros i s; [reflexivity|].
  rewrite seqZ_cons by lia. cbn [for_iter fold_left]. rewrite IH.
  replace (Z.succ i) with (i + 1) by lia.
  replace (Z.pred (Z.of_nat (S n))) with (Z.of_nat n) by lia. reflexivity.
Qed.

Lemma for_loop_fold lo hi (body : Z -> St -> St) s :
  for_loop lo hi body s
  = fold_left (fun s i => body i s) (seqZ lo (hi - lo)) s.
Proof.
  unfold for_loop. rewrite for_iter_fold.
  destruct (Z_lt_le_dec (hi - lo) 0) as [Hneg|Hpos].
  - replace (Z.to_nat (hi - lo)) with O by lia.
    unfold seqZ. replace (Z.to_nat (hi - lo)) with O by lia. reflexivity.
  - rewrite Z2Nat.id by lia. reflexivity.
Qed.

Lemma fold_left_ext {B : Type} (f g : St -> B -> St) (l : list B) s :
  (forall s x, f s x = g s x) -> fold_left f l s = fold_left g l s.
Proof.
  intros E. revert s. induction l as [|x l IH]; intros s; [reflexivity|].
  cbn [fold_left]. rewrite E. apply IH.
Qed.

Lemma fold_left_bind {A B : Type} (f : St -> B -> St) (g : A -> list B)
  (l : list A) s :
  fold_left f (l ≫= g) s = fold_left (fun s x => fold_left f (g x) s) l s.
Proof.
  revert s. induction l as [|x l IH]; intros s; [reflexivity|].
  rewrite bind_cons, fold_left_app. cbn [fold_left]. apply IH.
Qed.
End LoopsAsFolds.

Section AvVelocityFacts.
Context {F : Type} `{FloatOps F}.
Implicit Types (params : t_param F) (cells : list (t_speed F)).
Implicit Types (obstacles : list Z).

Local Open Scope fl_scope.

Lemma fold_fluid cells obstacles (l : list Z) (acc : Z * F) :
  fold_left (fun acc idx =>
    if negb (blocked obstacles idx)
    then ((fst acc + 1)%Z, snd acc + speed_magnitude (cell cells idx))
    else acc) l acc
  = ((fst acc
    + Z.of_nat (length (filter (fun idx => blocked obstacles idx = false) l)))%Z,
     fold_left (fun u idx => u + speed_magnitude (cell cells idx))
       (filter (fun idx => blocked obstacles idx = false) l) (snd acc)).
Proof.
  revert acc. induction l as [|idx l IH]; intros acc.
  - cbn. destruct acc. cbn. f_equal. lia.
  - cbn [fold_left]. rewrite IH. rewrite filter_cons.
    destruct (blocked obstacles idx) eqn:E; cbn [negb].
    + rewrite decide_False by discriminate. reflexivity.
    + rewrite decide_True by reflexivity. cbn [fst snd length fold_left].
      f_equal. lia.
Qed.

(** The loop nest of [av_velocity] counts the fluid cells of its rows and
    adds up their velocity magnitudes in row-major order. *)
Lemma av_velocity_local_spec params cells obstacles start size :
  av_velocity_local params cells obstacles start size
  = (Z.of_nat (length (fluid_cells obstacles (nx params) start size)),
     fold_left (fun u idx => u + speed_magnitude (cell cells idx))
       (fluid_cells obstacles (nx params) start size) (of_int 0)).
Proof.
  unfold av_velocity_local. rewrite for_loop_fold.
  replace (start + size - start)%Z with size by lia.
  rewrite (fold_left_ext _ (fun acc jj =>
    fold_left (fun acc idx =>
    if negb (blocked obstacles idx)
    then ((fst acc + 1)%Z, snd acc + speed_magnitude (cell cells idx))
    else acc) (seqZ 0 (nx params) ≫= (fun ii => [(ii + jj * nx params)%Z]))
    acc)).
  - rewrite <- (fold_left_bind _ (fun jj =>
      seqZ 0 (nx params) ≫= (fun ii => [(ii + jj * nx params)%Z]))).
    rewrite fold_fluid. cbn [fst snd]. reflexivity.
  - intros acc jj. rewrite for_loop_fold, fold_left_bind.
    replace (nx params - 0)%Z with (nx params) by lia.
    apply fold_left_ext. intros acc' ii. reflexivity.
Qed.

Lemma range_cells_elem nx start size idx :
  idx ∈ range_cells nx start size ->
  exists ii jj, (start <= jj < start + size)%Z /\ (0 <= ii < nx)%Z
                /\ idx = (ii + jj * nx)%Z.
Proof.
  unfold range_cells. intros Hin.
  apply list_elem_of_bind in Hin. destruct Hin as (jj & Hin & Hjj).
  apply list_elem_of_bind in Hin. destruct Hin as (ii & Hin & Hii).
  apply list_elem_of_singleton in Hin.
  apply elem_of_seqZ in Hjj. apply elem_of_seqZ in Hii.
  exists ii, jj. split; [lia|]. split; [lia|exact Hin].
Qed.

Lemma fluid_cells_none obstacles nx start size :
  (forall ii jj, (start <= jj < start + size)%Z -> (0 <= ii < nx)%Z ->
     blocked obstacles (ii + jj * nx) = true) ->
  fluid_cells obstacles nx start size = [].
Proof.
  intros Hall. unfold fluid_cells.
  assert (G : forall l : list Z,
            (forall idx, idx ∈ l -> blocked obstacles idx = true) ->
            filter (fun idx => blocked obstacles idx = false) l = []).
  { induction l as [|idx l IH]; intros Hl; [reflexivity|].
    rewrite filter_cons, decide_False.
    - apply IH. intros idx' Hin. apply Hl. right. exact Hin.
    - rewrite (Hl idx) by (left). discriminate. }
  apply G. intros idx Hin.
  apply range_cells_elem in Hin. destruct Hin as (ii & jj & Hjj & Hii & ->).
  apply Hall; assumption.
Qed.

End AvVelocityFacts.


(** A reduction in which no worker contributes anything. *)
Lemma MPI_Reduce_sum_zero (others : list (binary32 * binary32)) :
  Forall (fun b => b = (of_int 0, of_int 0)) others ->
  MPI_Reduce_sum (of_int 0, of_int 0) others = (of_int 0, of_int 0).
Proof.
  induction 1 as [|b others Hb _ IH]; [reflexivity|].
  subst b. exact IH.
Qed.

(** C9, as the code has it (single precision).  Over the rows
    [[start, start + size)], with [tot_u] the sum of the velocity magnitudes
    of the cells that are not obstacles and [tot_cells] their number:
    without reduction ([sync] other than 1) or on a rank other than 0 the
    result is [tot_u / tot_cells]; on rank 0 with [sync = 1] it is the quotient
    of the two reduced totals over all workers, which is [tot_u / tot_cells]
    when there is no other worker.  When every cell of the rows is an
    obstacle, the result is the NaN of [0 / 0] whenever the local quotient is
    what is returned; on rank 0 with [sync = 1] it is then the quotient of the
    totals that the other workers contribute, which is the NaN of [0 / 0]
    when they contribute nothing.  Nothing else signals the empty range. *)
Theorem av_velocity_average (params : t_param binary32) cells obstacles
    rank start size sync others :
  let fluid := fluid_cells obstacles (nx params) start size in
  let tot_u :=
    fold_left (fun u idx => (u + speed_magnitude (cell cells idx))%fl)
      fluid (of_int 0) in
  let tot_cells := Z.of_nat (length fluid) in
  let total := MPI_Reduce_sum (tot_u, of_int tot_cells) others in
  let contributed := MPI_Reduce_sum (of_int 0, of_int 0) others in
  let result :=
    av_velocity params cells obstacles rank start size sync others in
  (sync <> 1 \/ rank <> 0 -> result = (tot_u / of_int tot_cells)%fl)
  /\ (sync = 1 -> rank = 0 -> result = (fst total / snd total)%fl)
  /\ (others = [] -> result = (tot_u / of_int tot_cells)%fl)
  /\ ((forall ii jj, start <= jj < start + size -> 0 <= ii < nx params ->
         blocked obstacles (ii + jj * nx params) = true) ->
      (sync <> 1 \/ rank <> 0 -> result = S754_nan)
      /\ (sync = 1 -> rank = 0 ->
          result = (fst contributed / snd contributed)%fl)
      /\ (Forall (fun b => b = (of_int 0, of_int 0)) others ->
          result = S754_nan)).
Proof.
  cbv zeta. unfold av_velocity. rewrite av_velocity_local_spec.
  set (fluid := fluid_cells obstacles (nx params) start size).
  set (tot_u := fold_left _ fluid (of_int 0)).
  assert (Hlocal : sync <> 1 \/ rank <> 0 \/ others = [] ->
            (if sync =? 1
             then if rank =? 0
                  then (fst (MPI_Reduce_sum
                               (tot_u, of_int (Z.of_nat (length fluid))) others)
                        / snd (MPI_Reduce_sum
                                 (tot_u, of_int (Z.of_nat (length fluid)))
                                 others))%fl
                  else (tot_u / of_int (Z.of_nat (length fluid)))%fl
             else (tot_u / of_int (Z.of_nat (length fluid)))%fl)
            = (tot_u / of_int (Z.of_nat (length fluid)))%fl).
  { intros Hcase.
    destruct (Z.eqb_spec sync 1) as [Es|Es]; [|reflexivity].
    destruct (Z.eqb_spec rank 0) as [Er|Er]; [|reflexivity].
    destruct Hcase as [Hc|[Hc|Hc]]; [contradiction|contradiction|].
    subst others. reflexivity. }
  split; [|split; [|split]].
  - intros Hcase. apply Hlocal. tauto.
  - intros -> ->. reflexivity.
  - intros Ho. apply Hlocal. tauto.
  - intros Hall.
    assert (Hnone : fluid = []) by (apply fluid_cells_none; exact Hall).
    unfold tot_u. rewrite Hnone.
    change (fold_left (fun u idx => (u + speed_magnitude (cell cells idx))%fl)
              [] (of_int 0)) with (of_int 0 : binary32).
    change (of_int (Z.of_nat (length (@nil Z)))) with (of_int 0 : binary32).
    split; [|split].
    + intros Hcase.
      destruct (Z.eqb_spec sync 1) as [Es|Es]; [|reflexivity].
      destruct (Z.eqb_spec rank 0) as [Er|Er]; [|reflexivity].
      destruct Hcase; contradiction.
    + intros -> ->. reflexivity.
    + intros Hc.
      destruct (Z.eqb_spec sync 1) as [Es|Es]; [|reflexivity].
      destruct (Z.eqb_spec rank 0) as [Er|Er]; [|reflexivity].
      rewrite (MPI_Reduce_sum_zero others Hc). reflexivity.
Qed.

(** Rank 0 of two workers on a 2 x 3 grid of moving cells without
    obstacles, with the reduction: the quotient of the reduced totals; and
    row 0 of the 1 x 2 sample grid, whose only cell is an obstacle, taken
    without reduction: the NaN. *)
Lemma av_velocity_average_witness :
  (let params := sample_params in
   let cells := repeat sample_moving_cell 6 in
   let obstacles := repeat 0 6 in
   let start := domain_start 3 2 0 in
   let size := domain_size 3 2 0 in
   let others := [sample_moving_rank1] in
   let fluid := fluid_cells obstacles (nx params) start size in
   let tot_u :=
     fold_left (fun u idx => (u + speed_magnitude (cell cells idx))%fl)
       fluid (of_int 0) in
   let tot_cells := Z.of_nat (length fluid) in
   let total := MPI_Reduce_sum (tot_u, of_int tot_cells) others in
   (1 = 1 /\ 0 = 0)
   /\ av_velocity params cells obstacles 0 start size 1 others
      = (fst total / snd total)%fl)
  /\ (let params := sample_two_rows in
      let cells := initialise_cells params in
      let obstacles := sample_two_rows_obstacles in
      ((forall ii jj, 0 <= jj < 0 + 1 -> 0 <= ii < nx params ->
          blocked obstacles (ii + jj * nx params) = true)
       /\ (0 <> 1 \/ 0 <> 0))
      /\ av_velocity params cells obstacles 0 0 1 0 [] = S754_nan).
Proof.
  cbv zeta. split.
  - split; [split; reflexivity|].
    destruct (av_velocity_average sample_params (repeat sample_moving_cell 6)
                (repeat 0 6) 0 (domain_start 3 2 0) (domain_size 3 2 0) 1
                [sample_moving_rank1]) as (_ & Hreduced & _).
    exact (Hreduced eq_refl eq_refl).
  - assert (Hall : forall ii jj, 0 <= jj < 0 + 1 ->
              0 <= ii < nx sample_two_rows ->
              blocked sample_two_rows_obstacles (ii + jj * nx sample_two_rows)
              = true).
    { intros ii jj Hjj Hii. simpl in Hii.
      assert (jj = 0) by lia. assert (ii = 0) by lia. subst. reflexivity. }
    assert (Hcase : 0 <> 1 \/ 0 <> 0) by (left; lia).
    split; [split; [exact Hall|exact Hcase]|].
    destruct (av_velocity_average sample_two_rows
                (initialise_cells sample_two_rows) sample_two_rows_obstacles
                0 0 1 0 []) as (_ & _ & _ & Hempty).
    destruct (Hempty Hall) as (Hlocal & _ & _).
    exact (Hlocal Hcase).
Defined.

(** C9, as stated, fails on rank 0 when the values are reduced: in a run of
    two workers on a 1 x 2 grid whose row 0 is an obstacle, every cell of
    rank 0's range is an obstacle, yet rank 0 divides the reduced sum by the
    reduced count (one fluid cell, owned by rank 1) and returns zero, a
    finite value. *)
Lemma av_velocity_root_counterexample :
  let params := sample_two_rows in
  let cells := initialise_cells params in
  let obstacles := sample_two_rows_obstacles in
  let start := domain_start 2 2 0 in
  let size := domain_size 2 2 0 in
  (forall ii jj, start <= jj < start + size -> 0 <= ii < nx params ->
     blocked obstacles (ii + jj * nx params) = true)
  /\ fst (av_velocity_local params cells obstacles start size) = 0
  /\ av_velocity params cells obstacles 0 start size 1 [sample_two_rows_rank1]
     = S754_zero false
  /\ av_velocity params cells obstacles 0 start size 1 [sample_two_rows_rank1]
     <> S754_nan.
Proof.
  cbv zeta.
  assert (E : domain 2 2 0 = (0, 1)) by reflexivity.
  unfold domain_start, domain_size. rewrite E. cbn [fst snd].
  split.
  - intros ii jj Hjj Hii. simpl in Hii.
    assert (jj = 0) by lia. assert (ii = 0) by lia. subst. reflexivity.
  - split; [reflexivity|]. split; [reflexivity|].
    intros Hnan. vm_compute in Hnan. discriminate Hnan.
Qed.


(** ** Exact sums over the grid *)

Section Sums.
Local Open Scope R_scope.

Lemma for_loop_ext {St : Type} lo hi (body1 body2 : Z -> St -> St) s :
  (forall i t, (lo <= i < hi)%Z -> body1 i t = body2 i t) ->
  for_loop lo hi body1 s = for_loop lo hi body2 s.
Proof.
  intros E. destruct (Z_lt_le_dec hi lo) as [Hlt|Hle].
  - rewrite !for_loop_empty by lia. reflexivity.
  - apply (for_loop_inv
             (fun i t => t = for_loop lo i body2 s /\ (lo <= i <= hi)%Z)
             lo hi body1 s Hle).
    + split; [|lia]. rewrite for_loop_empty by lia. reflexivity.
    + intros i t Hi [-> _]. split; [|lia].
      rewrite for_loop_snoc by lia. apply E. exact Hi.
Qed.

Lemma rsum_0 f : rsum 0 f = 0.
Proof. reflexivity. Qed.

Lemma rsum_snoc n f : (0 <= n)%Z -> rsum (n + 1) f = rsum n f + f n.
Proof.
  intros Hn. unfold rsum. rewrite for_loop_snoc by exact Hn. reflexivity.
Qed.

Lemma rsum_ext n f g :
  (forall i, (0 <= i < n)%Z -> f i = g i) -> rsum n f = rsum n g.
Proof.
  intros E. unfold rsum. apply for_loop_ext.
  intros i t Hi. rewrite E by exact Hi. reflexivity.
Qed.

Lemma rsum_nonpos n f : (n <= 0)%Z -> rsum n f = 0.
Proof. intros Hn. unfold rsum. apply for_loop_empty. lia. Qed.

Lemma rsum_acc n f a :
  for_loop 0 n (fun i acc => acc + f i) a = a + rsum n f.
Proof.
  destruct (Z_lt_le_dec n 0) as [Hneg|Hn].
  - rewrite rsum_nonpos by lia. rewrite for_loop_empty by lia. ring.
  - revert n Hn. apply natlike_ind.
    + rewrite rsum_0. rewrite for_loop_empty by lia. ring.
    + intros n Hn IH. replace (Z.succ n) with (n + 1)%Z by lia.
      rewrite for_loop_snoc, rsum_snoc by lia. rewrite IH. ring.
Qed.

Lemma rsum_plus n f g :
  rsum n (fun i => f i + g i) = rsum n f + rsum n g.
Proof.
  destruct (Z_lt_le_dec n 0) as [Hneg|Hn].
  - rewrite !rsum_nonpos by lia. ring.
  - revert n Hn. apply natlike_ind.
    + rewrite !rsum_0. ring.
    + intros n Hn IH. replace (Z.succ n) with (n + 1)%Z by lia.
      rewrite !rsum_snoc by lia. rewrite IH. ring.
Qed.

Lemma rsum_cons n f :
  (0 <= n)%Z -> rsum (n + 1) f = f 0%Z + rsum n (fun i => f (i + 1)%Z).
Proof.
  revert n. apply natlike_ind.
  - rewrite (rsum_snoc 0) by lia. rewrite !rsum_0. simpl. ring.
  - intros n Hn IH. replace (Z.succ n) with (n + 1)%Z by lia.
    rewrite (rsum_snoc (n + 1)) by lia. rewrite IH.
    rewrite (rsum_snoc n) by lia. ring.
Qed.

Lemma rsum_last n f : (0 < n)%Z -> rsum n f = rsum (n - 1) f + f (n - 1)%Z.
Proof.
  intros Hn. rewrite <- rsum_snoc by lia. f_equal. lia.
Qed.

Lemma rsum_first n f :
  (0 < n)%Z -> rsum n f = f 0%Z + rsum (n - 1) (fun i => f (i + 1)%Z).
Proof.
  intros Hn. rewrite <- rsum_cons by lia. f_equal. lia.
Qed.

(** Summation is invariant under the two periodic shifts. *)
Lemma rsum_wrap_up n f :
  (0 < n)%Z -> rsum n (fun i => f (wrap_up n i)) = rsum n f.
Proof.
  intros Hn.
  rewrite (rsum_last n (fun i => f (wrap_up n i))) by exact Hn.
  rewrite (rsum_first n f) by exact Hn.
  rewrite (rsum_ext (n - 1) (fun i => f (wrap_up n i))
             (fun i => f (i + 1)%Z)).
  - unfold wrap_up. replace (n - 1 + 1)%Z with n by lia.
    rewrite Z.rem_same by lia. ring.
  - intros i Hi. unfold wrap_up. rewrite Z.rem_small by lia. reflexivity.
Qed.

Lemma rsum_wrap_down n f :
  (0 < n)%Z -> rsum n (fun i => f (wrap_down n i)) = rsum n f.
Proof.
  intros Hn.
  rewrite (rsum_first n (fun i => f (wrap_down n i))) by exact Hn.
  rewrite (rsum_last n f) by exact Hn.
  rewrite (rsum_ext (n - 1) (fun i => f (wrap_down n (i + 1))) f).
  - unfold wrap_down. cbn [Z.eqb]. replace (0 + n - 1)%Z with (n - 1)%Z by lia.
    ring.
  - intros i Hi. unfold wrap_down.
    destruct (Z.eqb_spec (i + 1) 0); [lia|]. f_equal. lia.
Qed.

Lemma rsum2_reindex nx ny (X Y : Z -> Z) (g : Z -> Z -> R) :
  (forall f, rsum nx (fun i => f (X i)) = rsum nx f) ->
  (forall f, rsum ny (fun j => f (Y j)) = rsum ny f) ->
  rsum ny (fun jj => rsum nx (fun ii => g (X ii) (Y jj)))
  = rsum ny (fun jj => rsum nx (fun ii => g ii jj)).
Proof.
  intros HX HY.
  rewrite (rsum_ext ny _ (fun jj => rsum nx (fun ii => g ii (Y jj)))).
  - apply (HY (fun jj => rsum nx (fun ii => g ii jj))).
  - intros jj _. apply (HX (fun ii => g ii (Y jj))).
Qed.

Lemma rsum2_plus nx ny (f g : Z -> Z -> R) :
  rsum ny (fun jj => rsum nx (fun ii => f ii jj + g ii jj))
  = rsum ny (fun jj => rsum nx (fun ii => f ii jj))
  + rsum ny (fun jj => rsum nx (fun ii => g ii jj)).
Proof.
  rewrite <- rsum_plus. apply rsum_ext. intros jj _. apply rsum_plus.
Qed.

Lemma rsum2_ext nx ny (f g : Z -> Z -> R) :
  (forall ii jj, (0 <= ii < nx)%Z -> (0 <= jj < ny)%Z -> f ii jj = g ii jj) ->
  rsum ny (fun jj => rsum nx (fun ii => f ii jj))
  = rsum ny (fun jj => rsum nx (fun ii => g ii jj)).
Proof.
  intros E. apply rsum_ext. intros jj Hjj. apply rsum_ext. intros ii Hii.
  apply E; assumption.
Qed.

(** In exact arithmetic the density loop and [cell_sum] agree. *)
Lemma local_density_cell_sum (c : t_speed R) : local_density c = cell_sum c.
Proof.
  unfold local_density. rewrite for_loop_9. destruct c.
  unfold cell_sum. simpl. ring.
Qed.

Lemma total_density_rsum (params : t_param R) cells :
  total_density params cells
  = rsum (ny params) (fun jj =>
    rsum (nx params) (fun ii => cell_sum (cell cells (ii + jj * nx params)))).
Proof.
  unfold total_density.
  rewrite (for_loop_ext 0 (ny params) _
             (fun jj total => total
                + rsum (nx params) (fun ii =>
                    cell_sum (cell cells (ii + jj * nx params))))).
  - reflexivity.
  - intros jj total _.
    rewrite (for_loop_ext 0 (nx params) _
               (fun ii total => total
                  + cell_sum (cell cells (ii + jj * nx params)))).
    + apply rsum_acc.
    + intros ii t _. rewrite for_loop_9.
      destruct (cell cells (ii + jj * nx params)).
      unfold cell_sum. simpl. ring.
Qed.

(** In exact arithmetic the equilibrium of the code is the usual
    second-order expansion
    [w_k rho (1 + 3 e_k.u + 9/2 (e_k.u)^2 - 3/2 u.u)]. *)
Lemma equilibrium_second_order (t : t_speed R) (k : Z) :
  (0 <= k < 9)%Z ->
  let rho := cell_sum t in
  let ux := velocity_x t rho in
  let uy := velocity_y t rho in
  let eu := IZR (lattice_ex k) * ux + IZR (lattice_ey k) * uy in
  equilibrium t k
  = lattice_weight k * rho
  * (1 + 3 * eu + 9 / 2 * (eu * eu) - 3 / 2 * (ux * ux + uy * uy)).
Proof.
  intros Hk. cbv zeta. rewrite equilibrium_code by exact Hk. cbv zeta.
  rewrite local_density_cell_sum.
  generalize (velocity_x t (cell_sum t)) (velocity_y t (cell_sum t))
             (cell_sum t).
  intros ux uy rho.
  destruct (index_cases k) as [E|[E|[E|[E|[E|[E|[E|[E|[E|E]]]]]]]]];
    try lia; subst k;
    cbn [Z.eqb Z.leb Z.compare Pos.compare Pos.compare_cont Pos.eqb
         lattice_weight lattice_ex lattice_ey directional
         fadd fsub fmul fdiv fneg of_int real_ops];
    unfold lattice_weight;
    cbn [Z.eqb Z.leb Z.compare Pos.compare Pos.compare_cont Pos.eqb
         fadd fsub fmul fdiv fneg of_int real_ops];
    field.
Qed.

(** The nine equilibrium values add up to the density, whatever the
    velocity: relaxation preserves the sum of a cell. *)
Lemma cell_sum_relaxed (omega : R) (t : t_speed R) :
  cell_sum (relaxed omega t) = cell_sum t.
Proof.
  unfold relaxed, cell_sum, relax. rewrite !equilibrium_code by lia.
  cbv zeta. unfold lattice_weight, directional.
  cbn [sp0 sp1 sp2 sp3 sp4 sp5 sp6 sp7 sp8 Z.eqb Z.leb Z.compare
       Pos.compare Pos.compare_cont Pos.eqb].
  rewrite local_density_cell_sum. unfold cell_sum.
  cbn [fadd fsub fmul fdiv fneg of_int real_ops].
  set (rho := sp0 t + sp1 t + sp2 t + sp3 t + sp4 t + sp5 t + sp6 t + sp7 t
              + sp8 t).
  generalize (velocity_x t rho) (velocity_y t rho). intros ux uy.
  unfold rho. field.
Qed.
End Sums.

(** ** Relaxation towards the equilibrium *)

Lemma rsum_9 (f : Z -> R) :
  rsum 9 f
  = (0 + f 0%Z + f 1%Z + f 2%Z + f 3%Z + f 4%Z + f 5%Z + f 6%Z + f 7%Z
     + f 8%Z)%R.
Proof. reflexivity. Qed.

(** In exact arithmetic the reference equilibrium is the second-order
    expansion over the moments of the cell. *)
Lemma equilibrium_from_moments (t : t_speed R) (k : Z) :
  0 <= k < 9 -> cell_sum t <> 0%R ->
  equilibrium t k = second_order_equilibrium t k.
Proof.
  intros Hk Hrho. unfold second_order_equilibrium, equilibrium. cbv zeta.
  rewrite !rsum_9.
  unfold bulk_velocity_x, bulk_velocity_y, density_sum, cell_sum in *.
  destruct t as [a0 a1 a2 a3 a4 a5 a6 a7 a8].
  cbn [sp0 sp1 sp2 sp3 sp4 sp5 sp6 sp7 sp8 speeds
       fadd fsub fmul fdiv fneg of_int real_ops] in *.
  assert (Hrho' : (0 + a0 + a1 + a2 + a3 + a4 + a5 + a6 + a7 + a8 <> 0)%R)
    by (intros E; apply Hrho; lra).
  destruct (index_cases k) as [E|[E|[E|[E|[E|[E|[E|[E|[E|E]]]]]]]]];
    try lia; subst k;
    unfold projection, lattice_weight, lattice_ex, lattice_ey;
    cbn [Z.eqb Z.leb Z.compare Pos.compare Pos.compare_cont Pos.eqb
         fadd fsub fmul fdiv fneg of_int real_ops];
    field; first [exact Hrho | exact Hrho'].
Qed.

(** C6: on a well-formed grid, in any arithmetic, [collision] at a cell
    that is not an obstacle sets each of the nine directions of the main grid
    to [scratch + omega * (equilibrium - scratch)], where the equilibrium is
    computed from the scratch cell: from its local density, the sum of its
    nine values, and its bulk velocity, by the second-order expansion with
    the weights 4/9 (rest), 1/9 (axes) and 1/36 (diagonals) and speed of
    sound squared 1/3; at an obstacle cell it leaves the main grid as it was;
    and it never changes another cell.  In exact arithmetic, for a scratch
    cell whose density is not zero, the equilibrium is
    [w_k rho (1 + e_k.u / c_sq + (e_k.u)^2 / (2 c_sq^2) - u.u / (2 c_sq))]
    with [rho = sum_j f_j] and [u = (sum_j e_j f_j) / rho] over the lattice
    velocities [e_j]. *)
Theorem collision_relaxation :
  (forall (F : Type) (ops : FloatOps F) (params : t_param F)
          cells tmp_cells obstacles ii jj,
     0 <= ii < nx params -> 0 <= jj < ny params ->
     grid_size params cells -> grid_size params tmp_cells ->
     let here := ii + jj * nx params in
     let t := cell tmp_cells here in
     let cells' := collision ii jj params cells tmp_cells obstacles in
     (blocked obstacles here = false ->
        forall k, 0 <= k < 9 ->
          speeds (cell cells' here) k
          = (speeds t k + omega params * (equilibrium t k - speeds t k))%fl)
     /\ (blocked obstacles here = true -> cells' = cells)
     /\ (forall idx, idx <> here -> cell cells' idx = cell cells idx))
  /\ (forall (params : t_param R) cells tmp_cells obstacles ii jj,
        0 <= ii < nx params -> 0 <= jj < ny params ->
        grid_size params cells -> grid_size params tmp_cells ->
        let here := ii + jj * nx params in
        let t := cell tmp_cells here in
        let cells' := collision ii jj params cells tmp_cells obstacles in
        blocked obstacles here = false -> local_density t <> 0%R ->
        forall k, 0 <= k < 9 ->
          speeds (cell cells' here) k
          = (speeds t k
             + omega params * (second_order_equilibrium t k - speeds t k))%R).
Proof.
  split.
  - intros F ops params cells tmp_cells obstacles ii jj.
    apply collision_relaxes.
  - intros params cells tmp_cells obstacles ii jj Hii Hjj Hc Ht. cbv zeta.
    intros Hfluid Hrho k Hk.
    destruct (collision_relaxes params cells tmp_cells obstacles ii jj
                Hii Hjj Hc Ht) as (Hrelax & _ & _).
    cbv zeta in Hrelax. rewrite (Hrelax Hfluid k Hk).
    rewrite local_density_cell_sum in Hrho.
    rewrite (equilibrium_from_moments _ k Hk Hrho). reflexivity.
Qed.

(** Relaxation at cell (1, 1) of a 2 x 3 grid whose scratch cells move
    towards the north-east, in single precision and in exact arithmetic. *)
Lemma collision_relaxation_witness :
  (let params := sample_params in
   let cells := initialise_cells params in
   let tmp_cells := repeat sample_moving_cell 6 in
   let obstacles := [0; 0; 1; 0; 0; 0] in
   let here := 1 + 1 * nx params in
   let t := cell tmp_cells here in
   let cells' := collision 1 1 params cells tmp_cells obstacles in
   (0 <= 1 < nx params /\ 0 <= 1 < ny params
    /\ grid_size params cells /\ grid_size params tmp_cells)
   /\ (blocked obstacles here = false ->
         forall k, 0 <= k < 9 ->
           speeds (cell cells' here) k
           = (speeds t k + omega params * (equilibrium t k - speeds t k))%fl)
   /\ (blocked obstacles here = true -> cells' = cells)
   /\ (forall idx, idx <> here -> cell cells' idx = cell cells idx))
  /\ (let params := sample_params_R in
      let cells := initialise_cells params in
      let tmp_cells := repeat sample_moving_cell_R 6 in
      let obstacles := [0; 0; 1; 0; 0; 0] in
      let here := 1 + 1 * nx params in
      let t := cell tmp_cells here in
      let cells' := collision 1 1 params cells tmp_cells obstacles in
      (0 <= 1 < nx params /\ 0 <= 1 < ny params
       /\ grid_size params cells /\ grid_size params tmp_cells
       /\ blocked obstacles here = false /\ local_density t <> 0%R)
      /\ forall k, 0 <= k < 9 ->
           speeds (cell cells' here) k
           = (speeds t k
              + omega params
                * (second_order_equilibrium t k - speeds t k))%R).
Proof.
  cbv zeta. split.
  - split.
    + split; [simpl; lia|]. split; [simpl; lia|]. split; reflexivity.
    + apply (proj1 collision_relaxation binary32 binary32_ops sample_params
               (initialise_cells sample_params) (repeat sample_moving_cell 6)
               [0; 0; 1; 0; 0; 0] 1 1).
      * simpl; lia.
      * simpl; lia.
      * reflexivity.
      * reflexivity.
  - assert (Hrho : local_density
                     (cell (repeat sample_moving_cell_R 6)
                        (1 + 1 * nx sample_params_R)) <> 0%R).
    { rewrite local_density_cell_sum. unfold cell_sum. simpl. lra. }
    split.
    + split; [simpl; lia|]. split; [simpl; lia|]. split; [reflexivity|].
      split; [reflexivity|]. split; [reflexivity|exact Hrho].
    + apply (proj2 collision_relaxation sample_params_R
               (initialise_cells sample_params_R)
               (repeat sample_moving_cell_R 6) [0; 0; 1; 0; 0; 0] 1 1).
      * simpl; lia.
      * simpl; lia.
      * reflexivity.
      * reflexivity.
      * reflexivity.
      * exact Hrho.
Defined.

(** ** The loops of the time step, without obstacles *)

Section TimestepFacts.
Context {F : Type} `{FloatOps F}.
Implicit Types (params : t_param F) (cells tmp_cells : list (t_speed F)).
Implicit Types (obstacles : list Z).

(** Without obstacles in its rows, the first loop nest leaves the main grid
    alone and fills the scratch rows with the streamed cells. *)
Lemma propagate_rebound_rows_fluid params obstacles start size cells tmp_cells :
  0 <= start -> 0 <= size -> start + size <= ny params -> 0 <= nx params ->
  grid_size params cells -> grid_size params tmp_cells ->
  no_obstacles params obstacles start size ->
  let st := propagate_rebound_rows params obstacles start size
              (cells, tmp_cells) in
  fst st = cells
  /\ length (snd st) = length tmp_cells
  /\ forall ii jj, start <= jj < start + size -> 0 <= ii < nx params ->
       cell (snd st) (ii + jj * nx params) = streamed params cells ii jj.
Proof.
  intros Hstart Hsize Htop Hnx Hc Ht Hfluid. cbv zeta.
  unfold grid_size in Hc, Ht.
  pose (Q := fun s : list (t_speed F) * list (t_speed F) =>
    fst s = cells /\ length (snd s) = length tmp_cells).
  pose (P := fun (ii jj : Z) (s : list (t_speed F) * list (t_speed F)) =>
    cell (snd s) (ii + jj * nx params) = streamed params cells ii jj).
  assert (Hbody : forall ii jj (s : list (t_speed F) * list (t_speed F)),
            start <= jj < start + size -> 0 <= ii < nx params -> Q s ->
            (let '(c, t) := s in
             let t' := propagate ii jj params c t in
             let c' := rebound ii jj params c t' obstacles in
             (c', t'))
            = (cells, store (snd s) (ii + jj * nx params)
                        (streamed params cells ii jj))
            /\ 0 <= ii + jj * nx params < Z.of_nat (length (snd s))).
  { intros ii jj [c t] Hjj Hii [Hq1 Hq2]. cbn [fst snd] in *. subst c.
    pose proof (index_in_grid (nx params) (ny params) ii jj Hii ltac:(lia)).
    assert (Hin : 0 <= ii + jj * nx params < Z.of_nat (length t)) by lia.
    split; [|exact Hin]. cbv zeta.
    rewrite propagate_store by exact Hin.
    rewrite rebound_store by lia.
    rewrite (Hfluid ii jj Hjj Hii). reflexivity. }
  assert (G : Q (propagate_rebound_rows params obstacles start size
                   (cells, tmp_cells))
              /\ forall ii jj, start <= jj < start + size ->
                   0 <= ii < nx params ->
                   P ii jj (propagate_rebound_rows params obstacles start size
                              (cells, tmp_cells))).
  { unfold propagate_rebound_rows.
    apply (rows_loop_cells (fun _ _ _ => True) P Q start (start + size)
             (nx params)
             (fun ii jj s =>
                let '(c, t) := s in
                let t' := propagate ii jj params c t in
                let c' := rebound ii jj params c t' obstacles in
                (c', t'))); [lia|exact Hnx| | | |].
    - split; reflexivity.
    - intros; exact I.
    - intros ii jj s Hjj Hii Hq _.
      destruct (Hbody ii jj s Hjj Hii Hq) as [E Hin]. rewrite E.
      destruct Hq as [Hq1 Hq2]. split; [split|].
      + reflexivity.
      + cbn [snd]. rewrite length_store. exact Hq2.
      + unfold P. cbn [snd]. apply cell_store_same. exact Hin.
    - intros ii jj ii' jj' s Hjj Hii Hjj' Hii' Hne Hq.
      destruct (Hbody ii jj s Hjj Hii Hq) as [E Hin]. rewrite E.
      split; [intros _; exact I|]. unfold P. cbn [snd]. intros Hp.
      rewrite cell_store_other; [exact Hp|].
      apply index_inj; assumption. }
  destruct G as [[Hq1 Hq2] Hp]. split; [exact Hq1|]. split; [exact Hq2|].
  exact Hp.
Qed.

(** Without obstacles in its rows, the second loop nest leaves the scratch
    grid alone and relaxes every cell of the rows. *)
Lemma collision_rows_fluid params obstacles start size cells tmp_cells :
  0 <= start -> 0 <= size -> start + size <= ny params -> 0 <= nx params ->
  grid_size params cells ->
  no_obstacles params obstacles start size ->
  let st := collision_rows params obstacles start size (cells, tmp_cells) in
  snd st = tmp_cells
  /\ length (fst st) = length cells
  /\ forall ii jj, start <= jj < start + size -> 0 <= ii < nx params ->
       cell (fst st) (ii + jj * nx params)
       = relaxed (omega params) (cell tmp_cells (ii + jj * nx params)).
Proof.
  intros Hstart Hsize Htop Hnx Hc Hfluid. cbv zeta.
  unfold grid_size in Hc.
  pose (Q := fun s : list (t_speed F) * list (t_speed F) =>
    snd s = tmp_cells /\ length (fst s) = length cells).
  pose (P := fun (ii jj : Z) (s : list (t_speed F) * list (t_speed F)) =>
    cell (fst s) (ii + jj * nx params)
    = relaxed (omega params) (cell tmp_cells (ii + jj * nx params))).
  assert (Hbody : forall ii jj (s : list (t_speed F) * list (t_speed F)),
            start <= jj < start + size -> 0 <= ii < nx params -> Q s ->
            (let '(c, t) := s in
             (collision ii jj params c t obstacles, t))
            = (store (fst s) (ii + jj * nx params)
                 (relaxed (omega params)
                    (cell tmp_cells (ii + jj * nx params))), tmp_cells)
            /\ 0 <= ii + jj * nx params < Z.of_nat (length (fst s))).
  { intros ii jj [c t] Hjj Hii [Hq1 Hq2]. cbn [fst snd] in *. subst t.
    pose proof (index_in_grid (nx params) (ny params) ii jj Hii ltac:(lia)).
    assert (Hin : 0 <= ii + jj * nx params < Z.of_nat (length c)) by lia.
    split; [|exact Hin].
    rewrite collision_store by exact Hin.
    rewrite (Hfluid ii jj Hjj Hii). reflexivity. }
  assert (G : Q (collision_rows params obstacles start size (cells, tmp_cells))
              /\ forall ii jj, start <= jj < start + size ->
                   0 <= ii < nx params ->
                   P ii jj (collision_rows params obstacles start size
                              (cells, tmp_cells))).
  { unfold collision_rows.
    apply (rows_loop_cells (fun _ _ _ => True) P Q start (start + size)
             (nx params)
             (fun ii jj s =>
                let '(c, t) := s in
                (collision ii jj params c t obstacles, t)));
      [lia|exact Hnx| | | |].
    - split; reflexivity.
    - intros; exact I.
    - intros ii jj s Hjj Hii Hq _.
      destruct (Hbody ii jj s Hjj Hii Hq) as [E Hin]. rewrite E.
      destruct Hq as [Hq1 Hq2]. split; [split|].
      + reflexivity.
      + cbn [fst]. rewrite length_store. exact Hq2.
      + unfold P. cbn [fst]. apply cell_store_same. exact Hin.
    - intros ii jj ii' jj' s Hjj Hii Hjj' Hii' Hne Hq.
      destruct (Hbody ii jj s Hjj Hii Hq) as [E Hin]. rewrite E.
      split; [intros _; exact I|]. unfold P. cbn [fst]. intros Hp.
      rewrite cell_store_other; [exact Hp|].
      apply index_inj; assumption. }
  destruct G as [[Hq1 Hq2] Hp]. split; [exact Hq1|]. split; [exact Hq2|].
  exact Hp.
Qed.

(** X5: bounce-back over the rows of a worker: after the first loop nest of
    an iteration every obstacle cell of the rows holds, in its paired
    directions, the scratch values of the opposite directions and keeps its
    rest direction, and every other cell of the rows is as it was. *)
Lemma propagate_rebound_rows_bounce_back
  params obstacles start size cells tmp_cells :
  0 <= start -> 0 <= size -> start + size <= ny params -> 0 <= nx params ->
  grid_size params cells -> grid_size params tmp_cells ->
  let st := propagate_rebound_rows params obstacles start size
              (cells, tmp_cells) in
  forall ii jj, start <= jj < start + size -> 0 <= ii < nx params ->
  let here := ii + jj * nx params in
  cell (fst st) here
  = if blocked obstacles here
  then bounced (cell cells here) (cell (snd st) here)
  else cell cells here.
Proof.
  intros Hstart Hsize Htop Hnx Hc Ht. cbv zeta.
  unfold grid_size in Hc, Ht.
  pose (Q := fun s : list (t_speed F) * list (t_speed F) =>
    length (fst s) = length cells /\ length (snd s) = length tmp_cells).
  pose (U := fun (ii jj : Z) (s : list (t_speed F) * list (t_speed F)) =>
    cell (fst s) (ii + jj * nx params) = cell cells (ii + jj * nx params)).
  pose (P := fun (ii jj : Z) (s : list (t_speed F) * list (t_speed F)) =>
    cell (fst s) (ii + jj * nx params)
    = if blocked obstacles (ii + jj * nx params)
    then bounced (cell cells (ii + jj * nx params))
             (cell (snd s) (ii + jj * nx params))
    else cell cells (ii + jj * nx params)).
  assert (Hbody : forall ii jj (s : list (t_speed F) * list (t_speed F)),
            start <= jj < start + size -> 0 <= ii < nx params -> Q s ->
            (let '(c, t) := s in
             let t' := propagate ii jj params c t in
             let c' := rebound ii jj params c t' obstacles in
             (c', t'))
            = (if blocked obstacles (ii + jj * nx params)
               then store (fst s) (ii + jj * nx params)
                      (bounced (cell (fst s) (ii + jj * nx params))
                         (streamed params (fst s) ii jj))
               else fst s,
               store (snd s) (ii + jj * nx params)
                 (streamed params (fst s) ii jj))
            /\ 0 <= ii + jj * nx params < Z.of_nat (length (fst s))
            /\ 0 <= ii + jj * nx params < Z.of_nat (length (snd s))).
  { intros ii jj [c t] Hjj Hii [Hq1 Hq2]. cbn [fst snd] in *.
    pose proof (index_in_grid (nx params) (ny params) ii jj Hii ltac:(lia)).
    assert (Hin : 0 <= ii + jj * nx params < Z.of_nat (length t)) by lia.
    assert (Hin' : 0 <= ii + jj * nx params < Z.of_nat (length c)) by lia.
    split; [|split; assumption]. cbv zeta.
    rewrite propagate_store by exact Hin.
    rewrite rebound_store by exact Hin'.
    rewrite cell_store_same by exact Hin. reflexivity. }
  assert (G : Q (propagate_rebound_rows params obstacles start size
                   (cells, tmp_cells))
              /\ forall ii jj, start <= jj < start + size ->
                   0 <= ii < nx params ->
                   P ii jj (propagate_rebound_rows params obstacles start size
                              (cells, tmp_cells))).
  { unfold propagate_rebound_rows.
    apply (rows_loop_cells U P Q start (start + size) (nx params)
             (fun ii jj s =>
                let '(c, t) := s in
                let t' := propagate ii jj params c t in
                let c' := rebound ii jj params c t' obstacles in
                (c', t'))); [lia|exact Hnx| | | |].
    - split; reflexivity.
    - intros ii jj _ _. reflexivity.
    - intros ii jj s Hjj Hii Hq Hu.
      destruct (Hbody ii jj s Hjj Hii Hq) as (E & Hin & Hin'). rewrite E.
      destruct Hq as [Hq1 Hq2]. unfold Q, P, U in *. cbn [fst snd].
      split; [split|].
      + destruct (blocked obstacles (ii + jj * nx params));
          [rewrite length_store|]; exact Hq1.
      + rewrite length_store. exact Hq2.
      + rewrite (cell_store_same (snd s)) by exact Hin'.
        destruct (blocked obstacles (ii + jj * nx params)).
        * rewrite cell_store_same by exact Hin. rewrite Hu. reflexivity.
        * exact Hu.
    - intros ii jj ii' jj' s Hjj Hii Hjj' Hii' Hne Hq.
      destruct (Hbody ii jj s Hjj Hii Hq) as (E & Hin & Hin'). rewrite E.
      pose proof (index_inj (nx params) ii jj ii' jj' Hii Hii' Hne) as Hd.
      unfold P, U. cbn [fst snd].
      rewrite (cell_store_other (snd s)) by exact Hd.
      assert (Hfst : cell (if blocked obstacles (ii + jj * nx params)
                           then store (fst s) (ii + jj * nx params)
                                  (bounced (cell (fst s) (ii + jj * nx params))
                                     (streamed params (fst s) ii jj))
                           else fst s) (ii' + jj' * nx params)
                     = cell (fst s) (ii' + jj' * nx params)).
      { destruct (blocked obstacles (ii + jj * nx params)); [|reflexivity].
        apply cell_store_other. exact Hd. }
      rewrite Hfst. tauto. }
  destruct G as [_ Hp]. exact Hp.
Qed.

End TimestepFacts.


(** ** Conservation of mass in exact arithmetic *)

Section MassConservation.
Local Open Scope R_scope.

Lemma rsum2_plus9 nx ny (a0 a1 a2 a3 a4 a5 a6 a7 a8 : Z -> Z -> R) :
  rsum ny (fun jj => rsum nx (fun ii =>
    a0 ii jj + a1 ii jj + a2 ii jj + a3 ii jj + a4 ii jj + a5 ii jj
    + a6 ii jj + a7 ii jj + a8 ii jj))
  = rsum ny (fun jj => rsum nx (fun ii => a0 ii jj))
  + rsum ny (fun jj => rsum nx (fun ii => a1 ii jj))
  + rsum ny (fun jj => rsum nx (fun ii => a2 ii jj))
  + rsum ny (fun jj => rsum nx (fun ii => a3 ii jj))
  + rsum ny (fun jj => rsum nx (fun ii => a4 ii jj))
  + rsum ny (fun jj => rsum nx (fun ii => a5 ii jj))
  + rsum ny (fun jj => rsum nx (fun ii => a6 ii jj))
  + rsum ny (fun jj => rsum nx (fun ii => a7 ii jj))
  + rsum ny (fun jj => rsum nx (fun ii => a8 ii jj)).
Proof.
  rewrite (rsum2_plus nx ny _ a8). rewrite (rsum2_plus nx ny _ a7).
  rewrite (rsum2_plus nx ny _ a6). rewrite (rsum2_plus nx ny _ a5).
  rewrite (rsum2_plus nx ny _ a4). rewrite (rsum2_plus nx ny _ a3).
  rewrite (rsum2_plus nx ny _ a2). rewrite (rsum2_plus nx ny a0 a1).
  reflexivity.
Qed.

(** Streaming permutes each component over the periodic grid, so the grid
    total of the streamed cells is the grid total of the cells. *)
Lemma rsum2_streamed (params : t_param R) (cells : list (t_speed R)) :
  (0 < nx params)%Z -> (0 < ny params)%Z ->
  rsum (ny params) (fun jj => rsum (nx params) (fun ii =>
    cell_sum (streamed params cells ii jj)))
  = rsum (ny params) (fun jj => rsum (nx params) (fun ii =>
    cell_sum (cell cells (ii + jj * nx params)))).
Proof.
  intros Hnx Hny.
  pose (g := fun (k ii jj : Z) => speeds (cell cells (ii + jj * nx params)) k).
  pose (E := wrap_up (nx params)). pose (W := wrap_down (nx params)).
  pose (N := wrap_up (ny params)). pose (S := wrap_down (ny params)).
  pose (I := fun i : Z => i).
  assert (HE : forall f, rsum (nx params) (fun i => f (E i)) = rsum (nx params) f)
    by (intros f; apply rsum_wrap_up; exact Hnx).
  assert (HW : forall f, rsum (nx params) (fun i => f (W i)) = rsum (nx params) f)
    by (intros f; apply rsum_wrap_down; exact Hnx).
  assert (HN : forall f, rsum (ny params) (fun j => f (N j)) = rsum (ny params) f)
    by (intros f; apply rsum_wrap_up; exact Hny).
  assert (HS : forall f, rsum (ny params) (fun j => f (S j)) = rsum (ny params) f)
    by (intros f; apply rsum_wrap_down; exact Hny).
  assert (HIx : forall f, rsum (nx params) (fun i => f (I i)) = rsum (nx params) f)
    by (intros f; reflexivity).
  assert (HIy : forall f, rsum (ny params) (fun j => f (I j)) = rsum (ny params) f)
    by (intros f; reflexivity).
  change (rsum (ny params) (fun jj => rsum (nx params) (fun ii =>
            g 0%Z (I ii) (I jj) + g 1%Z (W ii) (I jj) + g 2%Z (I ii) (S jj)
            + g 3%Z (E ii) (I jj) + g 4%Z (I ii) (N jj) + g 5%Z (W ii) (S jj)
            + g 6%Z (E ii) (S jj) + g 7%Z (E ii) (N jj) + g 8%Z (W ii) (N jj)))
          = rsum (ny params) (fun jj => rsum (nx params) (fun ii =>
              g 0%Z ii jj + g 1%Z ii jj + g 2%Z ii jj + g 3%Z ii jj
              + g 4%Z ii jj + g 5%Z ii jj + g 6%Z ii jj + g 7%Z ii jj
              + g 8%Z ii jj))).
  rewrite (rsum2_plus9 (nx params) (ny params)
             (fun ii jj => g 0%Z (I ii) (I jj)) (fun ii jj => g 1%Z (W ii) (I jj))
             (fun ii jj => g 2%Z (I ii) (S jj)) (fun ii jj => g 3%Z (E ii) (I jj))
             (fun ii jj => g 4%Z (I ii) (N jj)) (fun ii jj => g 5%Z (W ii) (S jj))
             (fun ii jj => g 6%Z (E ii) (S jj)) (fun ii jj => g 7%Z (E ii) (N jj))
             (fun ii jj => g 8%Z (W ii) (N jj))).
  rewrite (rsum2_plus9 (nx params) (ny params)
             (g 0%Z) (g 1%Z) (g 2%Z) (g 3%Z) (g 4%Z) (g 5%Z) (g 6%Z) (g 7%Z)
             (g 8%Z)).
  rewrite (rsum2_reindex _ _ I I (g 0%Z) HIx HIy).
  rewrite (rsum2_reindex _ _ W I (g 1%Z) HW HIy).
  rewrite (rsum2_reindex _ _ I S (g 2%Z) HIx HS).
  rewrite (rsum2_reindex _ _ E I (g 3%Z) HE HIy).
  rewrite (rsum2_reindex _ _ I N (g 4%Z) HIx HN).
  rewrite (rsum2_reindex _ _ W S (g 5%Z) HW HS).
  rewrite (rsum2_reindex _ _ E S (g 6%Z) HE HS).
  rewrite (rsum2_reindex _ _ E N (g 7%Z) HE HN).
  rewrite (rsum2_reindex _ _ W N (g 8%Z) HW HN).
  reflexivity.
Qed.

Lemma kernels_conserve_mass (params : t_param R) cells tmp_cells obstacles :
  (1 <= nx params)%Z -> (1 <= ny params)%Z ->
  grid_size params cells -> grid_size params tmp_cells ->
  no_obstacles params obstacles 0 (ny params) ->
  total_density params
  (fst (collision_rows params obstacles 0 (ny params)
            (propagate_rebound_rows params obstacles 0 (ny params)
               (cells, tmp_cells))))
  = total_density params cells.
Proof.
  intros Hnx Hny Hc Ht Hfluid.
  destruct (propagate_rebound_rows_fluid params obstacles 0 (ny params)
              cells tmp_cells ltac:(lia) ltac:(lia) ltac:(lia) ltac:(lia)
              Hc Ht Hfluid) as (Hcells & Hlen & Hstream).
  destruct (propagate_rebound_rows params obstacles 0 (ny params)
              (cells, tmp_cells)) as [cells1 tmp1].
  cbn [fst snd] in Hcells, Hlen, Hstream. subst cells1.
  destruct (collision_rows_fluid params obstacles 0 (ny params)
              cells tmp1 ltac:(lia) ltac:(lia) ltac:(lia) ltac:(lia)
              Hc Hfluid) as (_ & _ & Hrelax).
  rewrite !total_density_rsum.
  rewrite <- (rsum2_streamed params cells) by lia.
  apply rsum2_ext. intros ii jj Hii Hjj.
  rewrite Hrelax by lia. rewrite cell_sum_relaxed.
  rewrite Hstream by lia. reflexivity.
Qed.

(** C8: on a grid of at least one row and one column without obstacles,
    propagating every cell into the scratch grid and then colliding every
    cell back into the main grid leaves the total of all nine components
    over all cells, computed in exact arithmetic, as it was. *)
Theorem timestep_conserves_mass (params : t_param R) cells tmp_cells obstacles :
  (1 <= nx params)%Z -> (1 <= ny params)%Z ->
  grid_size params cells -> grid_size params tmp_cells ->
  no_obstacles params obstacles 0 (ny params) ->
  let streamed_state :=
  propagate_rebound_rows params obstacles 0 (ny params) (cells, tmp_cells) in
  let collided_state :=
  collision_rows params obstacles 0 (ny params) streamed_state in
  total_density params (fst collided_state) = total_density params cells.
Proof.
  intros Hnx Hny Hc Ht Hfluid. cbv zeta.
  apply kernels_conserve_mass; assumption.
Qed.

(** One step of the 2 x 3 sample grid in exact arithmetic. *)
Lemma timestep_conserves_mass_witness :
  ((1 <= nx sample_params_R)%Z /\ (1 <= ny sample_params_R)%Z
     /\ grid_size sample_params_R (initialise_cells sample_params_R)
     /\ grid_size sample_params_R (initialise_cells sample_params_R)
     /\ no_obstacles sample_params_R (repeat 0%Z 6) 0 (ny sample_params_R))
  /\ total_density sample_params_R
       (fst (collision_rows sample_params_R (repeat 0%Z 6) 0
               (ny sample_params_R)
               (propagate_rebound_rows sample_params_R (repeat 0%Z 6) 0
                  (ny sample_params_R)
                  (initialise_cells sample_params_R,
                   initialise_cells sample_params_R))))
     = total_density sample_params_R (initialise_cells sample_params_R).
Proof.
  assert (Hfluid : no_obstacles sample_params_R (repeat 0%Z 6) 0
                     (ny sample_params_R)).
  { intros ii jj Hjj Hii. simpl in Hjj, Hii.
    assert (Hj : (jj = 0 \/ jj = 1 \/ jj = 2)%Z) by lia.
    assert (Hi : (ii = 0 \/ ii = 1)%Z) by lia.
    destruct Hj as [->|[->| ->]]; destruct Hi as [->| ->]; reflexivity. }
  split.
  - split; [simpl; lia|]. split; [simpl; lia|]. split; [reflexivity|].
    split; [reflexivity|exact Hfluid].
  - apply (timestep_conserves_mass sample_params_R
             (initialise_cells sample_params_R)
             (initialise_cells sample_params_R) (repeat 0%Z 6)).
    + simpl; lia.
    + simpl; lia.
    + reflexivity.
    + reflexivity.
    + exact Hfluid.
Defined.

(** The same with the forcing of a single worker in front: in exact
    arithmetic a whole iteration of the time-step loop conserves mass. *)
Lemma timestep_with_forcing_conserves_mass
  (params : t_param R) cells tmp_cells obstacles :
  (1 <= nx params)%Z -> (2 <= ny params)%Z ->
  grid_size params cells -> grid_size params tmp_cells ->
  no_obstacles params obstacles 0 (ny params) ->
  forall sendbuf incoming,
  total_density params
  (fst (timestep params obstacles 0 1 0 (ny params) sendbuf incoming
            (cells, tmp_cells)))
  = total_density params cells.
Proof.
  intros Hnx Hny Hc Ht Hfluid sendbuf incoming. unfold timestep.
  change (0 =? 1 - 1)%Z with true. cbv beta iota zeta.
  change (halo_exchange_cells (accelerate_flow params cells obstacles) sendbuf
            (nx params) (ny params) 0 (ny params) 0 1 incoming)
    with (accelerate_flow params cells obstacles).
  destruct (accelerate_flow_cells params cells obstacles Hny ltac:(lia) Hc)
    as (Hlen & _ & _).
  assert (Hc' : grid_size params (accelerate_flow params cells obstacles)).
  { unfold grid_size in *. rewrite Hlen. exact Hc. }
  rewrite (kernels_conserve_mass params _ tmp_cells obstacles
             Hnx ltac:(lia) Hc' Ht Hfluid).
  rewrite !total_density_rsum. apply rsum2_ext. intros ii jj _ _.
  apply accelerate_flow_cell_sum; [exact Hny|lia|exact Hc].
Qed.
End MassConservation.


(** ** The rows that [SendRecv] moves *)

Section HaloFacts.
Context {F : Type} `{FloatOps F}.
Implicit Types (cells : list (t_speed F)) (sendbuf recvbuf : list F).

Lemma write_all_speeds cells idx (v : Z -> F) :
  0 <= idx < Z.of_nat (length cells) ->
  for_loop 0 NSPEEDS (fun jj cells => write_speed cells idx jj (v jj)) cells
  = store cells idx
  (mk_speed (v 0) (v 1) (v 2) (v 3) (v 4) (v 5) (v 6) (v 7) (v 8)).
Proof.
  intros Hin. rewrite for_loop_9. rewrite (write_speed_first cells).
  rewrite !write_speed_store by exact Hin.
  f_equal. destruct (cell cells idx). reflexivity.
Qed.

(** Unpacking overwrites row [receiveRow] with the buffer and nothing
    else. *)
Lemma SendRecv_unpack_row cells recvbuf receiveRow width :
  0 <= width -> 0 <= receiveRow ->
  (receiveRow + 1) * width <= Z.of_nat (length cells) ->
  let cells' := SendRecv_unpack cells recvbuf receiveRow width in
  length cells' = length cells
  /\ (forall idx, ~ (receiveRow * width <= idx < (receiveRow + 1) * width) ->
        cell cells' idx = cell cells idx)
  /\ (forall ii jj, 0 <= ii < width -> 0 <= jj < 9 ->
        speeds (cell cells' (ii + receiveRow * width)) jj
        = load (of_int 0) recvbuf (ii * NSPEEDS + jj)).
Proof.
  intros Hw Hr Hlen. cbv zeta.
  pose (Q := fun t : list (t_speed F) =>
    length t = length cells
    /\ forall idx, ~ (receiveRow * width <= idx < (receiveRow + 1) * width) ->
         cell t idx = cell cells idx).
  pose (P := fun (ii : Z) (t : list (t_speed F)) =>
    forall jj, 0 <= jj < 9 ->
    speeds (cell t (ii + receiveRow * width)) jj
    = load (of_int 0) recvbuf (ii * NSPEEDS + jj)).
  assert (G : Q (SendRecv_unpack cells recvbuf receiveRow width)
              /\ forall ii, 0 <= ii < width ->
                   P ii (SendRecv_unpack cells recvbuf receiveRow width)).
  { unfold SendRecv_unpack.
    apply (for_loop_cells (fun _ _ => True) P Q); [exact Hw| | | |].
    - split; [reflexivity|]. intros idx _. reflexivity.
    - intros; exact I.
    - intros ii t Hii [Hq1 Hq2] _.
      assert (Hin : 0 <= ii + receiveRow * width < Z.of_nat (length t))
        by (rewrite Hq1; nia).
      rewrite (write_all_speeds t (ii + receiveRow * width)
                 (fun jj => load (of_int 0) recvbuf (ii * NSPEEDS + jj)) Hin).
      split; [split|].
      + rewrite length_store. exact Hq1.
      + intros idx Hidx. rewrite cell_store_other by nia. apply Hq2. exact Hidx.
      + intros jj Hjj. rewrite cell_store_same by exact Hin.
        destruct (index_cases jj) as [E|[E|[E|[E|[E|[E|[E|[E|[E|E]]]]]]]]];
          try lia; subst jj; reflexivity.
    - intros ii ii' t Hii Hii' Hne [Hq1 Hq2].
      assert (Hin : 0 <= ii + receiveRow * width < Z.of_nat (length t))
        by (rewrite Hq1; nia).
      rewrite (write_all_speeds t (ii + receiveRow * width)
                 (fun jj => load (of_int 0) recvbuf (ii * NSPEEDS + jj)) Hin).
      split; [intros _; exact I|]. unfold P. intros Hp jj Hjj.
      rewrite cell_store_other by lia. apply Hp. exact Hjj. }
  destruct G as [[Hq1 Hq2] Hp]. split; [exact Hq1|]. split; [exact Hq2|].
  intros ii jj Hii Hjj. apply Hp; assumption.
Qed.

(** Packing copies row [sendRow] into the buffer. *)
Lemma SendRecv_pack_row cells sendbuf sendRow width :
  0 <= width -> width * NSPEEDS <= Z.of_nat (length sendbuf) ->
  forall ii jj, 0 <= ii < width -> 0 <= jj < 9 ->
  load (of_int 0) (SendRecv_pack cells sendbuf sendRow width)
  (ii * NSPEEDS + jj)
  = speeds (cell cells (ii + sendRow * width)) jj.
Proof.
  intros Hw Hlen. unfold NSPEEDS in *.
  pose (Q := fun t : list F => length t = length sendbuf).
  pose (P := fun (jj ii : Z) (t : list F) =>
    load (of_int 0) t (ii * 9 + jj)
    = speeds (cell cells (ii + sendRow * width)) jj).
  assert (G : Q (SendRecv_pack cells sendbuf sendRow width)
              /\ forall jj ii, 0 <= ii < width -> 0 <= jj < 9 ->
                   P jj ii (SendRecv_pack cells sendbuf sendRow width)).
  { unfold SendRecv_pack, NSPEEDS.
    apply (rows_loop_cells (fun _ _ _ => True) P Q 0 width 9
             (fun jj ii t =>
                store t (ii * 9 + jj)
                  (speeds (cell cells (ii + sendRow * width)) jj)));
      [exact Hw|lia| | | |].
    - reflexivity.
    - intros; exact I.
    - intros jj ii t Hii Hjj Hq _. unfold Q, P in *. split.
      + rewrite length_store. exact Hq.
      + apply load_store_same. lia.
    - intros jj ii jj' ii' t Hii Hjj Hii' Hjj' Hne Hq.
      split; [intros _; exact I|]. unfold P. intros Hp.
      rewrite load_store_other by lia. exact Hp. }
  destruct G as [_ Hp]. intros ii jj Hii Hjj. apply Hp; assumption.
Qed.

(** X4: a row that one worker packs in [SendRecv] and another unpacks
    arrives unchanged: after the exchange, row [receiveRow] of the receiver
    is row [sendRow] of the sender. *)
Lemma SendRecv_transfers_row cells_sender cells sendbuf sendRow receiveRow width :
  0 <= width -> 0 <= receiveRow ->
  width * NSPEEDS <= Z.of_nat (length sendbuf) ->
  (receiveRow + 1) * width <= Z.of_nat (length cells) ->
  let message := SendRecv_pack cells_sender sendbuf sendRow width in
  let cells' := SendRecv_unpack cells message receiveRow width in
  forall ii, 0 <= ii < width ->
  cell cells' (ii + receiveRow * width)
  = cell cells_sender (ii + sendRow * width).
Proof.
  intros Hw Hr Hbuf Hlen. cbv zeta. intros ii Hii.
  destruct (SendRecv_unpack_row cells
              (SendRecv_pack cells_sender sendbuf sendRow width)
              receiveRow width Hw Hr Hlen) as (_ & _ & Hrow).
  apply t_speed_ext. intros k Hk.
  rewrite Hrow by assumption. apply SendRecv_pack_row; assumption.
Qed.

(** A single worker exchanges nothing. *)
Lemma halo_exchange_cells_single cells sendbuf width height start len rank
  incoming :
  halo_exchange_cells cells sendbuf width height start len rank 1 incoming
  = cells.
Proof. reflexivity. Qed.

End HaloFacts.

(** ** The block decomposition in closed form *)

(** X1: the loop that sets [domain_start] and [domain_size] (in [main], and
    again in [sync_grid] for every other rank) computes the balanced block
    decomposition: with [q = ny / size] and [m = ny mod size], rank [r] starts
    at row [r * q + min r m] and has [q] rows, one more when [r < m]. *)
Theorem domain_block_decomposition ny size rank :
  0 <= ny -> 0 < size -> 0 <= rank < size ->
  domain_start ny size rank = rank * (ny / size) + Z.min rank (ny mod size)
  /\ domain_size ny size rank
     = ny / size + (if rank <? ny mod size then 1 else 0).
Proof.
  intros Hny Hsize Hrank.
  destruct (domain_closed_form size Hsize ny rank Hny ltac:(lia)) as [Hs Hz].
  split; [exact Hs|]. apply Hz. lia.
Qed.

(** Rank 1 of 3 workers on 5 rows: rows 2 and 3. *)
Lemma domain_block_decomposition_witness :
  (0 <= 5 /\ 0 < 3 /\ 0 <= 1 < 3)
  /\ domain_start 5 3 1 = 1 * (5 / 3) + Z.min 1 (5 mod 3)
  /\ domain_size 5 3 1 = 5 / 3 + (if 1 <? 5 mod 3 then 1 else 0).
Proof. split; [lia|]. apply (domain_block_decomposition 5 3 1); lia. Defined.

(** The last of 2 workers on 4 rows owns row 2. *)
Lemma accelerating_rank_owns_forced_row_witness :
  (1 <= 2 /\ 2 * 2 <= 4) /\ owns 4 2 (accelerating_rank 2) (4 - 2).
Proof.
  split; [lia|]. apply (accelerating_rank_owns_forced_row 4 2); lia.
Defined.

(** Rank 0 of 2 workers on 4 rows. *)
Lemma halo_exchange_rows_match_witness :
  (1 < 2 /\ 2 <= 4 /\ 0 <= 0 < 2)
  /\ (domain_start 4 2 0 + domain_size 4 2 0) mod 4
     = domain_start 4 2 ((0 + 1) mod 2)
  /\ (domain_start 4 2 0 - 1 + 4) mod 4
     = domain_start 4 2 ((0 - 1) mod 2) + domain_size 4 2 ((0 - 1) mod 2) - 1.
Proof. split; [lia|]. apply (halo_exchange_rows_match 4 2 0); lia. Defined.

(** Row 0 of the 2 x 3 sample grid, sent into row 2 of an empty grid. *)
Lemma SendRecv_transfers_row_witness :
  let cells_sender := initialise_cells sample_params in
  let cells := repeat (@zero_speed binary32 _) 6 in
  let sendbuf := repeat (of_int 0 : binary32) 18 in
  (0 <= 2 /\ 0 <= 2
   /\ 2 * NSPEEDS <= Z.of_nat (length sendbuf)
   /\ (2 + 1) * 2 <= Z.of_nat (length cells))
  /\ forall ii, 0 <= ii < 2 ->
       cell (SendRecv_unpack cells (SendRecv_pack cells_sender sendbuf 0 2) 2 2)
         (ii + 2 * 2)
       = cell cells_sender (ii + 0 * 2).
Proof.
  cbv zeta. split.
  - split; [lia|]. split; [lia|].
    split; [unfold NSPEEDS; simpl; lia|simpl; lia].
  - apply (SendRecv_transfers_row (initialise_cells sample_params)
             (repeat (@zero_speed binary32 _) 6)
             (repeat (of_int 0 : binary32) 18) 0 2 2).
    + lia.
    + lia.
    + unfold NSPEEDS; simpl; lia.
    + simpl; lia.
Defined.

(** The two rows of the 1 x 2 sample grid, whose row 0 is an obstacle. *)
Lemma propagate_rebound_rows_bounce_back_witness :
  let params := sample_two_rows in
  let cells := initialise_cells params in
  let obstacles := sample_two_rows_obstacles in
  let st := propagate_rebound_rows params obstacles 0 2 (cells, cells) in
  (0 <= 0 /\ 0 <= 2 /\ 0 + 2 <= ny params /\ 0 <= nx params
   /\ grid_size params cells /\ grid_size params cells)
  /\ forall ii jj, 0 <= jj < 0 + 2 -> 0 <= ii < nx params ->
       cell (fst st) (ii + jj * nx params)
       = if blocked obstacles (ii + jj * nx params)
         then bounced (cell cells (ii + jj * nx params))
                (cell (snd st) (ii + jj * nx params))
         else cell cells (ii + jj * nx params).
Proof.
  cbv zeta. split.
  - split; [lia|]. split; [lia|]. split; [simpl; lia|]. split; [simpl; lia|].
    split; reflexivity.
  - apply (propagate_rebound_rows_bounce_back sample_two_rows
             sample_two_rows_obstacles 0 2
             (initialise_cells sample_two_rows)
             (initialise_cells sample_two_rows)).
    + lia.
    + lia.
    + simpl; lia.
    + simpl; lia.
    + reflexivity.
    + reflexivity.
Defined.

(** ** Equilibrium and the moments of a cell, in exact arithmetic *)

Section Moments.
Local Open Scope R_scope.

(** X6: in exact arithmetic the equilibrium that [collision] computes for
    direction [k] of a cell whose density is not zero is the second-order
    expansion [w_k rho (1 + 3 e_k.u + 9/2 (e_k.u)^2 - 3/2 u.u)], with [rho]
    the local density, [u] the velocity of the cell, [w_k] the lattice
    weight and [e_k] the lattice velocity of the direction. *)
Theorem d_equ_second_order (t : t_speed R) (k : Z) :
  (0 <= k < 9)%Z -> local_density t <> 0 ->
  let rho := local_density t in
  let ux := velocity_x t rho in
  let uy := velocity_y t rho in
  let eu := IZR (lattice_ex k) * ux + IZR (lattice_ey k) * uy in
  d_equ t k
  = lattice_weight k * rho
    * (1 + 3 * eu + 9 / 2 * (eu * eu) - 3 / 2 * (ux * ux + uy * uy)).
Proof.
  intros Hk _. cbv zeta. rewrite d_equ_equilibrium by exact Hk.
  rewrite local_density_cell_sum.
  apply (equilibrium_second_order t k Hk).
Qed.

(** The eastward equilibrium of the initial cell. *)
Lemma d_equ_second_order_witness :
  let t := initial_cell sample_params_R in
  let rho := local_density t in
  let ux := velocity_x t rho in
  let uy := velocity_y t rho in
  let eu := IZR (lattice_ex 1) * ux + IZR (lattice_ey 1) * uy in
  ((0 <= 1 < 9)%Z /\ local_density t <> 0)
  /\ d_equ t 1
     = lattice_weight 1 * rho
       * (1 + 3 * eu + 9 / 2 * (eu * eu) - 3 / 2 * (ux * ux + uy * uy)).
Proof.
  cbv zeta.
  assert (Hrho : local_density (initial_cell sample_params_R) <> 0).
  { rewrite local_density_cell_sum. unfold cell_sum. simpl. lra. }
  split; [split; [lia|exact Hrho]|].
  apply (d_equ_second_order (initial_cell sample_params_R) 1);
    [lia|exact Hrho].
Defined.

(** Relaxation towards the equilibrium keeps the momentum of a cell whose
    density is not zero. *)
Lemma momentum_relaxed (omega : R) (t : t_speed R) :
  cell_sum t <> 0 ->
  let r := relaxed omega t in
  sp1 r + sp5 r + sp8 r - (sp3 r + sp6 r + sp7 r)
  = sp1 t + sp5 t + sp8 t - (sp3 t + sp6 t + sp7 t)
  /\ sp2 r + sp5 r + sp6 r - (sp4 r + sp7 r + sp8 r)
     = sp2 t + sp5 t + sp6 t - (sp4 t + sp7 t + sp8 t).
Proof.
  intros Hrho. cbv zeta.
  unfold relaxed, relax. rewrite !equilibrium_code by lia. cbv zeta.
  unfold lattice_weight, directional, velocity_x, velocity_y.
  cbn [sp0 sp1 sp2 sp3 sp4 sp5 sp6 sp7 sp8 Z.eqb Z.leb Z.compare
       Pos.compare Pos.compare_cont Pos.eqb].
  rewrite local_density_cell_sum. unfold cell_sum in *.
  destruct t as [a0 a1 a2 a3 a4 a5 a6 a7 a8].
  cbn [sp0 sp1 sp2 sp3 sp4 sp5 sp6 sp7 sp8 speeds
       fadd fsub fmul fdiv fneg of_int real_ops] in *.
  split; field; exact Hrho.
Qed.

(** X7: in exact arithmetic [collision] conserves the moments of a fluid
    cell whose density is not zero: the cell it writes has the local density
    and the velocity [(u_x, u_y)] of the scratch cell it relaxed. *)
Theorem collision_conserves_moments
    (params : t_param R) cells tmp_cells obstacles ii jj :
  (0 <= ii + jj * nx params < Z.of_nat (length cells))%Z ->
  blocked obstacles (ii + jj * nx params) = false ->
  local_density (cell tmp_cells (ii + jj * nx params)) <> 0 ->
  let t := cell tmp_cells (ii + jj * nx params) in
  let c' := cell (collision ii jj params cells tmp_cells obstacles)
              (ii + jj * nx params) in
  local_density c' = local_density t
  /\ velocity_x c' (local_density c') = velocity_x t (local_density t)
  /\ velocity_y c' (local_density c') = velocity_y t (local_density t).
Proof.
  intros Hin Hfluid Hrho. cbv zeta.
  rewrite collision_store by exact Hin. rewrite Hfluid.
  rewrite cell_store_same by exact Hin.
  set (t := cell tmp_cells (ii + jj * nx params)) in *.
  rewrite local_density_cell_sum in Hrho.
  assert (Hd : local_density (relaxed (omega params) t) = local_density t).
  { rewrite !local_density_cell_sum. apply cell_sum_relaxed. }
  destruct (momentum_relaxed (omega params) t Hrho) as [Hx Hy].
  split; [exact Hd|]. rewrite Hd. unfold velocity_x, velocity_y.
  change (speeds ?c 1) with (sp1 c). change (speeds ?c 2) with (sp2 c).
  change (speeds ?c 3) with (sp3 c). change (speeds ?c 4) with (sp4 c).
  change (speeds ?c 5) with (sp5 c). change (speeds ?c 6) with (sp6 c).
  change (speeds ?c 7) with (sp7 c). change (speeds ?c 8) with (sp8 c).
  cbn [fadd fsub fmul fdiv fneg of_int real_ops].
  cbv zeta in Hx, Hy. rewrite Hx, Hy. split; reflexivity.
Qed.

(** Cell (1, 1) of the 2 x 3 sample grid in its initial state. *)
Lemma collision_conserves_moments_witness :
  let params := sample_params_R in
  let cells := initialise_cells params in
  let obstacles := repeat 0%Z 6 in
  let t := cell cells (1 + 1 * nx params) in
  let c' := cell (collision 1 1 params cells cells obstacles)
              (1 + 1 * nx params) in
  ((0 <= 1 + 1 * nx params < Z.of_nat (length cells))%Z
   /\ blocked obstacles (1 + 1 * nx params) = false
   /\ local_density t <> 0)
  /\ local_density c' = local_density t
  /\ velocity_x c' (local_density c') = velocity_x t (local_density t)
  /\ velocity_y c' (local_density c') = velocity_y t (local_density t).
Proof.
  cbv zeta.
  assert (Hrho : local_density
                   (cell (initialise_cells sample_params_R)
                      (1 + 1 * nx sample_params_R)) <> 0).
  { rewrite local_density_cell_sum. unfold cell_sum. simpl. lra. }
  split.
  - split; [simpl; lia|]. split; [reflexivity|exact Hrho].
  - apply (collision_conserves_moments sample_params_R
             (initialise_cells sample_params_R)
             (initialise_cells sample_params_R) (repeat 0%Z 6) 1 1).
    + simpl; lia.
    + reflexivity.
    + exact Hrho.
Defined.

End Moments.

(** ** Who talks to whom in the halo exchange *)

Lemma rem_pred size rank :
  1 < size -> 0 <= rank < size ->
  Z.rem (size + rank - 1) size = if rank =? 0 then size - 1 else rank - 1.
Proof.
  intros Hsize Hrank. rewrite Z.rem_mod_nonneg by lia.
  destruct (Z.eqb_spec rank 0) as [->|Hne]; symmetry.
  - apply (Z.mod_unique _ _ 0); lia.
  - apply (Z.mod_unique _ _ 1); lia.
Qed.

Lemma rem_succ size rank :
  1 < size -> 0 <= rank < size ->
  Z.rem (size + rank + 1) size = if rank =? size - 1 then 0 else rank + 1.
Proof.
  intros Hsize Hrank. rewrite Z.rem_mod_nonneg by lia.
  destruct (Z.eqb_spec rank (size - 1)) as [->|Hne]; symmetry.
  - apply (Z.mod_unique _ _ 2); lia.
  - apply (Z.mod_unique _ _ 1); lia.
Qed.

(** X9: every message of the halo exchange is expected by its destination.
    When a rank's [k]-th call of [SendRecv] sends to rank [to], then [to] is
    a rank of the run and the [k]-th call of [to] receives from that rank
    with the same tag, whatever rows the two ranks own. *)
Theorem halo_exchange_messages_pair
    height start len start' len' rank size (k : nat) call :
  1 < size -> 0 <= rank < size ->
  halo_exchange height start len rank size !! k = Some call ->
  0 <= sr_to call < size
  /\ exists call',
       halo_exchange height start' len' (sr_to call) size !! k = Some call'
       /\ sr_from call' = rank /\ sr_id call' = sr_id call.
Proof.
  intros Hsize Hrank Hcall. unfold halo_exchange in *.
  destruct (Z.eqb_spec size 1) as [E|_]; [lia|]. cbn [negb] in *.
  pose proof (rem_pred size rank Hsize Hrank) as Hp.
  pose proof (rem_succ size rank Hsize Hrank) as Hs.
  destruct k as [|[|k]]; cbn in Hcall; [| |discriminate Hcall].
  - injection Hcall as <-. cbn [sr_to sr_id].
    assert (Hto : 0 <= Z.rem (size + rank - 1) size < size)
      by (rewrite Hp; destruct (Z.eqb_spec rank 0); lia).
    split; [exact Hto|]. eexists. split; [reflexivity|].
    cbn [sr_from sr_id]. split; [|reflexivity].
    rewrite (rem_succ size _ Hsize Hto), Hp.
    destruct (Z.eqb_spec rank 0) as [->|Hne].
    + rewrite Z.eqb_refl. reflexivity.
    + destruct (Z.eqb_spec (rank - 1) (size - 1)); lia.
  - injection Hcall as <-. cbn [sr_to sr_id].
    assert (Hto : 0 <= Z.rem (size + rank + 1) size < size)
      by (rewrite Hs; destruct (Z.eqb_spec rank (size - 1)); lia).
    split; [exact Hto|]. eexists. split; [reflexivity|].
    cbn [sr_from sr_id]. split; [|reflexivity].
    replace (Z.rem (size + rank + 1) size + size - 1)
      with (size + Z.rem (size + rank + 1) size - 1) by lia.
    rewrite (rem_pred size _ Hsize Hto), Hs.
    destruct (Z.eqb_spec rank (size - 1)) as [->|Hne].
    + reflexivity.
    + destruct (Z.eqb_spec (rank + 1) 0); lia.
Qed.

(** The first message of rank 0 of 3 workers goes to rank 2, which expects
    it. *)
Lemma halo_exchange_messages_pair_witness :
  let call := {| sr_to := 2; sr_from := 1; sr_sendRow := 0;
                 sr_receiveRow := 2; sr_id := 0 |} in
  (1 < 3 /\ 0 <= 0 < 3
   /\ halo_exchange 6 0 2 0 3 !! 0%nat = Some call)
  /\ 0 <= sr_to call < 3
  /\ exists call',
       halo_exchange 6 4 2 (sr_to call) 3 !! 0%nat = Some call'
       /\ sr_from call' = 0 /\ sr_id call' = sr_id call.
Proof.
  cbv zeta. split.
  - split; [lia|]. split; [lia|reflexivity].
  - apply (halo_exchange_messages_pair 6 0 2 4 2 0 3 0%nat).
    + lia.
    + lia.
    + reflexivity.
Defined.

(** ** The rows the halo exchange writes *)

Lemma rows_of_rank_pos ny size rank :
  0 < size -> size <= ny -> 0 <= rank < size ->
  1 <= domain_size ny size rank.
Proof.
  intros Hpos Hny Hrank.
  destruct (domain_closed_form size Hpos ny rank ltac:(lia) ltac:(lia))
    as [_ ->]; [|lia].
  assert (1 <= ny / size) by (apply Z.div_le_lower_bound; lia).
  destruct (Z.ltb_spec rank (ny mod size)); lia.
Qed.

(** With a row for every worker, both rows a worker receives into lie in
    the grid and outside its own range. *)
Lemma receive_rows_outside ny size rank :
  1 < size -> size <= ny -> 0 <= rank < size ->
  let start := domain_start ny size rank in
  let len := domain_size ny size rank in
  (0 <= Z.rem (start + len) ny < ny
   /\ ~ start <= Z.rem (start + len) ny < start + len)
  /\ (0 <= Z.rem (start + ny - 1) ny < ny
      /\ ~ start <= Z.rem (start + ny - 1) ny < start + len).
Proof.
  intros Hsize Hny Hrank. cbv zeta.
  assert (Hpos : 0 < size) by lia. assert (Hny0 : 0 <= ny) by lia.
  pose proof (domain_range_in_grid size Hpos ny rank Hny0 Hrank) as [Hs Hl].
  pose proof (rows_of_rank_pos ny size rank Hpos Hny Hrank) as Hlen.
  pose proof (domain_start_0 size Hpos ny Hny0) as H0.
  pose proof (domain_start_top size Hpos ny Hny0) as Htop.
  split.
  - rewrite Z.rem_mod_nonneg by lia.
    destruct (Z.eq_dec rank (size - 1)) as [->|Hne].
    + pose proof (domain_start_succ size Hpos ny (size - 1) Hny0 ltac:(lia))
        as Hsucc.
      replace (size - 1 + 1) with size in Hsucc by lia.
      rewrite <- Hsucc, Htop, Z.mod_same by lia.
      pose proof (domain_start_succ size Hpos ny 0 Hny0 ltac:(lia)) as H1.
      pose proof (rows_of_rank_pos ny size 0 Hpos Hny ltac:(lia)).
      pose proof (domain_start_mono size Hpos ny (0 + 1) (size - 1) Hny0
                    ltac:(lia) ltac:(lia)).
      lia.
    + pose proof (domain_start_succ size Hpos ny rank Hny0 ltac:(lia))
        as Hsucc.
      pose proof (domain_range_in_grid size Hpos ny (rank + 1) Hny0
                    ltac:(lia)).
      pose proof (rows_of_rank_pos ny size (rank + 1) Hpos Hny ltac:(lia)).
      rewrite Z.mod_small by lia. lia.
  - rewrite Z.rem_mod_nonneg by lia.
    destruct (Z.eq_dec rank 0) as [->|Hne].
    + rewrite H0 in *. replace (0 + ny - 1) with (ny - 1) by lia.
      rewrite Z.mod_small by lia.
      pose proof (domain_start_succ size Hpos ny 0 Hny0 ltac:(lia)) as H1.
      pose proof (domain_range_in_grid size Hpos ny (0 + 1) Hny0
                    ltac:(lia)).
      pose proof (rows_of_rank_pos ny size (0 + 1) Hpos Hny ltac:(lia)).
      lia.
    + pose proof (domain_start_succ size Hpos ny (rank - 1) Hny0 ltac:(lia))
        as Hsucc.
      replace (rank - 1 + 1) with rank in Hsucc by lia.
      pose proof (rows_of_rank_pos ny size (rank - 1) Hpos Hny ltac:(lia)).
      pose proof (domain_start_nonneg size Hpos ny (rank - 1) Hny0
                    ltac:(lia)).
      replace (domain_start ny size rank + ny - 1)
        with (domain_start ny size rank - 1 + 1 * ny) by lia.
      rewrite Z.mod_add by lia. rewrite Z.mod_small by lia. lia.
Qed.

Section HaloFrame.
Context {F : Type} `{FloatOps F}.

Lemma halo_exchange_cells_frame
    (cells : list (t_speed F)) sendbuf width ny size rank incoming idx :
  1 < size -> size <= ny -> 0 <= rank < size -> 0 <= width ->
  Z.of_nat (length cells) = ny * width ->
  let start := domain_start ny size rank in
  let len := domain_size ny size rank in
  start * width <= idx < (start + len) * width ->
  cell (halo_exchange_cells cells sendbuf width ny start len rank size
          incoming) idx
  = cell cells idx.
Proof.
  intros Hsize Hny Hrank Hw Hlen start len Hidx.
  destruct (receive_rows_outside ny size rank Hsize Hny Hrank)
    as [[Hr1 Ho1] [Hr2 Ho2]].
  fold start in Ho1, Ho2, Hr1, Hr2. fold len in Ho1, Ho2, Hr1.
  assert (Hout : forall r, 0 <= r < ny -> ~ start <= r < start + len ->
            ~ r * width <= idx < (r + 1) * width).
  { intros r Hr Ho Hin.
    destruct (Z_lt_le_dec r start) as [Hlt|Hge].
    - assert ((r + 1) * width <= start * width) by nia. lia.
    - assert ((start + len) * width <= r * width) by nia. lia. }
  assert (Hstep : forall (t : list (t_speed F)) recvbuf r,
            0 <= r < ny -> ~ start <= r < start + len ->
            length t = length cells ->
            length (SendRecv_unpack t recvbuf r width) = length cells
            /\ cell (SendRecv_unpack t recvbuf r width) idx = cell t idx).
  { intros t recvbuf r Hr Ho Ht.
    destruct (SendRecv_unpack_row t recvbuf r width Hw ltac:(lia))
      as (Hl & Hother & _).
    - rewrite Ht, Hlen. nia.
    - split; [rewrite Hl; exact Ht|]. apply Hother. apply Hout; assumption. }
  unfold halo_exchange_cells, halo_exchange.
  destruct (Z.eqb_spec size 1) as [E|_]; [lia|]. cbn [negb].
  destruct incoming as [|m1 [|m2 rest]];
    cbn [zip zip_with fold_left fst snd SendRecv sr_receiveRow].
  - reflexivity.
  - apply Hstep; [exact Hr1|exact Ho1|reflexivity].
  - destruct (Hstep cells m1 _ Hr1 Ho1 eq_refl) as [Hl1 Hc1].
    destruct (Hstep _ m2 _ Hr2 Ho2 Hl1) as [_ Hc2].
    rewrite Hc2. exact Hc1.
Qed.

(** X10: the halo exchange never overwrites a row the worker owns.  With
    more than one worker and a row for every worker, every cell of the rows
    [[start, start + len)] of a worker is after [halo_exchange] as it was
    before, whatever messages arrive. *)
Theorem halo_exchange_keeps_owned_rows
    (cells : list (t_speed F)) sendbuf width ny size rank incoming idx :
  1 < size -> size <= ny -> 0 <= rank < size -> 0 <= width ->
  Z.of_nat (length cells) = ny * width ->
  let start := domain_start ny size rank in
  let len := domain_size ny size rank in
  start * width <= idx < (start + len) * width ->
  cell (halo_exchange_cells cells sendbuf width ny start len rank size
          incoming) idx
  = cell cells idx.
Proof. apply halo_exchange_cells_frame. Qed.

(** X23: the forcing survives the halo exchange when there are at least two
    rows per worker.  In an iteration of the last of several workers, every
    cell of row [ny - 2] is after [accelerate_flow] and [halo_exchange] as
    [accelerate_flow] left it, whatever messages arrive. *)
Theorem forcing_survives_halo_exchange
    (params : t_param F) (cells : list (t_speed F)) obstacles sendbuf size
    incoming ii :
  1 < size -> 2 * size <= ny params -> 0 <= nx params ->
  grid_size params cells -> 0 <= ii < nx params ->
  let rank := accelerating_rank size in
  let start := domain_start (ny params) size rank in
  let len := domain_size (ny params) size rank in
  let forced := accelerate_flow params cells obstacles in
  cell (halo_exchange_cells forced sendbuf (nx params) (ny params) start len
          rank size incoming) (ii + (ny params - 2) * nx params)
  = cell forced (ii + (ny params - 2) * nx params).
Proof.
  intros Hsize Hny Hnx Hc Hii. cbv zeta. unfold accelerating_rank.
  destruct (accelerate_flow_cells params cells obstacles ltac:(lia) Hnx Hc)
    as (Hlen & _ & _).
  pose proof (last_rank_owns_forced_row (ny params) size ltac:(lia) Hny)
    as Ho.
  unfold owns in Ho.
  apply (halo_exchange_cells_frame (accelerate_flow params cells obstacles)
           sendbuf (nx params) (ny params) size (size - 1) incoming);
    [exact Hsize|lia|lia|exact Hnx| |].
  - rewrite Hlen. exact Hc.
  - split; nia.
Qed.

End HaloFrame.

(** Rank 0 of 2 workers on the 2 x 3 sample grid owns rows 0 and 1; the
    messages that arrive are all zero. *)
Lemma halo_exchange_keeps_owned_rows_witness :
  let cells := initialise_cells sample_params in
  let zeros := repeat (of_int 0 : binary32) 18 in
  (1 < 2 /\ 2 <= 3 /\ 0 <= 0 < 2 /\ 0 <= 2
   /\ Z.of_nat (length cells) = 3 * 2
   /\ domain_start 3 2 0 * 2 <= 3
      < (domain_start 3 2 0 + domain_size 3 2 0) * 2)
  /\ cell (halo_exchange_cells cells zeros 2 3 (domain_start 3 2 0)
             (domain_size 3 2 0) 0 2 [zeros; zeros]) 3
     = cell cells 3.
Proof.
  cbv zeta.
  assert (E : domain 3 2 0 = (0, 2)) by reflexivity.
  assert (Hidx : domain_start 3 2 0 * 2 <= 3
                 < (domain_start 3 2 0 + domain_size 3 2 0) * 2).
  { unfold domain_start, domain_size. rewrite E. cbn [fst snd]. lia. }
  split.
  - split; [lia|]. split; [lia|]. split; [lia|]. split; [lia|].
    split; [reflexivity|exact Hidx].
  - apply (halo_exchange_keeps_owned_rows (initialise_cells sample_params)
             (repeat (of_int 0 : binary32) 18) 2 3 2 0
             [repeat (of_int 0 : binary32) 18;
              repeat (of_int 0 : binary32) 18] 3).
    + lia.
    + lia.
    + lia.
    + lia.
    + reflexivity.
    + exact Hidx.
Defined.

(** The last of 2 workers on the 1 x 4 sample grid; the messages that
    arrive are all zero. *)
Lemma forcing_survives_halo_exchange_witness :
  let params := sample_four_rows in
  let cells := initialise_cells params in
  let obstacles := repeat 0 4 in
  let zeros := repeat (of_int 0 : binary32) 9 in
  let rank := accelerating_rank 2 in
  let start := domain_start (ny params) 2 rank in
  let len := domain_size (ny params) 2 rank in
  let forced := accelerate_flow params cells obstacles in
  (1 < 2 /\ 2 * 2 <= ny params /\ 0 <= nx params
   /\ grid_size params cells /\ 0 <= 0 < nx params)
  /\ cell (halo_exchange_cells forced zeros (nx params) (ny params) start len
             rank 2 [zeros; zeros]) (0 + (ny params - 2) * nx params)
     = cell forced (0 + (ny params - 2) * nx params).
Proof.
  cbv zeta. split.
  - split; [lia|]. split; [simpl; lia|]. split; [simpl; lia|].
    split; [reflexivity|simpl; lia].
  - apply (forcing_survives_halo_exchange sample_four_rows
             (initialise_cells sample_four_rows) (repeat 0 4)
             (repeat (of_int 0 : binary32) 9) 2
             [repeat (of_int 0 : binary32) 9;
              repeat (of_int 0 : binary32) 9] 0).
    + lia.
    + simpl; lia.
    + simpl; lia.
    + reflexivity.
    + simpl; lia.
Defined.

(** ** More workers than rows *)

(** X11: with more workers than rows, a rank at or beyond the number of
    rows owns nothing ([domain_start = ny], [domain_size = 0]), and the first
    call of [SendRecv] in its halo exchange sends row [ny], one past the
    last row of the grid; its second call sends row [ny - 1], and it
    receives into rows 0 and [ny - 1]. *)
Theorem surplus_rank_sends_past_grid ny size rank :
  1 <= ny -> ny <= rank < size ->
  domain ny size rank = (ny, 0)
  /\ map sr_sendRow
       (halo_exchange ny (domain_start ny size rank)
          (domain_size ny size rank) rank size)
     = [ny; ny - 1]
  /\ map sr_receiveRow
       (halo_exchange ny (domain_start ny size rank)
          (domain_size ny size rank) rank size)
     = [0; ny - 1].
Proof.
  intros Hny Hrank.
  assert (Hpos : 0 < size) by lia.
  destruct (domain_closed_form size Hpos ny rank ltac:(lia) ltac:(lia))
    as [Hs Hz].
  specialize (Hz ltac:(lia)).
  rewrite (Z.div_small ny size), (Z.mod_small ny size) in Hs, Hz by lia.
  destruct (Z.ltb_spec rank ny) as [Hlt|_]; [lia|].
  assert (Es : domain_start ny size rank = ny) by lia.
  assert (Ez : domain_size ny size rank = 0) by lia.
  split.
  - unfold domain_start, domain_size in Es, Ez.
    destruct (domain ny size rank) as [a b]. cbn [fst snd] in Es, Ez.
    congruence.
  - rewrite Es, Ez. unfold halo_exchange.
    destruct (Z.eqb_spec size 1) as [E|_]; [lia|].
    cbn [negb map sr_sendRow sr_receiveRow].
    replace (ny + 0) with ny by lia.
    rewrite Z.rem_same by lia.
    rewrite Z.rem_mod_nonneg by lia.
    replace (ny + ny - 1) with (ny - 1 + 1 * ny) by lia.
    rewrite Z.mod_add, Z.mod_small by lia.
    split; f_equal; f_equal; lia.
Qed.

(** Rank 3 of 4 workers on 2 rows. *)
Lemma surplus_rank_sends_past_grid_witness :
  (1 <= 2 /\ 2 <= 3 < 4)
  /\ domain 2 4 3 = (2, 0)
  /\ map sr_sendRow
       (halo_exchange 2 (domain_start 2 4 3) (domain_size 2 4 3) 3 4)
     = [2; 2 - 1]
  /\ map sr_receiveRow
       (halo_exchange 2 (domain_start 2 4 3) (domain_size 2 4 3) 3 4)
     = [0; 2 - 1].
Proof. split; [lia|]. apply (surplus_rank_sends_past_grid 2 4 3); lia. Defined.

(** ** What [propagate] reads *)

Section PropagateReads.
Context {F : Type} `{FloatOps F}.

(** X12: [propagate] at a cell of row [jj] reads the main grid only in row
    [jj] and in its two periodic neighbour rows, [(jj + 1) % ny] and
    [jj - 1] (row [ny - 1] for [jj = 0]), which lie inside the grid: two
    main grids that agree on the cells of these three rows give the same
    scratch grid.  These are the rows a worker owns and the two rows the
    halo exchange fills. *)
Theorem propagate_reads_neighbour_rows
    (params : t_param F) (cells cells' tmp_cells : list (t_speed F)) ii jj :
  0 <= ii < nx params -> 0 <= jj < ny params ->
  let y_n := Z.rem (jj + 1) (ny params) in
  let y_s := if jj =? 0 then jj + ny params - 1 else jj - 1 in
  (forall x r, 0 <= x < nx params -> r = jj \/ r = y_n \/ r = y_s ->
     cell cells (x + r * nx params) = cell cells' (x + r * nx params)) ->
  (0 <= y_n < ny params /\ 0 <= y_s < ny params)
  /\ propagate ii jj params cells tmp_cells
     = propagate ii jj params cells' tmp_cells.
Proof.
  intros Hii Hjj y_n y_s Hagree.
  pose proof (Z.rem_bound_pos (jj + 1) (ny params) ltac:(lia) ltac:(lia))
    as Hn.
  pose proof (Z.rem_bound_pos (ii + 1) (nx params) ltac:(lia) ltac:(lia))
    as He.
  assert (Hs : 0 <= y_s < ny params)
    by (unfold y_s; destruct (Z.eqb_spec jj 0); lia).
  assert (Hw : 0 <= (if ii =? 0 then ii + nx params - 1 else ii - 1)
               < nx params)
    by (destruct (Z.eqb_spec ii 0); lia).
  split; [split; [exact Hn|exact Hs]|].
  unfold propagate. cbv zeta. fold y_n. fold y_s.
  set (x_e := Z.rem (ii + 1) (nx params)) in *.
  set (x_w := if ii =? 0 then ii + nx params - 1 else ii - 1) in *.
  rewrite (Hagree ii jj Hii ltac:(tauto)), (Hagree x_w jj Hw ltac:(tauto)),
    (Hagree ii y_s Hii ltac:(tauto)), (Hagree x_e jj He ltac:(tauto)),
    (Hagree ii y_n Hii ltac:(tauto)), (Hagree x_w y_s Hw ltac:(tauto)),
    (Hagree x_e y_s He ltac:(tauto)), (Hagree x_e y_n He ltac:(tauto)),
    (Hagree x_w y_n Hw ltac:(tauto)).
  reflexivity.
Qed.

End PropagateReads.

(** Row 0 of the 1 x 4 sample grid, whose neighbour rows are 1 and 3; the
    second grid differs from the first in row 2. *)
Lemma propagate_reads_neighbour_rows_witness :
  let params := sample_four_rows in
  let cells := initialise_cells params in
  let cells' :=
    [initial_cell params; initial_cell params; sample_large_cell;
     initial_cell params] in
  let y_n := Z.rem (0 + 1) (ny params) in
  let y_s := if 0 =? 0 then 0 + ny params - 1 else 0 - 1 in
  (0 <= 0 < nx params /\ 0 <= 0 < ny params
   /\ forall x r, 0 <= x < nx params -> r = 0 \/ r = y_n \/ r = y_s ->
        cell cells (x + r * nx params) = cell cells' (x + r * nx params))
  /\ (0 <= y_n < ny params /\ 0 <= y_s < ny params)
  /\ propagate 0 0 params cells cells = propagate 0 0 params cells' cells.
Proof.
  cbv zeta.
  assert (Hagree : forall x r, 0 <= x < nx sample_four_rows ->
            r = 0 \/ r = Z.rem (0 + 1) (ny sample_four_rows)
            \/ r = (if 0 =? 0 then 0 + ny sample_four_rows - 1 else 0 - 1) ->
            cell (initialise_cells sample_four_rows)
              (x + r * nx sample_four_rows)
            = cell [initial_cell sample_four_rows;
                    initial_cell sample_four_rows; sample_large_cell;
                    initial_cell sample_four_rows]
                (x + r * nx sample_four_rows)).
  { intros x r Hx Hr. simpl in Hx, Hr. assert (x = 0) by lia. subst x.
    destruct Hr as [->|[->| ->]]; reflexivity. }
  split.
  - split; [simpl; lia|]. split; [simpl; lia|exact Hagree].
  - apply (propagate_reads_neighbour_rows sample_four_rows
             (initialise_cells sample_four_rows)
             [initial_cell sample_four_rows; initial_cell sample_four_rows;
              sample_large_cell; initial_cell sample_four_rows]
             (initialise_cells sample_four_rows) 0 0).
    + simpl; lia.
    + simpl; lia.
    + exact Hagree.
Defined.

(** ** Momentum added by the forcing, in exact arithmetic *)

Section ForcingMomentum.
Local Open Scope R_scope.

(** X20: in exact arithmetic, [accelerate_flow] adds [density * accel / 3]
    to the x-momentum [f1 + f5 + f8 - (f3 + f6 + f7)] of every cell of row
    [ny - 2] it forces and nothing to that of a cell it skips, and it leaves
    the y-momentum [f2 + f5 + f6 - (f4 + f7 + f8)] of every cell as it
    was. *)
Theorem accelerate_flow_momentum (params : t_param R) cells obstacles ii :
  (2 <= ny params)%Z -> grid_size params cells ->
  (0 <= ii < nx params)%Z ->
  let idx := (ii + (ny params - 2) * nx params)%Z in
  let w1 := density params * accel params / 9 in
  let w2 := density params * accel params / 36 in
  let c := cell cells idx in
  let c' := cell (accelerate_flow params cells obstacles) idx in
  let applies :=
    negb (blocked obstacles idx)
    && fgt (speeds c 3 - w1) 0
    && fgt (speeds c 6 - w2) 0
    && fgt (speeds c 7 - w2) 0 in
  speeds c' 1 + speeds c' 5 + speeds c' 8
  - (speeds c' 3 + speeds c' 6 + speeds c' 7)
  = speeds c 1 + speeds c 5 + speeds c 8
    - (speeds c 3 + speeds c 6 + speeds c 7)
    + (if applies then density params * accel params / 3 else 0)
  /\ speeds c' 2 + speeds c' 5 + speeds c' 6
     - (speeds c' 4 + speeds c' 7 + speeds c' 8)
     = speeds c 2 + speeds c 5 + speeds c 6
       - (speeds c 4 + speeds c 7 + speeds c 8).
Proof.
  intros Hny Hsize Hii. cbv zeta.
  destruct (accelerate_flow_cells params cells obstacles Hny ltac:(lia) Hsize)
    as (_ & _ & Hrow).
  rewrite (Hrow ii Hii). unfold accelerated, stays_positive.
  unfold forcing_w1, forcing_w2.
  set (c := cell cells (ii + (ny params - 2) * nx params)).
  change (speeds c 3) with (sp3 c). change (speeds c 6) with (sp6 c).
  change (speeds c 7) with (sp7 c). rewrite <- !andb_assoc.
  cbn [fadd fsub fmul fdiv fneg of_int real_ops].
  destruct (negb _ && _).
  - unfold forced. cbn [speeds sp0 sp1 sp2 sp3 sp4 sp5 sp6 sp7 sp8].
    cbn [fadd fsub fmul fdiv fneg of_int real_ops].
    split; field.
  - cbv iota. cbn [speeds]. split; ring.
Qed.

(** The first cell of row 1 of the 2 x 3 sample grid in its initial
    state. *)
Lemma accelerate_flow_momentum_witness :
  let params := sample_params_R in
  let cells := initialise_cells params in
  let obstacles := repeat 0%Z 6 in
  let idx := (0 + (ny params - 2) * nx params)%Z in
  let w1 := density params * accel params / 9 in
  let w2 := density params * accel params / 36 in
  let c := cell cells idx in
  let c' := cell (accelerate_flow params cells obstacles) idx in
  let applies :=
    negb (blocked obstacles idx)
    && fgt (speeds c 3 - w1) 0
    && fgt (speeds c 6 - w2) 0
    && fgt (speeds c 7 - w2) 0 in
  ((2 <= ny params)%Z /\ grid_size params cells /\ (0 <= 0 < nx params)%Z)
  /\ speeds c' 1 + speeds c' 5 + speeds c' 8
     - (speeds c' 3 + speeds c' 6 + speeds c' 7)
     = speeds c 1 + speeds c 5 + speeds c 8
       - (speeds c 3 + speeds c 6 + speeds c 7)
       + (if applies then density params * accel params / 3 else 0)
  /\ speeds c' 2 + speeds c' 5 + speeds c' 6
     - (speeds c' 4 + speeds c' 7 + speeds c' 8)
     = speeds c 2 + speeds c 5 + speeds c 6
       - (speeds c 4 + speeds c 7 + speeds c 8).
Proof.
  cbv zeta. split.
  - split; [simpl; lia|]. split; [reflexivity|simpl; lia].
  - apply (accelerate_flow_momentum sample_params_R
             (initialise_cells sample_params_R) (repeat 0%Z 6) 0).
    + simpl; lia.
    + reflexivity.
    + simpl; lia.
Defined.

End ForcingMomentum.

(** ** The time-step loop of a single worker, in exact arithmetic *)

Section DriverLoop.
Local Open Scope R_scope.

(** One iteration of a single worker on a grid without obstacles keeps the
    two grids well-formed and the total density as it was. *)
Lemma timestep_single_fluid
    (params : t_param R) cells tmp_cells obstacles sendbuf incoming :
  (1 <= nx params)%Z -> (2 <= ny params)%Z ->
  grid_size params cells -> grid_size params tmp_cells ->
  no_obstacles params obstacles 0 (ny params) ->
  let st := timestep params obstacles 0 1 0 (ny params) sendbuf incoming
              (cells, tmp_cells) in
  grid_size params (fst st) /\ grid_size params (snd st)
  /\ total_density params (fst st) = total_density params cells.
Proof.
  intros Hnx Hny Hc Ht Hfluid. cbv zeta.
  split; [|split];
    [| |apply timestep_with_forcing_conserves_mass; assumption].
  all: unfold timestep; change (0 =? 1 - 1)%Z with true; cbv beta iota zeta.
  all: change (halo_exchange_cells (accelerate_flow params cells obstacles)
                 sendbuf (nx params) (ny params) 0 (ny params) 0 1 incoming)
         with (accelerate_flow params cells obstacles).
  all: destruct (accelerate_flow_cells params cells obstacles Hny ltac:(lia) Hc)
         as (Hlen & _ & _).
  all: assert (Hc' : grid_size params (accelerate_flow params cells obstacles))
         by (unfold grid_size in *; rewrite Hlen; exact Hc).
  all: destruct (propagate_rebound_rows_fluid params obstacles 0 (ny params)
                   (accelerate_flow params cells obstacles) tmp_cells
                   ltac:(lia) ltac:(lia) ltac:(lia) ltac:(lia)
                   Hc' Ht Hfluid) as (Hcells & Hlen2 & _).
  all: destruct (propagate_rebound_rows params obstacles 0 (ny params)
                   (accelerate_flow params cells obstacles, tmp_cells))
         as [cells1 tmp1].
  all: cbn [fst snd] in Hcells, Hlen2; subst cells1.
  all: destruct (collision_rows_fluid params obstacles 0 (ny params)
                   (accelerate_flow params cells obstacles) tmp1
                   ltac:(lia) ltac:(lia) ltac:(lia) ltac:(lia)
                   Hc' Hfluid) as (Hsnd & Hlenf & _).
  - unfold grid_size in *. rewrite Hlenf. exact Hc'.
  - rewrite Hsnd. unfold grid_size in *. rewrite Hlen2. exact Ht.
Qed.

(** X8: in exact arithmetic the whole time-step loop of a single worker
    conserves mass.  On a grid of at least one column and two rows without
    obstacles, after all [maxIters] iterations (forcing, propagation,
    collision, and the average velocity recorded in [av_vels]) the total
    density of the grid is the one it started with. *)
Theorem main_loop_conserves_mass
    (params : t_param R) cells tmp_cells obstacles sendbuf incoming others
    av_vels :
  (1 <= nx params)%Z -> (2 <= ny params)%Z ->
  grid_size params cells -> grid_size params tmp_cells ->
  no_obstacles params obstacles 0 (ny params) ->
  total_density params
    (fst (fst (main_loop params obstacles 0 1 0 (ny params) sendbuf incoming
                 others (cells, tmp_cells) av_vels)))
  = total_density params cells.
Proof.
  intros Hnx Hny Hc Ht Hfluid. unfold main_loop.
  destruct (Z_lt_le_dec (maxIters params) 0) as [Hneg|Hpos].
  - rewrite for_loop_empty by lia. reflexivity.
  - pose (Inv := fun (_ : Z)
        (s : (list (t_speed R) * list (t_speed R)) * list R) =>
        grid_size params (fst (fst s)) /\ grid_size params (snd (fst s))
        /\ total_density params (fst (fst s)) = total_density params cells).
    assert (G : Inv (maxIters params)
                  (for_loop 0 (maxIters params)
                     (fun tt state =>
                        let '(st, av_vels0) := state in
                        let st0 :=
                          timestep params obstacles 0 1 0 (ny params) sendbuf
                            (incoming tt) st in
                        (st0,
                         store av_vels0 tt
                           (av_velocity params (fst st0) obstacles 0 0
                              (ny params) 1 (others tt))))
                     (cells, tmp_cells, av_vels))).
    { apply for_loop_inv; [exact Hpos| |].
      - split; [exact Hc|]. split; [exact Ht|reflexivity].
      - intros tt [[c t] av] _ (Hc1 & Ht1 & Hd1). cbn [fst snd] in *.
        destruct (timestep_single_fluid params c t obstacles sendbuf
                    (incoming tt) Hnx Hny Hc1 Ht1 Hfluid) as (Hc2 & Ht2 & Hd2).
        unfold Inv. cbn [fst snd].
        split; [exact Hc2|]. split; [exact Ht2|].
        rewrite Hd2. exact Hd1. }
    destruct G as (_ & _ & Hd). exact Hd.
Qed.

(** The run of the 2 x 3 sample grid. *)
Lemma main_loop_conserves_mass_witness :
  let params := sample_params_R in
  let cells := initialise_cells params in
  let obstacles := repeat 0%Z 6 in
  ((1 <= nx params)%Z /\ (2 <= ny params)%Z
   /\ grid_size params cells /\ grid_size params cells
   /\ no_obstacles params obstacles 0 (ny params))
  /\ total_density params
       (fst (fst (main_loop params obstacles 0 1 0 (ny params) []
                    (fun _ => []) (fun _ => []) (cells, cells) [0])))
     = total_density params cells.
Proof.
  cbv zeta.
  assert (Hfluid : no_obstacles sample_params_R (repeat 0%Z 6) 0
                     (ny sample_params_R)).
  { intros ii jj Hjj Hii. simpl in Hjj, Hii.
    assert (Hj : (jj = 0 \/ jj = 1 \/ jj = 2)%Z) by lia.
    assert (Hi : (ii = 0 \/ ii = 1)%Z) by lia.
    destruct Hj as [->|[->| ->]]; destruct Hi as [->| ->]; reflexivity. }
  split.
  - split; [simpl; lia|]. split; [simpl; lia|]. split; [reflexivity|].
    split; [reflexivity|exact Hfluid].
  - apply (main_loop_conserves_mass sample_params_R
             (initialise_cells sample_params_R)
             (initialise_cells sample_params_R) (repeat 0%Z 6) []
             (fun _ => []) (fun _ => []) [0]).
    + simpl; lia.
    + simpl; lia.
    + reflexivity.
    + reflexivity.
    + exact Hfluid.
Defined.

End DriverLoop.

(** ** [initialise]: the grid of cells *)

Lemma lookup_repeat_lt {A : Type} (c : A) (n i : nat) :
  (i < n)%nat -> repeat c n !! i = Some c.
Proof.
  revert i. induction n as [|n IH]; intros i Hi; [lia|].
  destruct i as [|i]; [reflexivity|]. cbn. apply IH. lia.
Qed.

Section InitialiseFacts.
Context {F : Type} `{FloatOps F}.
Implicit Types (params : t_param F) (cells : list (t_speed F)).

Lemma cell_repeat (c : t_speed F) n idx :
  0 <= idx < Z.of_nat n -> cell (repeat c n) idx = c.
Proof.
  intros Hidx. unfold cell, load.
  destruct (Z.ltb_spec idx 0); [lia|].
  rewrite lookup_repeat_lt by lia. reflexivity.
Qed.

(** Two grids of the same length with the same cells are the same grid. *)
Lemma cells_ext cells1 cells2 :
  length cells1 = length cells2 ->
  (forall idx, 0 <= idx < Z.of_nat (length cells1) ->
     cell cells1 idx = cell cells2 idx) ->
  cells1 = cells2.
Proof.
  intros Hlen Hcell.
  apply (list_eq_same_length cells1 cells2 (length cells1));
    [symmetry; exact Hlen|reflexivity|].
  intros i x y Hi Hx Hy.
  specialize (Hcell (Z.of_nat i) ltac:(lia)).
  unfold cell, load in Hcell.
  destruct (Z.ltb_spec (Z.of_nat i) 0); [lia|].
  rewrite Nat2Z.id, Hx, Hy in Hcell. exact Hcell.
Qed.

(** The nine assignments of one iteration set the cell to [initial_cell]. *)
Lemma initialise_densities_body params cells idx :
  0 <= idx < Z.of_nat (length cells) ->
  (let w0 := (density params * of_int 4 / of_int 9)%fl in
   let w1 := (density params / of_int 9)%fl in
   let w2 := (density params / of_int 36)%fl in
   let cells := write_speed cells idx 0 w0 in
   let cells := write_speed cells idx 1 w1 in
   let cells := write_speed cells idx 2 w1 in
   let cells := write_speed cells idx 3 w1 in
   let cells := write_speed cells idx 4 w1 in
   let cells := write_speed cells idx 5 w2 in
   let cells := write_speed cells idx 6 w2 in
   let cells := write_speed cells idx 7 w2 in
   let cells := write_speed cells idx 8 w2 in
   cells)
  = store cells idx (initial_cell params).
Proof.
  intros Hin. cbv zeta. rewrite (write_speed_first cells).
  rewrite !write_speed_store by exact Hin.
  f_equal. destruct (cell cells idx). reflexivity.
Qed.

Lemma initialise_densities_cells params cells :
  0 <= nx params -> 0 <= ny params -> grid_size params cells ->
  initialise_densities params cells = initialise_cells params.
Proof.
  intros Hnx Hny Hc. unfold grid_size in Hc.
  pose (Q := fun t : list (t_speed F) => length t = length cells).
  pose (P := fun (ii jj : Z) (t : list (t_speed F)) =>
    cell t (ii + jj * nx params) = initial_cell params).
  assert (G : Q (initialise_densities params cells)
              /\ forall ii jj, 0 <= jj < ny params -> 0 <= ii < nx params ->
                   P ii jj (initialise_densities params cells)).
  { unfold initialise_densities. cbv zeta.
    apply (rows_loop_cells (fun _ _ _ => True) P Q 0 (ny params) (nx params)
             (fun ii jj t =>
                write_speed (write_speed (write_speed (write_speed
                  (write_speed (write_speed (write_speed (write_speed
                  (write_speed t (ii + jj * nx params) 0
                     (density params * of_int 4 / of_int 9)%fl)
                     (ii + jj * nx params) 1 (density params / of_int 9)%fl)
                     (ii + jj * nx params) 2 (density params / of_int 9)%fl)
                     (ii + jj * nx params) 3 (density params / of_int 9)%fl)
                     (ii + jj * nx params) 4 (density params / of_int 9)%fl)
                     (ii + jj * nx params) 5 (density params / of_int 36)%fl)
                     (ii + jj * nx params) 6 (density params / of_int 36)%fl)
                     (ii + jj * nx params) 7 (density params / of_int 36)%fl)
                     (ii + jj * nx params) 8 (density params / of_int 36)%fl));
      [exact Hny|exact Hnx| | | |].
    - reflexivity.
    - intros; exact I.
    - intros ii jj t Hjj Hii Hq _. unfold Q in Hq.
      pose proof (index_in_grid (nx params) (ny params) ii jj Hii Hjj).
      assert (Hin : 0 <= ii + jj * nx params < Z.of_nat (length t)) by lia.
      pose proof (initialise_densities_body params t _ Hin) as E.
      cbv zeta in E. rewrite E. split.
      + unfold Q. rewrite length_store. exact Hq.
      + unfold P. apply cell_store_same. exact Hin.
    - intros ii jj ii' jj' t Hjj Hii Hjj' Hii' Hne Hq. unfold Q in Hq.
      pose proof (index_in_grid (nx params) (ny params) ii jj Hii Hjj).
      assert (Hin : 0 <= ii + jj * nx params < Z.of_nat (length t)) by lia.
      pose proof (initialise_densities_body params t _ Hin) as E.
      cbv zeta in E. rewrite E.
      split; [intros _; exact I|]. unfold P. intros Hp.
      rewrite cell_store_other; [exact Hp|]. apply index_inj; assumption. }
  destruct G as [Hq Hp]. unfold Q in Hq.
  assert (Hlen : length (initialise_cells params) = length cells).
  { unfold initialise_cells. rewrite repeat_length. lia. }
  apply cells_ext; [rewrite Hq, Hlen; reflexivity|].
  intros idx Hidx. rewrite Hq, Hc in Hidx.
  unfold initialise_cells. rewrite cell_repeat by lia.
  destruct (Z.eq_dec (nx params) 0) as [E0|Hne]; [rewrite E0 in Hidx; lia|].
  pose proof (Z.div_mod idx (nx params) Hne) as Hdm.
  pose proof (Z.mod_pos_bound idx (nx params) ltac:(lia)) as Hm.
  replace idx with (idx mod nx params + idx / nx params * nx params) by lia.
  apply Hp; [|exact Hm].
  split; [apply Z.div_pos; lia|].
  apply Z.div_lt_upper_bound; lia.
Qed.

(** X14: [initialise] gives every cell of the grid the same nine values,
    whatever the allocated memory held before: [density * 4/9] at rest,
    [density / 9] along the axes and [density / 36] along the diagonals. *)
Theorem initialise_densities_all_cells params cells :
  0 <= nx params -> 0 <= ny params -> grid_size params cells ->
  initialise_densities params cells
  = repeat (initial_cell params) (Z.to_nat (ny params * nx params))
  /\ forall ii jj, 0 <= ii < nx params -> 0 <= jj < ny params ->
       cell (initialise_densities params cells) (ii + jj * nx params)
       = mk_speed (density params * of_int 4 / of_int 9)%fl
           (density params / of_int 9)%fl (density params / of_int 9)%fl
           (density params / of_int 9)%fl (density params / of_int 9)%fl
           (density params / of_int 36)%fl (density params / of_int 36)%fl
           (density params / of_int 36)%fl (density params / of_int 36)%fl.
Proof.
  intros Hnx Hny Hc.
  rewrite (initialise_densities_cells params cells Hnx Hny Hc).
  split; [reflexivity|]. intros ii jj Hii Hjj.
  unfold initialise_cells. rewrite cell_repeat; [reflexivity|].
  pose proof (index_in_grid (nx params) (ny params) ii jj Hii Hjj). lia.
Qed.

End InitialiseFacts.

(** The 1 x 2 sample grid, allocated over two cells of other values. *)
Lemma initialise_densities_all_cells_witness :
  let params := sample_large in
  let cells := [sample_large_cell; sample_large_cell] in
  (0 <= nx params /\ 0 <= ny params /\ grid_size params cells)
  /\ initialise_densities params cells
     = repeat (initial_cell params) (Z.to_nat (ny params * nx params))
  /\ forall ii jj, 0 <= ii < nx params -> 0 <= jj < ny params ->
       cell (initialise_densities params cells) (ii + jj * nx params)
       = mk_speed (density params * of_int 4 / of_int 9)%fl
           (density params / of_int 9)%fl (density params / of_int 9)%fl
           (density params / of_int 9)%fl (density params / of_int 9)%fl
           (density params / of_int 36)%fl (density params / of_int 36)%fl
           (density params / of_int 36)%fl (density params / of_int 36)%fl.
Proof.
  cbv zeta. split.
  - split; [simpl; lia|]. split; [simpl; lia|reflexivity].
  - apply (initialise_densities_all_cells sample_large
             [sample_large_cell; sample_large_cell]).
    + simpl; lia.
    + simpl; lia.
    + reflexivity.
Defined.

(** ** The total density after [initialise], in exact arithmetic *)

Section InitialDensity.
Local Open Scope R_scope.

Lemma rsum_const n (c : R) : (0 <= n)%Z -> rsum n (fun _ => c) = IZR n * c.
Proof.
  revert n. apply natlike_ind.
  - rewrite rsum_0. simpl. ring.
  - intros n Hn IH. replace (Z.succ n) with (n + 1)%Z by lia.
    rewrite rsum_snoc by lia. rewrite IH, plus_IZR. ring.
Qed.

(** X21: in exact arithmetic the total density of the grid that
    [initialise] sets up is [ny * nx * density]: every cell holds the
    density of the parameter file. *)
Theorem total_density_initial (params : t_param R) cells :
  (0 <= nx params)%Z -> (0 <= ny params)%Z -> grid_size params cells ->
  total_density params (initialise_densities params cells)
  = IZR (ny params * nx params) * density params.
Proof.
  intros Hnx Hny Hc.
  rewrite (initialise_densities_cells params cells Hnx Hny Hc).
  rewrite total_density_rsum.
  rewrite (rsum2_ext (nx params) (ny params) _
             (fun _ _ => density params)).
  - rewrite !rsum_const by lia. rewrite mult_IZR. ring.
  - intros ii jj Hii Hjj. unfold initialise_cells.
    rewrite cell_repeat
      by (pose proof (index_in_grid (nx params) (ny params) ii jj Hii Hjj);
          lia).
    unfold cell_sum, initial_cell.
    cbn [sp0 sp1 sp2 sp3 sp4 sp5 sp6 sp7 sp8
         fadd fsub fmul fdiv fneg of_int real_ops].
    field.
Qed.

(** The 2 x 3 sample grid. *)
Lemma total_density_initial_witness :
  let params := sample_params_R in
  let cells := repeat (@zero_speed R _) 6 in
  ((0 <= nx params)%Z /\ (0 <= ny params)%Z /\ grid_size params cells)
  /\ total_density params (initialise_densities params cells)
     = IZR (ny params * nx params) * density params.
Proof.
  cbv zeta. split.
  - split; [simpl; lia|]. split; [simpl; lia|reflexivity].
  - apply (total_density_initial sample_params_R
             (repeat (@zero_speed R _) 6)).
    + simpl; lia.
    + simpl; lia.
    + reflexivity.
Defined.

End InitialDensity.

(** ** [initialise]: the obstacle map *)

Lemma read_obstacles_cons nx ny xx yy is_blocked rest obstacles :
  0 <= xx < nx -> 0 <= yy < ny -> is_blocked = 1 ->
  read_obstacles nx ny (Some (xx, yy, is_blocked) :: rest) obstacles
  = read_obstacles nx ny rest (store obstacles (xx + yy * nx) 1).
Proof.
  intros Hx Hy ->. cbn [read_obstacles].
  destruct (Z.ltb_spec xx 0); [lia|].
  destruct (Z.gtb_spec xx (nx - 1)); [lia|].
  destruct (Z.ltb_spec yy 0); [lia|].
  destruct (Z.gtb_spec yy (ny - 1)); [lia|].
  reflexivity.
Qed.

(** A call of [fscanf] that passes the checks of the reading loop. *)
Lemma read_obstacles_checks nx ny xx yy is_blocked rest obstacles obstacles' :
  read_obstacles nx ny (Some (xx, yy, is_blocked) :: rest) obstacles
  = inr obstacles' ->
  0 <= xx < nx /\ 0 <= yy < ny /\ is_blocked = 1.
Proof.
  cbn [read_obstacles].
  destruct (Z.ltb_spec xx 0); [discriminate|].
  destruct (Z.gtb_spec xx (nx - 1)); [discriminate|].
  destruct (Z.ltb_spec yy 0); [discriminate|].
  destruct (Z.gtb_spec yy (ny - 1)); [discriminate|].
  destruct (Z.eqb_spec is_blocked 1); [|discriminate].
  intros _. lia.
Qed.

(** X15: [initialise] reads the obstacle file to its end without an error
    exactly when every call of [fscanf] on it converts three integers
    [x y b] with [x] in [[0, nx)], [y] in [[0, ny)] and [b = 1]; otherwise it
    ends the program with an error.  The calls skip white space, so it is
    the integers of the file taken three at a time that count, not its
    lines. *)
Theorem initialise_obstacles_accepts nx ny scans obstacles :
  (exists obstacles', initialise_obstacles nx ny scans obstacles
                      = inr obstacles')
  <-> Forall (fun scan => exists xx yy,
                scan = Some (xx, yy, 1) /\ 0 <= xx < nx /\ 0 <= yy < ny)
        scans.
Proof.
  unfold initialise_obstacles.
  generalize (clear_obstacles nx ny obstacles). clear obstacles.
  induction scans as [|scan rest IH]; intros obstacles.
  - split; [intros _; constructor|]. intros _. eexists. reflexivity.
  - destruct scan as [[[xx yy] is_blocked]|].
    + split.
      * intros [obstacles' E].
        destruct (read_obstacles_checks _ _ _ _ _ _ _ _ E) as (Hx & Hy & ->).
        rewrite read_obstacles_cons in E by (assumption || reflexivity).
        constructor; [exists xx, yy; auto|].
        apply (IH (store obstacles (xx + yy * nx) 1)). eexists. exact E.
      * intros Hall. inversion Hall as [|? ? Hscan Hrest]; subst.
        destruct Hscan as (x & y & E & Hx & Hy). injection E as -> -> ->.
        rewrite read_obstacles_cons by (assumption || reflexivity).
        apply IH. exact Hrest.
    + split.
      * intros [obstacles' E]. discriminate E.
      * intros Hall. inversion Hall as [|? ? Hscan _]; subst.
        destruct Hscan as (x & y & E & _). discriminate E.
Qed.

Lemma read_obstacles_map nx ny scans obstacles obstacles' :
  read_obstacles nx ny scans obstacles = inr obstacles' ->
  length obstacles' = length obstacles
  /\ forall ii jj, 0 <= ii < nx ->
       0 <= ii + jj * nx < Z.of_nat (length obstacles) ->
       load 0 obstacles' (ii + jj * nx)
       = if decide (Some (ii, jj, 1) ∈ scans) then 1
         else load 0 obstacles (ii + jj * nx).
Proof.
  revert obstacles. induction scans as [|scan rest IH]; intros obstacles E.
  - cbn in E. injection E as <-. split; [reflexivity|].
    intros ii jj _ _. rewrite decide_False; [reflexivity|].
    apply not_elem_of_nil.
  - destruct scan as [[[xx yy] is_blocked]|]; [|discriminate E].
    destruct (read_obstacles_checks _ _ _ _ _ _ _ _ E) as (Hx & Hy & ->).
    rewrite read_obstacles_cons in E by (assumption || reflexivity).
    destruct (IH _ E) as [Hlen Hmap]. rewrite length_store in Hlen, Hmap.
    split; [exact Hlen|]. intros ii jj Hii Hin.
    rewrite (Hmap ii jj Hii Hin).
    destruct (decide (Some (ii, jj, 1) ∈ rest)) as [Hr|Hr].
    + rewrite decide_True; [reflexivity|]. right. exact Hr.
    + destruct (decide (Some (ii, jj, 1) ∈ Some (xx, yy, 1) :: rest))
        as [Hl|Hl].
      * apply elem_of_cons in Hl. destruct Hl as [Hl|Hl]; [|contradiction].
        injection Hl as -> ->. apply load_store_same. exact Hin.
      * apply load_store_other. intros Heq.
        assert (jj = yy) by nia. subst yy.
        assert (ii = xx) by lia. subst xx.
        apply Hl. left.
Qed.

Lemma clear_obstacles_zero nx ny obstacles :
  0 <= nx -> 0 <= ny -> Z.of_nat (length obstacles) = ny * nx ->
  length (clear_obstacles nx ny obstacles) = length obstacles
  /\ forall ii jj, 0 <= ii < nx -> 0 <= jj < ny ->
       load 0 (clear_obstacles nx ny obstacles) (ii + jj * nx) = 0.
Proof.
  intros Hnx Hny Hlen.
  pose (Q := fun t : list Z => length t = length obstacles).
  pose (P := fun (ii jj : Z) (t : list Z) => load 0 t (ii + jj * nx) = 0).
  assert (G : Q (clear_obstacles nx ny obstacles)
              /\ forall ii jj, 0 <= jj < ny -> 0 <= ii < nx ->
                   P ii jj (clear_obstacles nx ny obstacles)).
  { unfold clear_obstacles.
    apply (rows_loop_cells (fun _ _ _ => True) P Q 0 ny nx
             (fun ii jj t => store t (ii + jj * nx) 0));
      [exact Hny|exact Hnx| | | |].
    - reflexivity.
    - intros; exact I.
    - intros ii jj t Hjj Hii Hq _. unfold Q, P in *. split.
      + rewrite length_store. exact Hq.
      + apply load_store_same.
        pose proof (index_in_grid nx ny ii jj Hii Hjj). lia.
    - intros ii jj ii' jj' t Hjj Hii Hjj' Hii' Hne Hq.
      split; [intros _; exact I|]. unfold P. intros Hp.
      rewrite load_store_other; [exact Hp|]. apply index_inj; assumption. }
  destruct G as [Hq Hp]. split; [exact Hq|].
  intros ii jj Hii Hjj. apply Hp; assumption.
Qed.

(** X16: when [initialise] reads the obstacle file without an error, the map
    it builds has [ny * nx] entries, and the entry of cell [(ii, jj)] is 1
    when some call of [fscanf] on the file converted the triple [ii jj 1]
    and 0 otherwise, whatever the allocated memory held before and however
    often or in whatever order the triples occur. *)
Theorem initialise_obstacles_map nx ny scans obstacles obstacles' :
  0 <= nx -> 0 <= ny -> Z.of_nat (length obstacles) = ny * nx ->
  initialise_obstacles nx ny scans obstacles = inr obstacles' ->
  Z.of_nat (length obstacles') = ny * nx
  /\ forall ii jj, 0 <= ii < nx -> 0 <= jj < ny ->
       load 0 obstacles' (ii + jj * nx)
       = if decide (Some (ii, jj, 1) ∈ scans) then 1 else 0.
Proof.
  intros Hnx Hny Hlen E. unfold initialise_obstacles in E.
  destruct (clear_obstacles_zero nx ny obstacles Hnx Hny Hlen) as [Hl0 Hzero].
  destruct (read_obstacles_map _ _ _ _ _ E) as [Hl Hmap].
  split; [rewrite Hl, Hl0; exact Hlen|].
  intros ii jj Hii Hjj.
  pose proof (index_in_grid nx ny ii jj Hii Hjj).
  rewrite (Hmap ii jj Hii) by (rewrite Hl0; lia).
  rewrite (Hzero ii jj Hii Hjj). reflexivity.
Qed.

(** A 2 x 3 grid with the cells (1, 2) and (0, 0) blocked, the first of
    them converted twice. *)
Lemma initialise_obstacles_map_witness :
  let scans := [Some (1, 2, 1); Some (0, 0, 1); Some (1, 2, 1)] in
  let obstacles := [7; 7; 7; 7; 7; 7] in
  let obstacles' := [1; 0; 0; 0; 0; 1] in
  (0 <= 2 /\ 0 <= 3 /\ Z.of_nat (length obstacles) = 3 * 2
   /\ initialise_obstacles 2 3 scans obstacles = inr obstacles')
  /\ Z.of_nat (length obstacles') = 3 * 2
  /\ forall ii jj, 0 <= ii < 2 -> 0 <= jj < 3 ->
       load 0 obstacles' (ii + jj * 2)
       = if decide (Some (ii, jj, 1) ∈ scans) then 1 else 0.
Proof.
  cbv zeta. split.
  - split; [lia|]. split; [lia|]. split; reflexivity.
  - apply (initialise_obstacles_map 2 3
             [Some (1, 2, 1); Some (0, 0, 1); Some (1, 2, 1)]
             [7; 7; 7; 7; 7; 7] [1; 0; 0; 0; 0; 1]).
    + lia.
    + lia.
    + reflexivity.
    + reflexivity.
Defined.

(** ** [write_values] *)

Section OutputFacts.
Context {F : Type} `{FloatOps F}.
Implicit Types (params : t_param F) (cells : list (t_speed F)).
Implicit Types (obstacles : list Z).

(** X17: [write_values] writes one line per cell to the final-state file,
    [ny * nx] lines in all, in row-major order: line number [ii + jj * nx]
    (from 0) is the line of cell [(ii, jj)]. *)
Theorem write_values_state_lines params cells obstacles :
  0 <= nx params -> 0 <= ny params ->
  let lines := write_values_state params cells obstacles in
  Z.of_nat (length lines) = ny params * nx params
  /\ forall ii jj, 0 <= ii < nx params -> 0 <= jj < ny params ->
       lines !! Z.to_nat (ii + jj * nx params)
       = Some (write_values_line params cells obstacles ii jj).
Proof.
  intros Hnx Hny. cbv zeta. unfold write_values_state.
  set (line := write_values_line params cells obstacles).
  pose (Inv := fun (jj ii : Z) (t : list (@state_line F)) =>
    Z.of_nat (length t) = ii + jj * nx params
    /\ forall ii' jj', 0 <= ii' < nx params -> 0 <= jj' ->
         jj' < jj \/ (jj' = jj /\ ii' < ii) ->
         t !! Z.to_nat (ii' + jj' * nx params) = Some (line ii' jj')).
  assert (G : Inv (ny params) 0
                (for_loop 0 (ny params) (fun jj lines =>
                   for_loop 0 (nx params) (fun ii lines =>
                     lines ++ [line ii jj]) lines) [])).
  { apply (for_loop_inv (fun jj t => Inv jj 0 t)); [exact Hny| |].
    - split; [reflexivity|]. intros ii' jj' Hii' Hjj' Hb. lia.
    - intros jj t Hjj Hinv.
      assert (Hrow : Inv jj (nx params)
                (for_loop 0 (nx params) (fun ii lines =>
                   lines ++ [line ii jj]) t)).
      { apply (for_loop_inv (fun ii t0 => Inv jj ii t0));
          [exact Hnx|exact Hinv|].
        intros ii t0 Hii [Hl Hp]. split.
        - rewrite length_app. cbn [length]. lia.
        - intros ii' jj' Hii' Hjj' Hb.
          destruct (Z.eq_dec jj' jj) as [->|Hnj].
          + destruct (Z.eq_dec ii' ii) as [->|Hni].
            * rewrite lookup_app_r by lia.
              replace (Z.to_nat (ii + jj * nx params) - length t0)%nat
                with 0%nat by lia.
              reflexivity.
            * assert (0 <= jj * nx params) by nia.
              rewrite lookup_app_l by lia. apply Hp; lia.
          + assert (0 <= jj' * nx params) by nia.
            assert ((jj' + 1) * nx params <= jj * nx params) by nia.
            rewrite lookup_app_l by lia. apply Hp; lia. }
      destruct Hrow as [Hl Hp]. split; [lia|].
      intros ii' jj' Hii' Hjj' Hb. apply Hp; lia. }
  destruct G as [Hl Hp]. split; [lia|].
  intros ii jj Hii Hjj. apply Hp; lia.
Qed.

(** X18: the last column of a line, [obstacles[ii * nx + jj]], is read
    inside the obstacle map for every cell exactly when the grid has no more
    columns than rows; on a grid with more columns than rows the index
    passes the end of the map. *)
Theorem write_values_flag_in_bounds params :
  1 <= nx params -> 1 <= ny params ->
  (forall cells obstacles ii jj,
     sl_obstacle (write_values_line params cells obstacles ii jj)
     = load 0 obstacles (ii * nx params + jj))
  /\ ((forall ii jj, 0 <= ii < nx params -> 0 <= jj < ny params ->
         0 <= ii * nx params + jj < ny params * nx params)
      <-> nx params <= ny params).
Proof.
  intros Hnx Hny. split; [|split].
  - intros cells obstacles ii jj. unfold write_values_line. cbv zeta.
    destruct (blocked obstacles (ii + jj * nx params)); reflexivity.
  - intros Hall.
    specialize (Hall (nx params - 1) (ny params - 1) ltac:(lia) ltac:(lia)).
    nia.
  - intros Hle ii jj Hii Hjj. nia.
Qed.

End OutputFacts.

(** The lines of the 2 x 3 sample grid. *)
Lemma write_values_state_lines_witness :
  let params := sample_params in
  let cells := initialise_cells params in
  let obstacles := [0; 0; 1; 0; 0; 0] in
  let lines := write_values_state params cells obstacles in
  (0 <= nx params /\ 0 <= ny params)
  /\ Z.of_nat (length lines) = ny params * nx params
  /\ forall ii jj, 0 <= ii < nx params -> 0 <= jj < ny params ->
       lines !! Z.to_nat (ii + jj * nx params)
       = Some (write_values_line params cells obstacles ii jj).
Proof.
  cbv zeta. split.
  - split; simpl; lia.
  - apply (write_values_state_lines sample_params
             (initialise_cells sample_params) [0; 0; 1; 0; 0; 0]).
    + simpl; lia.
    + simpl; lia.
Defined.

(** The 2 x 3 sample grid has fewer columns than rows. *)
Lemma write_values_flag_in_bounds_witness :
  (1 <= nx sample_params /\ 1 <= ny sample_params)
  /\ (forall cells obstacles ii jj,
        sl_obstacle (write_values_line sample_params cells obstacles ii jj)
        = load 0 obstacles (ii * nx sample_params + jj))
  /\ ((forall ii jj, 0 <= ii < nx sample_params ->
         0 <= jj < ny sample_params ->
         0 <= ii * nx sample_params + jj
         < ny sample_params * nx sample_params)
      <-> nx sample_params <= ny sample_params).
Proof.
  split.
  - split; simpl; lia.
  - apply (write_values_flag_in_bounds sample_params); simpl; lia.
Defined.

(** ** [calc_reynolds] at the edge of the relaxation range *)

Lemma SFdiv_zero (x : binary32) :
  SFdiv 24 128 x (S754_zero false) = S754_nan
  \/ exists s, SFdiv 24 128 x (S754_zero false) = S754_infinity s.
Proof.
  destruct x as [s|s| |s m e]; cbn.
  - left. reflexivity.
  - right. eexists. reflexivity.
  - left. reflexivity.
  - right. eexists. reflexivity.
Qed.

(** X19: in single precision, with the relaxation parameter [omega = 2]
    the viscosity [1/6 * (2 / omega - 1)] is zero, so [calc_reynolds] divides
    by zero: whatever the grid holds, the Reynolds number it returns is an
    infinity or a NaN, never a finite number. *)
Theorem calc_reynolds_zero_viscosity
    (params : t_param binary32) cells obstacles height :
  omega params = of_int 2 ->
  calc_reynolds params cells obstacles height = S754_nan
  \/ exists s,
       calc_reynolds params cells obstacles height = S754_infinity s.
Proof.
  intros Ho. unfold calc_reynolds. cbv zeta. rewrite Ho.
  assert (Ev : (of_int 1 / of_int 6 * (of_int 2 / of_int 2 - of_int 1))%fl
               = S754_zero false :> binary32)
    by (vm_compute; reflexivity).
  rewrite Ev. apply SFdiv_zero.
Qed.

(** The 2 x 3 sample grid with [omega = 2]. *)
Lemma calc_reynolds_zero_viscosity_witness :
  omega sample_omega_two = of_int 2
  /\ (calc_reynolds sample_omega_two (initialise_cells sample_omega_two)
        (repeat 0 6) 3
      = S754_nan
      \/ exists s,
           calc_reynolds sample_omega_two (initialise_cells sample_omega_two)
             (repeat 0 6) 3
           = S754_infinity s).
Proof.
  split; [reflexivity|].
  apply (calc_reynolds_zero_viscosity sample_omega_two
           (initialise_cells sample_omega_two) (repeat 0 6) 3).
  reflexivity.
Defined.

(** ** [sync_grid]: gathering the rows at the master *)

Section GatherFacts.
Context {F : Type} `{FloatOps F}.
Implicit Types (cells : list (t_speed F)).

(** Nine consecutive stores fill their block and nothing else. *)
Lemma store_block (a : list F) base (v : Z -> F) :
  0 <= base -> base + 9 <= Z.of_nat (length a) ->
  let a' := for_loop 0 NSPEEDS (fun kk a => store a (kk + base) (v kk)) a in
  length a' = length a
  /\ (forall idx, ~ base <= idx < base + 9 ->
        load (of_int 0) a' idx = load (of_int 0) a idx)
  /\ (forall kk, 0 <= kk < 9 -> load (of_int 0) a' (kk + base) = v kk).
Proof.
  intros Hbase Hlen. cbv zeta.
  pose (Q := fun t : list F =>
    length t = length a
    /\ forall idx, ~ base <= idx < base + 9 ->
         load (of_int 0) t idx = load (of_int 0) a idx).
  pose (P := fun (kk : Z) (t : list F) =>
    load (of_int 0) t (kk + base) = v kk).
  assert (G : Q (for_loop 0 NSPEEDS (fun kk a => store a (kk + base) (v kk)) a)
              /\ forall kk, 0 <= kk < NSPEEDS ->
                   P kk (for_loop 0 NSPEEDS
                           (fun kk a => store a (kk + base) (v kk)) a)).
  { apply (for_loop_cells (fun _ _ => True) P Q); [unfold NSPEEDS; lia| | | |].
    - split; [reflexivity|]. intros idx _. reflexivity.
    - intros; exact I.
    - unfold NSPEEDS. intros kk t Hkk [Hq1 Hq2] _. split; [split|].
      + rewrite length_store. exact Hq1.
      + intros idx Hidx. rewrite load_store_other by lia. apply Hq2.
        exact Hidx.
      + unfold P. apply load_store_same. lia.
    - unfold NSPEEDS. intros kk kk' t Hkk Hkk' Hne [Hq1 Hq2].
      split; [intros _; exact I|]. unfold P. intros Hp.
      rewrite load_store_other by lia. exact Hp. }
  destruct G as [[Hq1 Hq2] Hp]. split; [exact Hq1|]. split; [exact Hq2|].
  intros kk Hkk. apply Hp. unfold NSPEEDS. lia.
Qed.

(** The buffer a worker sends holds its rows, nine floats per cell. *)
Lemma sync_grid_send_rows cells start size columns :
  0 <= size -> 0 <= columns ->
  forall ii jj kk, 0 <= jj < size -> 0 <= ii < columns -> 0 <= kk < 9 ->
  load (of_int 0) (sync_grid_send cells start size columns)
    (kk + NSPEEDS * (ii + columns * jj))
  = speeds (cell cells (ii + columns * (jj + start))) kk.
Proof.
  intros Hsize Hcols.
  pose (Q := fun t : list F => Z.of_nat (length t) = columns * size * 9).
  pose (P := fun (ii jj : Z) (t : list F) =>
    forall kk, 0 <= kk < 9 ->
    load (of_int 0) t (kk + 9 * (ii + columns * jj))
    = speeds (cell cells (ii + columns * (jj + start))) kk).
  assert (Hblock : forall ii jj, 0 <= jj < size -> 0 <= ii < columns ->
            0 <= 9 * (ii + columns * jj)
            /\ 9 * (ii + columns * jj) + 9 <= columns * size * 9).
  { intros ii jj Hjj Hii.
    assert (0 <= columns * jj) by nia.
    assert (columns * (jj + 1) <= columns * size) by nia.
    lia. }
  assert (G : Q (sync_grid_send cells start size columns)
              /\ forall ii jj, 0 <= jj < size -> 0 <= ii < columns ->
                   P ii jj (sync_grid_send cells start size columns)).
  { unfold sync_grid_send. cbv zeta.
    apply (rows_loop_cells (fun _ _ _ => True) P Q 0 size columns
             (fun ii jj t =>
                for_loop 0 NSPEEDS (fun kk send =>
                  store send (kk + NSPEEDS * (ii + columns * jj))
                    (speeds (cell cells (ii + columns * (jj + start))) kk))
                  t)); [exact Hsize|exact Hcols| | | |].
    - unfold Q, NSPEEDS. rewrite repeat_length.
      assert (0 <= columns * size) by nia. lia.
    - intros; exact I.
    - intros ii jj t Hjj Hii Hq _. unfold Q in Hq.
      destruct (Hblock ii jj Hjj Hii) as [Hb0 Hb1].
      destruct (store_block t (NSPEEDS * (ii + columns * jj))
                  (fun kk => speeds (cell cells (ii + columns * (jj + start)))
                               kk)
                  ltac:(unfold NSPEEDS; lia) ltac:(unfold NSPEEDS; lia))
        as (Hl & _ & Hin).
      split.
      + unfold Q. rewrite Hl. exact Hq.
      + unfold P. intros kk Hkk. apply (Hin kk Hkk).
    - intros ii jj ii' jj' t Hjj Hii Hjj' Hii' Hne Hq. unfold Q in Hq.
      destruct (Hblock ii jj Hjj Hii) as [Hb0 Hb1].
      destruct (store_block t (NSPEEDS * (ii + columns * jj))
                  (fun kk => speeds (cell cells (ii + columns * (jj + start)))
                               kk)
                  ltac:(unfold NSPEEDS; lia) ltac:(unfold NSPEEDS; lia))
        as (_ & Hout & _).
      split; [intros _; exact I|]. unfold P. intros Hp kk Hkk.
      rewrite Hout; [apply Hp; exact Hkk|].
      pose proof (index_inj columns ii jj ii' jj' Hii Hii' Hne).
      unfold NSPEEDS. lia. }
  destruct G as [_ Hp]. intros ii jj kk Hjj Hii Hkk.
  apply (Hp ii jj Hjj Hii kk Hkk).
Qed.

(** The master copies a received block into the rows of its rank and
    nowhere else. *)
Lemma sync_grid_copy_rows cells recv rank_start rank_size columns :
  0 <= rank_start -> 0 <= rank_size -> 0 <= columns ->
  (rank_start + rank_size) * columns <= Z.of_nat (length cells) ->
  let cells' := sync_grid_copy cells recv rank_start rank_size columns in
  length cells' = length cells
  /\ (forall idx,
        ~ rank_start * columns <= idx < (rank_start + rank_size) * columns ->
        cell cells' idx = cell cells idx)
  /\ (forall ii jj kk, 0 <= jj < rank_size -> 0 <= ii < columns ->
        0 <= kk < 9 ->
        speeds (cell cells' (ii + columns * (jj + rank_start))) kk
        = load (of_int 0) recv (kk + NSPEEDS * (ii + columns * jj))).
Proof.
  intros Hstart Hsize Hcols Hlen. cbv zeta.
  pose (Q := fun t : list (t_speed F) =>
    length t = length cells
    /\ forall idx,
         ~ rank_start * columns <= idx < (rank_start + rank_size) * columns ->
         cell t idx = cell cells idx).
  pose (P := fun (ii jj : Z) (t : list (t_speed F)) =>
    forall kk, 0 <= kk < 9 ->
    speeds (cell t (ii + columns * (jj + rank_start))) kk
    = load (of_int 0) recv (kk + NSPEEDS * (ii + columns * jj))).
  assert (Hrow : forall ii jj, 0 <= jj < rank_size -> 0 <= ii < columns ->
            rank_start * columns <= ii + columns * (jj + rank_start)
            < (rank_start + rank_size) * columns).
  { intros ii jj Hjj Hii.
    assert ((jj + rank_start + 1) * columns
            <= (rank_start + rank_size) * columns) by nia.
    assert (rank_start * columns <= (jj + rank_start) * columns) by nia.
    lia. }
  assert (Hstep : forall ii jj (t : list (t_speed F)),
            0 <= jj < rank_size -> 0 <= ii < columns ->
            length t = length cells ->
            for_loop 0 NSPEEDS (fun kk cells0 =>
              write_speed cells0 (ii + columns * (jj + rank_start)) kk
                (load (of_int 0) recv (kk + NSPEEDS * (ii + columns * jj)))) t
            = store t (ii + columns * (jj + rank_start))
                (mk_speed
                   (load (of_int 0) recv (0 + NSPEEDS * (ii + columns * jj)))
                   (load (of_int 0) recv (1 + NSPEEDS * (ii + columns * jj)))
                   (load (of_int 0) recv (2 + NSPEEDS * (ii + columns * jj)))
                   (load (of_int 0) recv (3 + NSPEEDS * (ii + columns * jj)))
                   (load (of_int 0) recv (4 + NSPEEDS * (ii + columns * jj)))
                   (load (of_int 0) recv (5 + NSPEEDS * (ii + columns * jj)))
                   (load (of_int 0) recv (6 + NSPEEDS * (ii + columns * jj)))
                   (load (of_int 0) recv (7 + NSPEEDS * (ii + columns * jj)))
                   (load (of_int 0) recv (8 + NSPEEDS * (ii + columns * jj))))
            /\ 0 <= ii + columns * (jj + rank_start) < Z.of_nat (length t)).
  { intros ii jj t Hjj Hii Ht.
    pose proof (Hrow ii jj Hjj Hii).
    assert (0 <= rank_start * columns) by nia.
    assert (Hin : 0 <= ii + columns * (jj + rank_start)
                  < Z.of_nat (length t)) by (rewrite Ht; lia).
    split; [|exact Hin].
    apply (write_all_speeds t (ii + columns * (jj + rank_start))
             (fun kk => load (of_int 0) recv
                          (kk + NSPEEDS * (ii + columns * jj))) Hin). }
  assert (G : Q (sync_grid_copy cells recv rank_start rank_size columns)
              /\ forall ii jj, 0 <= jj < rank_size -> 0 <= ii < columns ->
                   P ii jj (sync_grid_copy cells recv rank_start rank_size
                              columns)).
  { unfold sync_grid_copy.
    apply (rows_loop_cells (fun _ _ _ => True) P Q 0 rank_size columns
             (fun ii jj t =>
                for_loop 0 NSPEEDS (fun kk cells0 =>
                  write_speed cells0 (ii + columns * (jj + rank_start)) kk
                    (load (of_int 0) recv
                       (kk + NSPEEDS * (ii + columns * jj)))) t));
      [exact Hsize|exact Hcols| | | |].
    - split; [reflexivity|]. intros idx _. reflexivity.
    - intros; exact I.
    - intros ii jj t Hjj Hii [Hq1 Hq2] _.
      destruct (Hstep ii jj t Hjj Hii Hq1) as [E Hin]. rewrite E.
      split; [split|].
      + rewrite length_store. exact Hq1.
      + intros idx Hidx. pose proof (Hrow ii jj Hjj Hii).
        rewrite cell_store_other by lia. apply Hq2. exact Hidx.
      + unfold P. intros kk Hkk. rewrite cell_store_same by exact Hin.
        destruct (index_cases kk) as [E'|[E'|[E'|[E'|[E'|[E'|[E'|[E'|[E'|E']]]]]]]]];
          try lia; subst kk; reflexivity.
    - intros ii jj ii' jj' t Hjj Hii Hjj' Hii' Hne [Hq1 Hq2].
      destruct (Hstep ii jj t Hjj Hii Hq1) as [E Hin]. rewrite E.
      split; [intros _; exact I|]. unfold P. intros Hp kk Hkk.
      rewrite cell_store_other; [apply Hp; exact Hkk|].
      pose proof (index_inj columns ii (jj + rank_start) ii' (jj' + rank_start)
                    Hii Hii' ltac:(lia)).
      lia. }
  destruct G as [[Hq1 Hq2] Hp]. split; [exact Hq1|]. split; [exact Hq2|].
  intros ii jj kk Hjj Hii Hkk. apply (Hp ii jj Hjj Hii kk Hkk).
Qed.

(** X13: [sync_grid] gathers the grid at the master.  When every rank of a
    run calls [sync_grid] and the master receives what the other ranks
    send, the master's grid holds afterwards, in the rows of every other
    rank, the cells of that rank's grid, and in its own rows the cells it
    had; the grid keeps its length. *)
Theorem sync_grid_gathers_rows
    cells (worker_cells : Z -> list (t_speed F)) rows columns ranks :
  1 <= ranks -> 0 <= rows -> 0 <= columns ->
  Z.of_nat (length cells) = rows * columns ->
  let start := domain_start rows ranks in
  let len := domain_size rows ranks in
  let sent i :=
    default []
      (snd (sync_grid (worker_cells i) i (start i) (len i) rows columns ranks
              (fun _ => []))) in
  let gathered :=
    fst (sync_grid cells MASTER (start MASTER) (len MASTER) rows columns ranks
           sent) in
  length gathered = length cells
  /\ forall i ii jj, 0 <= i < ranks -> owns rows ranks i jj ->
       0 <= ii < columns ->
       cell gathered (ii + columns * jj)
       = cell (if i =? MASTER then cells else worker_cells i)
           (ii + columns * jj).
Proof.
  intros Hranks Hrows Hcols Hlen. cbv zeta.
  assert (Hpos : 0 < ranks) by lia.
  unfold sync_grid at 1. unfold MASTER.
  change (negb (0 =? 0)) with false. cbv iota. cbn [fst].
  pose (Q := fun t : list (t_speed F) => length t = length cells).
  pose (U := fun (i : Z) (t : list (t_speed F)) =>
    forall ii jj, owns rows ranks i jj -> 0 <= ii < columns ->
    cell t (ii + columns * jj) = cell cells (ii + columns * jj)).
  pose (P := fun (i : Z) (t : list (t_speed F)) =>
    forall ii jj, owns rows ranks i jj -> 0 <= ii < columns ->
    cell t (ii + columns * jj)
    = cell (if i =? 0 then cells else worker_cells i) (ii + columns * jj)).
  assert (Hsent : forall i, 0 <= i < ranks -> i <> 0 ->
            default []
              (snd (sync_grid (worker_cells i) i (domain_start rows ranks i)
                      (domain_size rows ranks i) rows columns ranks
                      (fun _ => [])))
            = sync_grid_send (worker_cells i) (domain_start rows ranks i)
                (domain_size rows ranks i) columns).
  { intros i Hi Hne. unfold sync_grid, MASTER.
    destruct (Z.eqb_spec i 0) as [E|_]; [contradiction|]. reflexivity. }
  assert (Hdom : forall i, 0 <= i < ranks ->
            0 <= domain_start rows ranks i
            /\ 0 <= domain_size rows ranks i
            /\ (domain_start rows ranks i + domain_size rows ranks i) * columns
               <= rows * columns).
  { intros i Hi.
    pose proof (domain_range_in_grid ranks Hpos rows i Hrows Hi) as [Hs Ht].
    pose proof (domain_size_nonneg ranks Hpos rows i Hrows Hi).
    split; [exact Hs|]. split; [assumption|nia]. }
  assert (Hother : forall i j ii jj, 0 <= i < ranks -> 0 <= j < ranks ->
            i <> j -> owns rows ranks j jj -> 0 <= ii < columns ->
            ~ domain_start rows ranks i * columns <= ii + columns * jj
              < (domain_start rows ranks i + domain_size rows ranks i)
                * columns).
  { intros i j ii jj Hi Hj Hne Ho Hii Hin.
    apply Hne. apply (owner_unique ranks Hpos rows jj i j Hrows Hi Hj);
      [|exact Ho].
    unfold owns. split; nia. }
  assert (Hbody : forall i (t : list (t_speed F)), 0 <= i < ranks -> i <> 0 ->
            (let '(rank_start, rank_size) :=
               for_loop 0 rows (domain_step ranks i) (0, 0) in
             sync_grid_copy t
               (default []
                  (snd (sync_grid (worker_cells i) i
                          (domain_start rows ranks i)
                          (domain_size rows ranks i) rows columns ranks
                          (fun _ => []))))
               rank_start rank_size columns)
            = sync_grid_copy t
                (sync_grid_send (worker_cells i) (domain_start rows ranks i)
                   (domain_size rows ranks i) columns)
                (domain_start rows ranks i) (domain_size rows ranks i)
                columns).
  { intros i t Hi Hne. rewrite (Hsent i Hi Hne).
    unfold domain_start, domain_size, domain.
    destruct (for_loop 0 rows (domain_step ranks i) (0, 0)) as [rs rz].
    reflexivity. }
  assert (G : Q (for_loop 0 ranks (fun i cells0 =>
                   if i =? 0 then cells0
                   else
                     let '(rank_start, rank_size) :=
                       for_loop 0 rows (domain_step ranks i) (0, 0) in
                     sync_grid_copy cells0
                       (default []
                          (snd (sync_grid (worker_cells i) i
                                  (domain_start rows ranks i)
                                  (domain_size rows ranks i) rows columns
                                  ranks (fun _ => []))))
                       rank_start rank_size columns) cells)
              /\ forall i, 0 <= i < ranks ->
                   P i (for_loop 0 ranks (fun i cells0 =>
                   if i =? 0 then cells0
                   else
                     let '(rank_start, rank_size) :=
                       for_loop 0 rows (domain_step ranks i) (0, 0) in
                     sync_grid_copy cells0
                       (default []
                          (snd (sync_grid (worker_cells i) i
                                  (domain_start rows ranks i)
                                  (domain_size rows ranks i) rows columns
                                  ranks (fun _ => []))))
                       rank_start rank_size columns) cells)).
  { apply (for_loop_cells U P Q); [lia| | | |].
    - reflexivity.
    - intros i Hi ii jj _ _. reflexivity.
    - intros i t Hi Hq Hu. unfold Q in Hq.
      destruct (Z.eqb_spec i 0) as [E|Hne].
      + split; [exact Hq|]. unfold P. subst i. cbn [Z.eqb]. exact Hu.
      + rewrite (Hbody i t Hi Hne).
        destruct (Hdom i Hi) as (Hs & Hz & Hfit).
        destruct (sync_grid_copy_rows t
                    (sync_grid_send (worker_cells i)
                       (domain_start rows ranks i) (domain_size rows ranks i)
                       columns)
                    (domain_start rows ranks i) (domain_size rows ranks i)
                    columns Hs Hz Hcols ltac:(rewrite Hq, Hlen; exact Hfit))
          as (Hl & _ & Hin).
        split; [unfold Q; rewrite Hl; exact Hq|].
        unfold P. intros ii jj Ho Hii.
        destruct (Z.eqb_spec i 0) as [E|_]; [contradiction|].
        unfold owns in Ho.
        replace jj with (jj - domain_start rows ranks i
                         + domain_start rows ranks i) by lia.
        apply t_speed_ext. intros kk Hkk.
        rewrite Hin by lia.
        rewrite sync_grid_send_rows by lia. reflexivity.
    - intros i j t Hi Hj Hne Hq. unfold Q in Hq.
      destruct (Z.eqb_spec i 0) as [E|Hn0]; [tauto|].
      rewrite (Hbody i t Hi Hn0).
      destruct (Hdom i Hi) as (Hs & Hz & Hfit).
      destruct (sync_grid_copy_rows t
                  (sync_grid_send (worker_cells i)
                     (domain_start rows ranks i) (domain_size rows ranks i)
                     columns)
                  (domain_start rows ranks i) (domain_size rows ranks i)
                  columns Hs Hz Hcols ltac:(rewrite Hq, Hlen; exact Hfit))
        as (_ & Hout & _).
      unfold U, P. split; intros Hold ii jj Ho Hii.
      + rewrite Hout by (apply (Hother i j); assumption).
        apply Hold; assumption.
      + rewrite Hout by (apply (Hother i j); assumption).
        apply Hold; assumption. }
  destruct G as [Hq Hp]. split; [exact Hq|].
  intros i ii jj Hi Ho Hii. apply (Hp i Hi ii jj Ho Hii).
Qed.

End GatherFacts.

(** Two workers on the 1 x 2 sample grid: the master's row 1 is replaced by
    row 1 of the other worker. *)
Lemma sync_grid_gathers_rows_witness :
  let cells := initialise_cells sample_two_rows in
  let worker_cells := fun _ : Z => [sample_large_cell; sample_large_cell] in
  let start := domain_start 2 2 in
  let len := domain_size 2 2 in
  let sent i :=
    default []
      (snd (sync_grid (worker_cells i) i (start i) (len i) 2 1 2
              (fun _ => []))) in
  let gathered :=
    fst (sync_grid cells MASTER (start MASTER) (len MASTER) 2 1 2 sent) in
  (1 <= 2 /\ 0 <= 2 /\ 0 <= 1 /\ Z.of_nat (length cells) = 2 * 1)
  /\ length gathered = length cells
  /\ forall i ii jj, 0 <= i < 2 -> owns 2 2 i jj -> 0 <= ii < 1 ->
       cell gathered (ii + 1 * jj)
       = cell (if i =? MASTER then cells else worker_cells i) (ii + 1 * jj).
Proof.
  cbv zeta. split.
  - split; [lia|]. split; [lia|]. split; [lia|reflexivity].
  - apply (sync_grid_gathers_rows (initialise_cells sample_two_rows)
             (fun _ : Z => [sample_large_cell; sample_large_cell]) 2 1 2).
    + lia.
    + lia.
    + lia.
    + reflexivity.
Defined.

(** ** A fluid at rest, in exact arithmetic *)

Lemma index_decompose nx ny idx :
  0 <= nx -> 0 <= idx < ny * nx ->
  exists ii jj, 0 <= ii < nx /\ 0 <= jj < ny /\ idx = ii + jj * nx.
Proof.
  intros Hnx0 Hidx.
  assert (Hnx : 0 < nx).
  { destruct (Z.eq_dec nx 0) as [E|E]; [|lia].
    rewrite E, Z.mul_0_r in Hidx. lia. }
  pose proof (Z.div_mod idx nx ltac:(lia)) as Hdm.
  pose proof (Z.mod_pos_bound idx nx Hnx) as Hm.
  exists (idx mod nx), (idx / nx). split; [exact Hm|]. split; [|lia].
  split; [apply Z.div_pos; lia|].
  apply Z.div_lt_upper_bound; lia.
Qed.

Section SteadyState.
Local Open Scope R_scope.

(** The initial cell is its own equilibrium: relaxation leaves it as it
    is. *)
Lemma relaxed_initial_cell (params : t_param R) :
  relaxed (omega params) (initial_cell params) = initial_cell params.
Proof.
  unfold relaxed, relax. rewrite !equilibrium_code by lia. cbv zeta.
  unfold lattice_weight, directional, velocity_x, velocity_y.
  rewrite local_density_cell_sum. unfold cell_sum, initial_cell.
  cbn [sp0 sp1 sp2 sp3 sp4 sp5 sp6 sp7 sp8 speeds Z.eqb Z.leb Z.compare
       Pos.compare Pos.compare_cont Pos.eqb
       fadd fsub fmul fdiv fneg of_int real_ops].
  set (d := density params).
  set (rho := d * 4 / 9 + d / 9 + d / 9 + d / 9 + d / 9 + d / 36 + d / 36
              + d / 36 + d / 36).
  replace (d / 9 + d / 36 + d / 36 - (d / 9 + d / 36 + d / 36)) with 0
    by field.
  replace (0 / rho) with 0 by (unfold Rdiv; ring).
  assert (Hrho : rho = d) by (unfold rho; field). rewrite Hrho.
  f_equal; field.
Qed.

(** Streaming on the uniform grid brings the initial cell to every cell. *)
Lemma streamed_uniform (params : t_param R) ii jj :
  (0 <= ii < nx params)%Z -> (0 <= jj < ny params)%Z ->
  streamed params (initialise_cells params) ii jj = initial_cell params.
Proof.
  intros Hii Hjj. unfold streamed. cbv zeta.
  pose proof (Z.rem_bound_pos (jj + 1) (ny params) ltac:(lia) ltac:(lia))
    as Hn.
  pose proof (Z.rem_bound_pos (ii + 1) (nx params) ltac:(lia) ltac:(lia))
    as He.
  set (y_n := Z.rem (jj + 1) (ny params)) in *.
  set (x_e := Z.rem (ii + 1) (nx params)) in *.
  assert (Hs : (0 <= (if jj =? 0 then jj + ny params - 1 else jj - 1)
                < ny params)%Z)
    by (destruct (Z.eqb_spec jj 0); lia).
  assert (Hw : (0 <= (if ii =? 0 then ii + nx params - 1 else ii - 1)
                < nx params)%Z)
    by (destruct (Z.eqb_spec ii 0); lia).
  set (y_s := (if jj =? 0 then jj + ny params - 1 else jj - 1)%Z) in *.
  set (x_w := (if ii =? 0 then ii + nx params - 1 else ii - 1)%Z) in *.
  assert (Hin : forall x y, (0 <= x < nx params)%Z -> (0 <= y < ny params)%Z ->
            cell (initialise_cells params) (x + y * nx params)
            = initial_cell params).
  { intros x y Hx Hy. unfold initialise_cells. apply cell_repeat.
    pose proof (index_in_grid (nx params) (ny params) x y Hx Hy). lia. }
  rewrite (Hin ii jj Hii Hjj), (Hin x_w jj Hw Hjj), (Hin ii y_s Hii Hs),
    (Hin x_e jj He Hjj), (Hin ii y_n Hii Hn), (Hin x_w y_s Hw Hs),
    (Hin x_e y_s He Hs), (Hin x_e y_n He Hn), (Hin x_w y_n Hw Hn).
  reflexivity.
Qed.

(** Without obstacles, propagation and collision over the whole grid leave
    the uniform grid as it is. *)
Lemma kernels_keep_rest_state (params : t_param R) tmp_cells obstacles :
  (1 <= nx params)%Z -> (1 <= ny params)%Z -> grid_size params tmp_cells ->
  no_obstacles params obstacles 0 (ny params) ->
  let st := collision_rows params obstacles 0 (ny params)
              (propagate_rebound_rows params obstacles 0 (ny params)
                 (initialise_cells params, tmp_cells)) in
  fst st = initialise_cells params /\ grid_size params (snd st).
Proof.
  intros Hnx Hny Ht Hfluid. cbv zeta.
  assert (Hc : grid_size params (initialise_cells params)).
  { unfold grid_size, initialise_cells. rewrite repeat_length. nia. }
  destruct (propagate_rebound_rows_fluid params obstacles 0 (ny params)
              (initialise_cells params) tmp_cells
              ltac:(lia) ltac:(lia) ltac:(lia) ltac:(lia)
              Hc Ht Hfluid) as (Hcells & Hlen & Hstream).
  destruct (propagate_rebound_rows params obstacles 0 (ny params)
              (initialise_cells params, tmp_cells)) as [cells1 tmp1].
  cbn [fst snd] in Hcells, Hlen, Hstream. subst cells1.
  destruct (collision_rows_fluid params obstacles 0 (ny params)
              (initialise_cells params) tmp1
              ltac:(lia) ltac:(lia) ltac:(lia) ltac:(lia)
              Hc Hfluid) as (Hsnd & Hlenf & Hrelax).
  split.
  - apply cells_ext; [exact Hlenf|].
    intros idx Hidx. rewrite Hlenf in Hidx. unfold grid_size in Hc.
    destruct (index_decompose (nx params) (ny params) idx ltac:(lia)
                ltac:(lia)) as (ii & jj & Hii & Hjj & ->).
    rewrite Hrelax by lia. rewrite Hstream by lia.
    rewrite streamed_uniform by assumption.
    rewrite relaxed_initial_cell.
    unfold initialise_cells. symmetry. apply cell_repeat.
    pose proof (index_in_grid (nx params) (ny params) ii jj Hii Hjj). lia.
  - rewrite Hsnd. unfold grid_size in *. rewrite Hlen. exact Ht.
Qed.

(** Without acceleration the forcing changes nothing. *)
Lemma accelerate_flow_no_accel (params : t_param R) cells obstacles :
  accel params = 0 ->
  (2 <= ny params)%Z -> (0 <= nx params)%Z -> grid_size params cells ->
  accelerate_flow params cells obstacles = cells.
Proof.
  intros Haccel Hny Hnx Hc.
  destruct (accelerate_flow_cells params cells obstacles Hny Hnx Hc)
    as (Hlen & Hout & Hrow).
  apply cells_ext; [exact Hlen|].
  intros idx _.
  destruct (Z_lt_le_dec idx ((ny params - 2) * nx params)) as [Hl|Hl];
    [apply Hout; lia|].
  destruct (Z_lt_le_dec idx ((ny params - 2 + 1) * nx params)) as [Hu|Hu];
    [|apply Hout; lia].
  replace idx with (idx - (ny params - 2) * nx params
                    + (ny params - 2) * nx params)%Z by lia.
  rewrite Hrow by lia. unfold accelerated.
  destruct (negb _ && _); [|reflexivity].
  unfold forced, forcing_w1, forcing_w2. rewrite Haccel.
  destruct (cell cells _) as [a0 a1 a2 a3 a4 a5 a6 a7 a8].
  cbn [sp0 sp1 sp2 sp3 sp4 sp5 sp6 sp7 sp8
       fadd fsub fmul fdiv fneg of_int real_ops].
  f_equal; field.
Qed.

(** X22: a fluid at rest stays at rest.  In exact arithmetic, with the
    acceleration set to zero, a density other than zero and no obstacles,
    the whole time-step loop of a single worker leaves the uniform grid that
    [initialise] sets up exactly as it is, whatever the relaxation
    parameter. *)
Theorem main_loop_keeps_rest_state
    (params : t_param R) tmp_cells obstacles sendbuf incoming others av_vels :
  (1 <= nx params)%Z -> (2 <= ny params)%Z -> accel params = 0 ->
  density params <> 0 ->
  grid_size params tmp_cells ->
  no_obstacles params obstacles 0 (ny params) ->
  fst (fst (main_loop params obstacles 0 1 0 (ny params) sendbuf incoming
              others (initialise_cells params, tmp_cells) av_vels))
  = initialise_cells params.
Proof.
  intros Hnx Hny Haccel _ Ht Hfluid. unfold main_loop.
  assert (Hc : grid_size params (initialise_cells params)).
  { unfold grid_size, initialise_cells. rewrite repeat_length. nia. }
  destruct (Z_lt_le_dec (maxIters params) 0) as [Hneg|Hpos].
  - rewrite for_loop_empty by lia. reflexivity.
  - pose (Inv := fun (_ : Z)
        (s : (list (t_speed R) * list (t_speed R)) * list R) =>
        fst (fst s) = initialise_cells params
        /\ grid_size params (snd (fst s))).
    assert (G : Inv (maxIters params)
                  (for_loop 0 (maxIters params)
                     (fun tt state =>
                        let '(st, av_vels0) := state in
                        let st0 :=
                          timestep params obstacles 0 1 0 (ny params) sendbuf
                            (incoming tt) st in
                        (st0,
                         store av_vels0 tt
                           (av_velocity params (fst st0) obstacles 0 0
                              (ny params) 1 (others tt))))
                     (initialise_cells params, tmp_cells, av_vels))).
    { apply for_loop_inv; [exact Hpos| |].
      - split; [reflexivity|exact Ht].
      - intros tt [[c t] av] _ [Hc1 Ht1]. cbn [fst snd] in *. subst c.
        unfold Inv. cbn [fst snd]. unfold timestep.
        change (0 =? 1 - 1)%Z with true. cbv beta iota zeta.
        change (halo_exchange_cells
                  (accelerate_flow params (initialise_cells params) obstacles)
                  sendbuf (nx params) (ny params) 0 (ny params) 0 1
                  (incoming tt))
          with (accelerate_flow params (initialise_cells params) obstacles).
        rewrite (accelerate_flow_no_accel params _ obstacles Haccel Hny
                   ltac:(lia) Hc).
        apply (kernels_keep_rest_state params t obstacles ltac:(lia)
                 ltac:(lia) Ht1 Hfluid). }
    destruct G as [E _]. exact E.
Qed.

(** Two iterations of the 2 x 3 sample grid without acceleration. *)
Lemma main_loop_keeps_rest_state_witness :
  let params := sample_rest_R in
  let cells := initialise_cells params in
  let obstacles := repeat 0%Z 6 in
  ((1 <= nx params)%Z /\ (2 <= ny params)%Z /\ accel params = 0
   /\ density params <> 0
   /\ grid_size params cells
   /\ no_obstacles params obstacles 0 (ny params))
  /\ fst (fst (main_loop params obstacles 0 1 0 (ny params) []
                 (fun _ => []) (fun _ => []) (cells, cells) [0; 0]))
     = cells.
Proof.
  cbv zeta.
  assert (Hfluid : no_obstacles sample_rest_R (repeat 0%Z 6) 0
                     (ny sample_rest_R)).
  { intros ii jj Hjj Hii. simpl in Hjj, Hii.
    assert (Hj : (jj = 0 \/ jj = 1 \/ jj = 2)%Z) by lia.
    assert (Hi : (ii = 0 \/ ii = 1)%Z) by lia.
    destruct Hj as [->|[->| ->]]; destruct Hi as [->| ->]; reflexivity. }
  split.
  - split; [simpl; lia|]. split; [simpl; lia|]. split; [reflexivity|].
    split; [simpl; lra|]. split; [reflexivity|exact Hfluid].
  - apply (main_loop_keeps_rest_state sample_rest_R
             (initialise_cells sample_rest_R) (repeat 0%Z 6) []
             (fun _ => []) (fun _ => []) [0; 0]).
    + simpl; lia.
    + simpl; lia.
    + reflexivity.
    + simpl; lra.
    + reflexivity.
    + exact Hfluid.
Defined.

End SteadyState.

(** ** What the halo exchange delivers *)

Section HaloDelivery.
Context {F : Type} `{FloatOps F}.

(** X24: the halo exchange delivers the neighbours' boundary rows.  With
    more than one worker and a row for every worker, when the successor
    sends its first row and the predecessor its last row, a worker's grid
    holds after [halo_exchange], in the row below its range, the
    predecessor's cells of that same row, and in the row above its range,
    when that is another row, the successor's cells of that row. *)
Theorem halo_exchange_delivers_rows
    (cells cells_succ cells_pred : list (t_speed F))
    sendbuf buf_succ buf_pred width ny size rank :
  1 < size -> size <= ny -> 0 <= rank < size -> 0 <= width ->
  Z.of_nat (length cells) = ny * width ->
  width * NSPEEDS <= Z.of_nat (length buf_succ) ->
  width * NSPEEDS <= Z.of_nat (length buf_pred) ->
  let start := domain_start ny size in
  let len := domain_size ny size in
  let succ := (rank + 1) mod size in
  let pred := (rank - 1) mod size in
  let from_succ := SendRecv_pack cells_succ buf_succ (start succ) width in
  let from_pred :=
    SendRecv_pack cells_pred buf_pred (start pred + len pred - 1) width in
  let cells' :=
    halo_exchange_cells cells sendbuf width ny (start rank) (len rank) rank
      size [from_succ; from_pred] in
  let up := (start rank + len rank) mod ny in
  let down := (start rank - 1 + ny) mod ny in
  forall ii, 0 <= ii < width ->
    cell cells' (ii + down * width) = cell cells_pred (ii + down * width)
    /\ (up <> down ->
        cell cells' (ii + up * width) = cell cells_succ (ii + up * width)).
Proof.
  intros Hsize Hny Hrank Hw Hlen Hbs Hbp. cbv zeta. intros ii Hii.
  assert (Hpos : 0 < size) by lia. assert (Hny0 : 0 <= ny) by lia.
  destruct (neighbour_rows_match ny size rank Hsize Hny Hrank) as [Hup Hdown].
  cbv zeta in Hup, Hdown.
  destruct (receive_rows_outside ny size rank Hsize Hny Hrank)
    as [[Hr1 _] [Hr2 _]].
  pose proof (domain_range_in_grid size Hpos ny rank Hny0 Hrank) as [Hs0 _].
  pose proof (domain_size_nonneg size Hpos ny rank Hny0 Hrank) as Hz0.
  unfold halo_exchange_cells, halo_exchange.
  destruct (Z.eqb_spec size 1) as [E|_]; [lia|].
  cbn [negb zip zip_with fold_left fst snd SendRecv sr_receiveRow].
  rewrite Z.rem_mod_nonneg in Hr1 |- * by lia.
  rewrite Z.rem_mod_nonneg in Hr2 |- * by lia.
  replace (domain_start ny size rank + ny - 1)
    with (domain_start ny size rank - 1 + ny) in Hr2 |- * by lia.
  set (up := (domain_start ny size rank + domain_size ny size rank) mod ny)
    in *.
  set (down := (domain_start ny size rank - 1 + ny) mod ny) in *.
  set (from_succ := SendRecv_pack cells_succ buf_succ
                      (domain_start ny size ((rank + 1) mod size)) width).
  set (from_pred := SendRecv_pack cells_pred buf_pred
                      (domain_start ny size ((rank - 1) mod size)
                       + domain_size ny size ((rank - 1) mod size) - 1)
                      width).
  destruct (SendRecv_unpack_row cells from_succ up width Hw ltac:(lia))
    as (Hl1 & _ & Hrow1); [rewrite Hlen; nia|].
  destruct (SendRecv_unpack_row (SendRecv_unpack cells from_succ up width)
              from_pred down width Hw ltac:(lia))
    as (_ & Hother2 & Hrow2); [rewrite Hl1, Hlen; nia|].
  split.
  - apply t_speed_ext. intros k Hk. rewrite Hrow2 by assumption.
    unfold from_pred. rewrite SendRecv_pack_row by assumption.
    rewrite <- Hdown. reflexivity.
  - intros Hne. rewrite Hother2 by nia.
    apply t_speed_ext. intros k Hk. rewrite Hrow1 by assumption.
    unfold from_succ. rewrite SendRecv_pack_row by assumption.
    rewrite <- Hup. reflexivity.
Qed.

End HaloDelivery.

(** Rank 0 of 2 workers on the 1 x 4 sample grid: rows 2 and 3 arrive from
    rank 1, whose grid holds other values. *)
Lemma halo_exchange_delivers_rows_witness :
  let cells := initialise_cells sample_four_rows in
  let other := repeat sample_large_cell 4 in
  let zeros := repeat (of_int 0 : binary32) 9 in
  let start := domain_start 4 2 in
  let len := domain_size 4 2 in
  let succ := (0 + 1) mod 2 in
  let pred := (0 - 1) mod 2 in
  let from_succ := SendRecv_pack other zeros (start succ) 1 in
  let from_pred := SendRecv_pack other zeros (start pred + len pred - 1) 1 in
  let cells' :=
    halo_exchange_cells cells zeros 1 4 (start 0) (len 0) 0 2
      [from_succ; from_pred] in
  let up := (start 0 + len 0) mod 4 in
  let down := (start 0 - 1 + 4) mod 4 in
  (1 < 2 /\ 2 <= 4 /\ 0 <= 0 < 2 /\ 0 <= 1
   /\ Z.of_nat (length cells) = 4 * 1
   /\ 1 * NSPEEDS <= Z.of_nat (length zeros)
   /\ 1 * NSPEEDS <= Z.of_nat (length zeros))
  /\ forall ii, 0 <= ii < 1 ->
       cell cells' (ii + down * 1) = cell other (ii + down * 1)
       /\ (up <> down ->
           cell cells' (ii + up * 1) = cell other (ii + up * 1)).
Proof.
  cbv zeta. split.
  - split; [lia|]. split; [lia|]. split; [lia|]. split; [lia|].
    split; [reflexivity|]. split; unfold NSPEEDS; simpl; lia.
  - apply (halo_exchange_delivers_rows (initialise_cells sample_four_rows)
             (repeat sample_large_cell 4) (repeat sample_large_cell 4)
             (repeat (of_int 0 : binary32) 9)
             (repeat (of_int 0 : binary32) 9)
             (repeat (of_int 0 : binary32) 9) 1 4 2 0).
    + lia.
    + lia.
    + lia.
    + lia.
    + reflexivity.
    + unfold NSPEEDS; simpl; lia.
    + unfold NSPEEDS; simpl; lia.
Defined.
